(** * TimeCrate: threshold custody of an encryption key

    A verification development for the TimeCrate repository:
    - [backend/server.js]: the orchestrator (AES-256-CBC encryption of the
      payload, Shamir split of the key, fan-out of the shares to the keeper
      nodes, reconstruction and decryption);
    - [contracts/TimeCrate.sol]: the ERC-721 contract that stores the
      release time of every crate;
    - the [MyCrates] component of the web client: the list of crates and
      the unlock dialog, as far as they call the contract and the
      orchestrator.

    Bytes and machine integers are modelled as [Z]; JavaScript exceptions
    as error results; console output and network calls as a trace of
    events; Solidity mappings as finite maps read with a default. *)

From Stdlib Require Import ZArith List Lia Bool String Ascii DecimalString.
From Stdlib Require Import Sorting.Sorted.
From stdpp Require Import base option list gmap strings.
Import ListNotations.
Local Open Scope Z_scope.
Set Warnings "-register-all".

(** ** Bytes *)

Definition is_byte (b : Z) : Prop := 0 <= b < 256.

(** The bytes 0, 1, ..., n - 1. *)
Definition seq_bytes (n : nat) : list Z := map Z.of_nat (seq 0 n).

Definition all_bytes : list Z := seq_bytes 256.

Lemma all_bytes_complete (b : Z) : is_byte b -> In b all_bytes.
Proof.
  intros Hb. unfold all_bytes, seq_bytes. apply in_map_iff.
  exists (Z.to_nat b). split; [unfold is_byte in Hb; lia|].
  apply in_seq. unfold is_byte in Hb. lia.
Qed.

(** Exclusive or is associative and commutative; goals that only permute
    the operands of [Z.lxor] are closed bit by bit. *)
Ltac xor_ac :=
  apply Z.bits_inj'; intros ? _; rewrite ?Z.lxor_spec, ?Z.bits_0;
  repeat match goal with
         | |- context [Z.testbit ?a ?i] =>
             destruct (Z.testbit a i)
         end; reflexivity.

(** ** The field GF(2^8) *)

(** The arithmetic of the splitter. The share library (secrets.js-grempe)
    is not part of the repository's sources; the field is the one the
    specification names, GF(256) with exclusive or as addition, and the
    reduction polynomial, which the specification leaves open, is
    x^8 + x^4 + x^3 + x^2 + 1. *)

Module GF256.

(** Modelled from the spec: addition in GF(256), missing with the share
    library, is exclusive or. *)
Definition add (a b : Z) : Z := Z.lxor a b.

(** Modelled from the spec: multiplication by the indeterminate in
    GF(256), missing with the share library, reduced by
    x^8 + x^4 + x^3 + x^2 + 1. *)
Definition xtime (a : Z) : Z :=
  Z.lxor (Z.land (Z.shiftl a 1) 255) (if Z.testbit a 7 then 29 else 0).

(** Modelled from the spec: multiplication in GF(256), missing with the
    share library, by shift and add: [acc + a * b], consuming [n] bits of
    [b]. *)
Fixpoint mul_loop (n : nat) (a b acc : Z) : Z :=
  match n with
  | O => acc
  | S n' =>
      mul_loop n' (xtime a) (Z.shiftr b 1)
               (if Z.odd b then add acc a else acc)
  end.

(** Modelled from the spec: the product of two field elements, missing
    with the share library. *)
Definition mul (a b : Z) : Z := mul_loop 8 a b 0.

(** Modelled from the spec: powers in GF(256), missing with the share
    library. *)
Fixpoint pow (a : Z) (n : nat) : Z :=
  match n with
  | O => 1
  | S n' => mul (pow a n') a
  end.

(** Modelled from the spec: the inverse in GF(256), missing with the share
    library; the multiplicative group has order 255. *)
Definition inv (a : Z) : Z := pow a 254.

(** Modelled from the spec: division in GF(256), missing with the share
    library. *)
Definition div (a b : Z) : Z := mul a (inv b).

Lemma xtime_add (a b : Z) : xtime (add a b) = add (xtime a) (xtime b).
Proof.
  unfold xtime, add.
  rewrite Z.lxor_spec.
  replace (Z.land (Z.shiftl (Z.lxor a b) 1) 255)
    with (Z.lxor (Z.land (Z.shiftl a 1) 255) (Z.land (Z.shiftl b 1) 255)).
  2:{ apply Z.bits_inj'; intros i Hi.
      rewrite ?Z.lxor_spec, ?Z.land_spec, ?Z.shiftl_spec, ?Z.lxor_spec by lia.
      destruct (Z.testbit a (i - 1)), (Z.testbit b (i - 1)),
        (Z.testbit 255 i); reflexivity. }
  destruct (Z.testbit a 7), (Z.testbit b 7); simpl xorb; xor_ac.
Qed.

Lemma mul_loop_add (n : nat) :
  forall a a' b acc acc',
    mul_loop n (add a a') b (add acc acc')
    = add (mul_loop n a b acc) (mul_loop n a' b acc').
Proof.
  induction n as [|n IH]; intros a a' b acc acc'; simpl; [reflexivity|].
  rewrite xtime_add.
  destruct (Z.odd b).
  - replace (add (add acc acc') (add a a'))
      with (add (add acc a) (add acc' a')) by (unfold add; xor_ac).
    apply IH.
  - apply IH.
Qed.

(** Multiplication distributes over addition in its first argument. *)
Lemma mul_add_l (a a' b : Z) : mul (add a a') b = add (mul a b) (mul a' b).
Proof.
  unfold mul. rewrite <- mul_loop_add. reflexivity.
Qed.

Lemma mul_0_l (b : Z) : mul 0 b = 0.
Proof.
  pose proof (mul_add_l 0 0 b) as H.
  unfold add in H. rewrite Z.lxor_nilpotent in H.
  unfold add in *. rewrite H. apply Z.lxor_nilpotent.
Qed.

End GF256.

(** ** The threshold splitter *)

Module Splitter.

Import GF256.

(** Modelled from the spec: a share of the share library, an
    x-coordinate and, for every byte of the secret, the value of that
    byte's polynomial at the x-coordinate. *)
Record Share := mkShare { share_x : Z; share_y : list Z }.

(** Modelled from the spec: the evaluation of a polynomial in the share
    library, by Horner's rule; [p] holds the coefficients, constant term
    first. *)
Fixpoint eval (p : list Z) (x : Z) : Z :=
  match p with
  | [] => 0
  | c :: p' => add (mul (eval p' x) x) c
  end.

(** Modelled from the spec: the polynomial of one secret byte in
    [secrets.share]; its constant term is the byte, the [k - 1] higher
    coefficients are drawn from the random source [rnd] (byte position,
    coefficient number). *)
Definition polynomial (rnd : nat -> nat -> Z) (k : nat) (i : nat) (s : Z)
  : list Z :=
  s :: map (rnd i) (seq 1 (k - 1)).

(** Modelled from the spec: [secrets.share] of the library
    secrets.js-grempe, which is not part of the repository's sources.
    [split rnd secret n k] builds one polynomial of degree [k - 1] per
    byte of the secret and evaluates it at the x-coordinates 1..n; the
    encoding of a share as one string is left out. *)
Definition split (rnd : nat -> nat -> Z) (secret : list Z) (n k : nat)
  : list Share :=
  let polys := imap (polynomial rnd k) secret in
  map (fun x => mkShare x (map (fun p => eval p x) polys))
      (map Z.of_nat (seq 1 n)).

(** Modelled from the spec: the Lagrange basis polynomial of the point
    [xj] among the x-coordinates [xs], evaluated at 0, as the share
    library needs it to interpolate. *)
Definition weight (xs : list Z) (xj : Z) : Z :=
  fold_right
    (fun xm acc => if Z.eqb xm xj then acc
                   else mul acc (div xm (add xj xm)))
    1 xs.

(** Modelled from the spec: the sum of the values weighted by the basis
    polynomials, in the share library's interpolation. *)
Definition weighted_sum (ys ws : list Z) : Z :=
  fold_right add 0 (zip_with mul ys ws).

(** Modelled from the spec: the share library's Lagrange interpolation
    at x = 0. *)
Definition interpolate0 (pts : list (Z * Z)) : Z :=
  let xs := map fst pts in
  weighted_sum (map snd pts) (map (weight xs) xs).

(** Modelled from the spec: the test of the share library that no
    x-coordinate is repeated. *)
Fixpoint distinctb (xs : list Z) : bool :=
  match xs with
  | [] => true
  | x :: xs' => negb (existsb (Z.eqb x) xs') && distinctb xs'
  end.

(** Modelled from the spec: [secrets.combine] of secrets.js-grempe.
    Fewer than two shares, a repeated x-coordinate or shares of
    different lengths are a [ReconstructionError] ([None]); otherwise
    every byte position is interpolated independently. *)
Definition combine (shares : list Share) : option (list Z) :=
  match shares with
  | [] => None
  | s0 :: _ =>
      let len := length (share_y s0) in
      if (2 <=? length shares)%nat
         && distinctb (map share_x shares)
         && forallb (fun s => (length (share_y s) =? len)%nat) shares
      then Some (map (fun pos =>
                        interpolate0
                          (map (fun s => (share_x s, nth pos (share_y s) 0))
                               shares))
                     (seq 0 len))
      else None
  end.

(** *** Three points over the x-coordinates 1..5 *)

(** The byte recovered from the shares at [x1], [x2], [x3] of the
    polynomial [s + a1 x + a2 x^2], with interpolation weights [ws]. *)
Definition recover (ws : list Z) (x1 x2 x3 s a1 a2 : Z) : Z :=
  weighted_sum (map (eval [s; a1; a2]) [x1; x2; x3]) ws.

(** The x-coordinates of the five shares. *)
Definition xs5 : list Z := [1; 2; 3; 4; 5].

(** For the x-coordinates [x1], [x2], [x3]: every constant term is
    recovered when the other coefficients are zero, and every other
    coefficient alone is recovered as zero. *)
Definition check_triple (x1 x2 x3 : Z) : bool :=
  let ws := map (weight [x1; x2; x3]) [x1; x2; x3] in
  forallb (fun v => (recover ws x1 x2 x3 v 0 0 =? v)
                    && (recover ws x1 x2 x3 0 v 0 =? 0)
                    && (recover ws x1 x2 x3 0 0 v =? 0))
          all_bytes.

(** A random source and a secret for examples. *)
Definition demo_rnd (i j : nat) : Z := Z.of_nat ((7 * i + 13 * j) mod 256).

Definition demo_secret : list Z := [171; 193; 35; 0; 255].

(** *** Linearity *)

Lemma add_interchange (a a' b b' : Z) :
  add (add a a') (add b b') = add (add a b) (add a' b').
Proof. unfold add. xor_ac. Qed.

Lemma eval_add (x : Z) (p : list Z) :
  forall q, length p = length q ->
    eval (zip_with add p q) x = add (eval p x) (eval q x).
Proof.
  induction p as [|c p IH]; intros [|d q] Hlen; simpl in Hlen;
    try discriminate; [reflexivity|].
  cbn [zip_with eval]. rewrite IH by lia.
  rewrite mul_add_l. apply add_interchange.
Qed.

Lemma weighted_sum_add (ws : list Z) :
  forall ys ys', length ys = length ys' ->
    weighted_sum (zip_with add ys ys') ws
    = add (weighted_sum ys ws) (weighted_sum ys' ws).
Proof.
  unfold weighted_sum.
  induction ws as [|w ws IH]; intros [|y ys] [|y' ys'] Hlen;
    simpl in Hlen; try discriminate; try reflexivity.
  cbn [zip_with fold_right]. rewrite IH by lia.
  rewrite mul_add_l. apply add_interchange.
Qed.

Lemma recover_add ws x1 x2 x3 s a1 a2 s' a1' a2' :
  recover ws x1 x2 x3 (add s s') (add a1 a1') (add a2 a2')
  = add (recover ws x1 x2 x3 s a1 a2) (recover ws x1 x2 x3 s' a1' a2').
Proof.
  unfold recover. rewrite <- weighted_sum_add by reflexivity.
  cbn [map zip_with].
  rewrite <- !(eval_add _ [s; a1; a2] [s'; a1'; a2']) by reflexivity.
  reflexivity.
Qed.

(** Every ordered triple of distinct x-coordinates among 1..5 passes the
    check; the 60 triples are evaluated. *)
Lemma checked_triple (x1 x2 x3 : Z) :
  In x1 xs5 -> In x2 xs5 -> In x3 xs5 ->
  distinctb [x1; x2; x3] = true ->
  check_triple x1 x2 x3 = true.
Proof.
  intros H1 H2 H3 Hd.
  assert (H : forallb (fun x1 =>
                forallb (fun x2 =>
                  forallb (fun x3 =>
                    if distinctb [x1; x2; x3]
                    then check_triple x1 x2 x3 else true)
                    xs5) xs5) xs5 = true)
    by (vm_cast_no_check (eq_refl true)).
  rewrite forallb_forall in H. specialize (H _ H1).
  rewrite forallb_forall in H. specialize (H _ H2).
  rewrite forallb_forall in H. specialize (H _ H3).
  rewrite Hd in H. exact H.
Qed.

(** Interpolating three points of a polynomial of degree two returns its
    constant term. *)
Lemma recover_secret (x1 x2 x3 s a1 a2 : Z) :
  In x1 xs5 -> In x2 xs5 -> In x3 xs5 ->
  distinctb [x1; x2; x3] = true ->
  is_byte s -> is_byte a1 -> is_byte a2 ->
  interpolate0 [(x1, eval [s; a1; a2] x1);
                (x2, eval [s; a1; a2] x2);
                (x3, eval [s; a1; a2] x3)] = s.
Proof.
  intros H1 H2 H3 Hd Hs Ha1 Ha2.
  pose proof (checked_triple x1 x2 x3 H1 H2 H3 Hd) as Hc.
  unfold check_triple in Hc. cbv zeta in Hc.
  rewrite forallb_forall in Hc.
  change (interpolate0 _)
    with (recover (map (weight [x1; x2; x3]) [x1; x2; x3]) x1 x2 x3 s a1 a2).
  set (ws := map (weight [x1; x2; x3]) [x1; x2; x3]) in *.
  assert (E : recover ws x1 x2 x3 s a1 a2
              = add (recover ws x1 x2 x3 s 0 0)
                    (add (recover ws x1 x2 x3 0 a1 0)
                         (recover ws x1 x2 x3 0 0 a2))).
  { rewrite <- !recover_add. unfold add.
    rewrite ?Z.lxor_0_l, ?Z.lxor_0_r. reflexivity. }
  rewrite E.
  pose proof (Hc s (all_bytes_complete s Hs)) as Cs.
  pose proof (Hc a1 (all_bytes_complete a1 Ha1)) as C1.
  pose proof (Hc a2 (all_bytes_complete a2 Ha2)) as C2.
  rewrite !andb_true_iff, !Z.eqb_eq in Cs, C1, C2.
  destruct Cs as [[Cs _] _], C1 as [[_ C1] _], C2 as [_ C2].
  rewrite Cs, C1, C2. unfold add. simpl. apply Z.lxor_0_r.
Qed.

Lemma map_seq_nth3 {A : Type} (f1 f2 f3 : A -> Z) (G : Z -> Z -> Z -> Z)
      (l : list A) :
  map (fun pos => G (nth pos (map f1 l) 0) (nth pos (map f2 l) 0)
                    (nth pos (map f3 l) 0))
      (seq 0 (length l))
  = map (fun p => G (f1 p) (f2 p) (f3 p)) l.
Proof.
  induction l as [|a l IH]; [reflexivity|].
  cbn [length seq map nth]. f_equal.
  rewrite <- seq_shift, map_map. exact IH.
Qed.

Lemma map_imap_id (g : list Z -> Z) (secret : list Z) :
  forall f : nat -> Z -> list Z,
    (forall i s, In s secret -> g (f i s) = s) ->
    map g (imap f secret) = secret.
Proof.
  induction secret as [|s secret IH]; intros f Hf; [reflexivity|].
  cbn [imap map]. f_equal.
  - apply Hf. left. reflexivity.
  - apply IH. intros i s' Hin. apply Hf. right. exact Hin.
Qed.

Lemma share_of_split (rnd : nat -> nat -> Z) (secret : list Z) (sh : Share) :
  In sh (split rnd secret 5 3) ->
  exists x, In x xs5 /\
    sh = mkShare x (map (fun p => eval p x) (imap (polynomial rnd 3) secret)).
Proof.
  unfold split. intros H. apply in_map_iff in H as (x & <- & Hx).
  exists x. split; [exact Hx | reflexivity].
Qed.

(** C1: with N = 5 and K = 3, any three distinct shares produced by
    [split], supplied in any order, combine to the original secret; this
    holds for a secret of any length, so for a 32-byte key too. *)
Theorem combine_split_3_of_5
        (rnd : nat -> nat -> Z) (secret : list Z) (s1 s2 s3 : Share) :
  Forall is_byte secret ->
  (forall i j, is_byte (rnd i j)) ->
  In s1 (split rnd secret 5 3) ->
  In s2 (split rnd secret 5 3) ->
  In s3 (split rnd secret 5 3) ->
  s1 <> s2 -> s1 <> s3 -> s2 <> s3 ->
  combine [s1; s2; s3] = Some secret.
Proof.
  intros Hsec Hrnd H1 H2 H3 N12 N13 N23.
  apply share_of_split in H1 as (x1 & Hx1 & ->).
  apply share_of_split in H2 as (x2 & Hx2 & ->).
  apply share_of_split in H3 as (x3 & Hx3 & ->).
  assert (D12 : x1 <> x2) by (intros ->; apply N12; reflexivity).
  assert (D13 : x1 <> x3) by (intros ->; apply N13; reflexivity).
  assert (D23 : x2 <> x3) by (intros ->; apply N23; reflexivity).
  assert (Hd : distinctb [x1; x2; x3] = true).
  { cbn [distinctb existsb].
    apply Z.eqb_neq in D12, D13, D23. rewrite D12, D13, D23. reflexivity. }
  set (polys := imap (polynomial rnd 3) secret).
  unfold combine. cbn [map share_x share_y length forallb].
  rewrite Hd, !length_map, Nat.eqb_refl. cbn [Nat.leb andb].
  f_equal.
  rewrite (map_seq_nth3 (fun p => eval p x1) (fun p => eval p x2)
             (fun p => eval p x3)
             (fun y1 y2 y3 => interpolate0 [(x1, y1); (x2, y2); (x3, y3)])).
  unfold polys. apply map_imap_id. intros i s Hin.
  unfold polynomial. cbn [Nat.sub seq map].
  apply recover_secret; auto.
  rewrite Forall_forall in Hsec. apply Hsec.
  apply list_elem_of_In. exact Hin.
Qed.

Lemma combine_split_3_of_5_witness :
  combine [nth 4 (split demo_rnd demo_secret 5 3) (mkShare 0 []);
           nth 0 (split demo_rnd demo_secret 5 3) (mkShare 0 []);
           nth 2 (split demo_rnd demo_secret 5 3) (mkShare 0 [])]
  = Some demo_secret.
Proof.
  apply (combine_split_3_of_5 demo_rnd demo_secret).
  - unfold demo_secret, is_byte. repeat constructor; lia.
  - intros i j. unfold demo_rnd, is_byte.
    pose proof (Nat.mod_upper_bound (7 * i + 13 * j) 256). lia.
  - vm_compute. tauto.
  - vm_compute. tauto.
  - vm_compute. tauto.
  - vm_compute. discriminate.
  - vm_compute. discriminate.
  - vm_compute. discriminate.
Defined.

End Splitter.

(** ** Results of operations that may throw *)

Inductive Result (A : Type) : Type :=
| Ok (a : A)
| Throw (message : string).

Arguments Ok {A} a.
Arguments Throw {A} message.

(** ** Hexadecimal encoding of buffers *)

Module Hex.

Definition digits : list ascii :=
  list_ascii_of_string "0123456789abcdef".

Definition hex_digit (n : Z) : ascii := nth (Z.to_nat n) digits "0"%char.

Definition digit_value (c : ascii) : option Z :=
  let n := Z.of_N (N_of_ascii c) in
  if (48 <=? n) && (n <=? 57) then Some (n - 48)
  else if (97 <=? n) && (n <=? 102) then Some (n - 87)
  else if (65 <=? n) && (n <=? 70) then Some (n - 55)
  else None.

(** [buffer.toString('hex')]: two lower-case digits per byte. *)
Fixpoint to_hex (bs : list Z) : string :=
  match bs with
  | [] => EmptyString
  | b :: bs' => String (hex_digit (b / 16)) (String (hex_digit (b mod 16)) (to_hex bs'))
  end.

(** [Buffer.from(s, 'hex')]: decodes pairs of digits and stops at the
    first pair that is not hexadecimal; a trailing single digit is
    dropped. *)
Fixpoint from_hex (s : string) : list Z :=
  match s with
  | String c1 (String c2 rest) =>
      match digit_value c1, digit_value c2 with
      | Some h, Some l => (16 * h + l) :: from_hex rest
      | _, _ => []
      end
  | _ => []
  end.

Lemma digit_value_hex_digit (n : Z) :
  0 <= n < 16 -> digit_value (hex_digit n) = Some n.
Proof.
  intros Hn.
  assert (H : In n (map Z.of_nat (seq 0 16))).
  { apply in_map_iff. exists (Z.to_nat n). split; [lia|]. apply in_seq. lia. }
  cbn in H.
  repeat (destruct H as [<- | H]; [reflexivity|]). destruct H.
Qed.

Lemma from_hex_to_hex (bs : list Z) :
  Forall is_byte bs -> from_hex (to_hex bs) = bs.
Proof.
  induction 1 as [|b bs Hb _ IH]; [reflexivity|].
  cbn [to_hex from_hex]. unfold is_byte in Hb.
  rewrite !digit_value_hex_digit
    by (try apply Z.mod_pos_bound; try (split; [apply Z.div_pos | apply Z.div_lt_upper_bound]); lia).
  rewrite IH. f_equal.
  pose proof (Z.div_mod b 16). lia.
Qed.

Lemma length_to_hex (bs : list Z) :
  String.length (to_hex bs) = (2 * length bs)%nat.
Proof.
  induction bs as [|b bs IH]; [reflexivity|].
  cbn [to_hex String.length length]. rewrite IH. lia.
Qed.

End Hex.

(** ** The cipher: AES-256-CBC as used by [encryptData] and [decryptData] *)

Module Cipher.

(** The cipher the source names, ['aes-256-cbc']: cipher block chaining
    over blocks of 16 bytes, with PKCS#7 padding. *)

Definition block_size : nat := 16.

Definition is_block (b : list Z) : Prop := length b = block_size.

Definition xor_block (a b : list Z) : list Z := zip_with Z.lxor a b.

(** PKCS#7 padding: 1 to 16 bytes, each equal to the number of bytes
    added. *)
Definition pad_length (p : list Z) : nat :=
  (block_size - length p mod block_size)%nat.

Definition pkcs7_pad (p : list Z) : list Z :=
  p ++ repeat (Z.of_nat (pad_length p)) (pad_length p).

Definition pkcs7_unpad (p : list Z) : option (list Z) :=
  match last p with
  | None => None
  | Some n =>
      let keep := (length p - Z.to_nat n)%nat in
      if (1 <=? n) && (n <=? 16) && forallb (Z.eqb n) (skipn keep p)
      then Some (firstn keep p)
      else None
  end.

(** The first [n] blocks of [l]. *)
Fixpoint chunks (n : nat) (l : list Z) : list (list Z) :=
  match n with
  | O => []
  | S n' => firstn block_size l :: chunks n' (skipn block_size l)
  end.

Definition blocks (l : list Z) : list (list Z) :=
  chunks (length l / block_size) l.

(** [generateEncryptionKey]: 32 random bytes in hexadecimal. *)
Definition generateEncryptionKey (random32 : list Z) : string :=
  Hex.to_hex random32.

(** A toy block transformation for examples, its own inverse: exclusive
    or with the first half of the key. *)
Definition toy_block (key b : list Z) : list Z := xor_block b key.

Section WithBlockCipher.

(** The AES-256 block transformation under a 32-byte key and its inverse;
    they come from the platform's crypto library. *)
Variable aes_encrypt_block : list Z -> list Z -> list Z.
Variable aes_decrypt_block : list Z -> list Z -> list Z.

(** Cipher block chaining. *)
Fixpoint cbc_encrypt (key prev : list Z) (ps : list (list Z))
  : list (list Z) :=
  match ps with
  | [] => []
  | p :: ps' =>
      let c := aes_encrypt_block key (xor_block p prev) in
      c :: cbc_encrypt key c ps'
  end.

Fixpoint cbc_decrypt (key prev : list Z) (cs : list (list Z))
  : list (list Z) :=
  match cs with
  | [] => []
  | c :: cs' =>
      xor_block (aes_decrypt_block key c) prev :: cbc_decrypt key c cs'
  end.

(** [crypto.createCipheriv('aes-256-cbc', key, iv)] followed by
    [Buffer.concat([cipher.update(data), cipher.final()])]. *)
Definition cipher_run (key iv data : list Z) : Result (list Z) :=
  if negb (length key =? 32)%nat then Throw "Invalid key length"
  else if negb (length iv =? block_size)%nat
       then Throw "Invalid initialization vector"
  else Ok (concat (cbc_encrypt key iv (blocks (pkcs7_pad data)))).

(** [crypto.createDecipheriv('aes-256-cbc', key, iv)] followed by
    [Buffer.concat([decipher.update(data), decipher.final()])]. *)
Definition decipher_run (key iv data : list Z) : Result (list Z) :=
  if negb (length key =? 32)%nat then Throw "Invalid key length"
  else if negb (length iv =? block_size)%nat
       then Throw "Invalid initialization vector"
  else if (length data =? 0)%nat || negb (length data mod block_size =? 0)%nat
       then Throw "wrong final block length"
  else match pkcs7_unpad (concat (cbc_decrypt key iv (blocks data))) with
       | Some p => Ok p
       | None => Throw "bad decrypt"
       end.

(** [encryptData(buffer, key)]; [iv] is the result of
    [crypto.randomBytes(16)]. *)
Definition encryptData (buffer : list Z) (key : string) (iv : list Z)
  : Result (list Z) :=
  let keyBuffer := Hex.from_hex key in
  match cipher_run keyBuffer iv buffer with
  | Ok encrypted => Ok (iv ++ encrypted)
  | Throw m => Throw m
  end.

(** [decryptData(encryptedBuffer, keyHex)]. *)
Definition decryptData (encryptedBuffer : list Z) (keyHex : string)
  : Result (list Z) :=
  let keyBuffer := Hex.from_hex keyHex in
  let iv := firstn 16 encryptedBuffer in
  let encryptedData := skipn 16 encryptedBuffer in
  decipher_run keyBuffer iv encryptedData.

(** *** Padding *)

Lemma pad_length_bounds (p : list Z) :
  (1 <= pad_length p <= 16)%nat.
Proof.
  unfold pad_length, block_size.
  pose proof (Nat.mod_upper_bound (length p) 16). lia.
Qed.

Lemma length_pkcs7_pad (p : list Z) :
  (length (pkcs7_pad p) mod block_size = 0)%nat.
Proof.
  unfold pkcs7_pad. rewrite length_app, repeat_length.
  unfold pad_length, block_size.
  pose proof (Nat.div_mod_eq (length p) 16) as E.
  pose proof (Nat.mod_upper_bound (length p) 16) as B.
  replace (length p + (16 - length p mod 16))%nat
    with ((1 + length p / 16) * 16)%nat by lia.
  apply Nat.Div0.mod_mul.
Qed.

Lemma pkcs7_unpad_pad (p : list Z) : pkcs7_unpad (pkcs7_pad p) = Some p.
Proof.
  unfold pkcs7_unpad, pkcs7_pad.
  pose proof (pad_length_bounds p) as B.
  set (k := pad_length p) in *.
  assert (L : last (p ++ repeat (Z.of_nat k) k) = Some (Z.of_nat k)).
  { destruct k as [|k]; [lia|].
    replace (repeat (Z.of_nat (S k)) (S k))
      with (repeat (Z.of_nat (S k)) k ++ [Z.of_nat (S k)]).
    - rewrite app_assoc. apply last_snoc.
    - rewrite <- repeat_cons. reflexivity. }
  rewrite L, length_app, repeat_length, Nat2Z.id.
  replace (length p + k - k)%nat with (length p) by lia.
  rewrite drop_app_length, take_app_length.
  replace ((1 <=? Z.of_nat k) && (Z.of_nat k <=? 16)) with true
    by (symmetry; apply andb_true_iff; split; apply Z.leb_le; lia).
  replace (forallb (Z.eqb (Z.of_nat k)) (repeat (Z.of_nat k) k)) with true.
  - reflexivity.
  - symmetry. apply forallb_forall. intros x Hx.
    apply repeat_spec in Hx. subst x. apply Z.eqb_refl.
Qed.

(** *** Blocks *)

Lemma concat_chunks (n : nat) :
  forall l, length l = (n * block_size)%nat -> concat (chunks n l) = l.
Proof.
  induction n as [|n IH]; intros l Hl.
  - destruct l; [reflexivity | discriminate].
  - cbn [chunks concat]. rewrite IH.
    + apply firstn_skipn.
    + rewrite length_skipn. lia.
Qed.

Lemma chunks_are_blocks (n : nat) :
  forall l, length l = (n * block_size)%nat -> Forall is_block (chunks n l).
Proof.
  induction n as [|n IH]; intros l Hl; cbn [chunks]; constructor.
  - unfold is_block. rewrite length_firstn. lia.
  - apply IH. rewrite length_skipn. lia.
Qed.

Lemma length_concat_blocks (bs : list (list Z)) :
  Forall is_block bs -> length (concat bs) = (length bs * block_size)%nat.
Proof.
  induction 1 as [|b bs Hb _ IH]; [reflexivity|].
  cbn [concat length]. rewrite length_app, IH, Hb. lia.
Qed.

Lemma chunks_concat (bs : list (list Z)) :
  Forall is_block bs -> chunks (length bs) (concat bs) = bs.
Proof.
  induction 1 as [|b bs Hb _ IH]; [reflexivity|].
  cbn [length chunks concat]. unfold is_block in Hb.
  rewrite <- Hb at 1. rewrite take_app_length.
  rewrite <- Hb at 1. rewrite drop_app_length.
  rewrite IH. reflexivity.
Qed.

Lemma blocks_concat (bs : list (list Z)) :
  Forall is_block bs -> blocks (concat bs) = bs.
Proof.
  intros H. unfold blocks. rewrite length_concat_blocks by exact H.
  unfold block_size. rewrite Nat.div_mul by lia. apply chunks_concat, H.
Qed.

Lemma length_multiple (l : list Z) :
  (length l mod block_size = 0)%nat ->
  length l = (length l / block_size * block_size)%nat.
Proof.
  unfold block_size. intros H.
  pose proof (Nat.div_mod_eq (length l) 16). lia.
Qed.

Lemma xor_block_cancel (p : list Z) :
  forall prev, (length p <= length prev)%nat ->
    xor_block (xor_block p prev) prev = p.
Proof.
  unfold xor_block.
  induction p as [|x p IH]; intros [|y prev] Hlen; simpl in Hlen;
    try reflexivity; try lia.
  cbn [zip_with]. rewrite IH by lia.
  rewrite Z.lxor_assoc, Z.lxor_nilpotent, Z.lxor_0_r. reflexivity.
Qed.

Lemma length_xor_block (p prev : list Z) :
  is_block p -> is_block prev -> is_block (xor_block p prev).
Proof.
  unfold is_block, xor_block. intros Hp Hq.
  rewrite length_zip_with. lia.
Qed.

(** *** Chaining *)

Hypothesis aes_block_length :
  forall key b, length key = 32%nat -> is_block b ->
    is_block (aes_encrypt_block key b).

Hypothesis aes_decrypt_encrypt :
  forall key b, length key = 32%nat -> is_block b ->
    aes_decrypt_block key (aes_encrypt_block key b) = b.

Lemma cbc_encrypt_blocks (key : list Z) (ps : list (list Z)) :
  length key = 32%nat -> Forall is_block ps ->
  forall prev, is_block prev -> Forall is_block (cbc_encrypt key prev ps).
Proof.
  intros Hk. induction 1 as [|p ps Hp _ IH]; intros prev Hprev;
    cbn [cbc_encrypt]; constructor.
  - apply aes_block_length, length_xor_block; assumption.
  - apply IH, aes_block_length, length_xor_block; assumption.
Qed.

Lemma cbc_decrypt_encrypt (key : list Z) (ps : list (list Z)) :
  length key = 32%nat -> Forall is_block ps ->
  forall prev, is_block prev ->
    cbc_decrypt key prev (cbc_encrypt key prev ps) = ps.
Proof.
  intros Hk. induction 1 as [|p ps Hp _ IH]; intros prev Hprev;
    [reflexivity|].
  cbn [cbc_encrypt cbc_decrypt].
  rewrite aes_decrypt_encrypt by (try apply length_xor_block; assumption).
  rewrite xor_block_cancel by (unfold is_block in *; lia).
  rewrite IH by (apply aes_block_length, length_xor_block; assumption).
  reflexivity.
Qed.

Lemma length_chunks (n : nat) : forall l, length (chunks n l) = n.
Proof.
  induction n as [|n IH]; intros l; [reflexivity|].
  cbn [chunks length]. rewrite IH. reflexivity.
Qed.

Lemma length_cbc_encrypt (key : list Z) (ps : list (list Z)) :
  forall prev, length (cbc_encrypt key prev ps) = length ps.
Proof.
  induction ps as [|p ps IH]; intros prev; [reflexivity|].
  cbn [cbc_encrypt length]. rewrite IH. reflexivity.
Qed.

(** A padded buffer has at least one block. *)
Lemma padded_blocks (p : list Z) :
  (1 <= length (pkcs7_pad p) / block_size)%nat.
Proof.
  unfold pkcs7_pad. rewrite length_app, repeat_length.
  pose proof (pad_length_bounds p) as B. unfold pad_length, block_size in *.
  pose proof (Nat.div_mod_eq (length p) 16) as E.
  replace (length p + (16 - length p mod 16))%nat
    with ((1 + length p / 16) * 16)%nat by lia.
  rewrite Nat.div_mul by lia. lia.
Qed.

Lemma decipher_cipher (key iv data : list Z) :
  length key = 32%nat -> is_block iv ->
  exists encrypted,
    cipher_run key iv data = Ok encrypted
    /\ decipher_run key iv encrypted = Ok data.
Proof.
  intros Hk Hiv. unfold cipher_run, decipher_run.
  unfold is_block in Hiv. rewrite Hk, Hiv. cbn [Nat.eqb negb block_size].
  eexists. split; [reflexivity|].
  pose proof (length_pkcs7_pad data) as Hpad.
  assert (Hps : Forall is_block (blocks (pkcs7_pad data))).
  { apply chunks_are_blocks, length_multiple, Hpad. }
  pose proof (cbc_encrypt_blocks key _ Hk Hps iv Hiv) as Hcs.
  rewrite length_concat_blocks by exact Hcs.
  fold block_size. rewrite Nat.Div0.mod_mul.
  rewrite length_cbc_encrypt. unfold blocks at 1. rewrite length_chunks.
  pose proof (padded_blocks data) as Hone.
  replace (length (pkcs7_pad data) / block_size * block_size =? 0)%nat
    with false
    by (symmetry; apply Nat.eqb_neq; unfold block_size in *; lia).
  cbn [Nat.eqb negb orb].
  rewrite blocks_concat by exact Hcs.
  rewrite cbc_decrypt_encrypt by assumption.
  unfold blocks. rewrite concat_chunks by (apply length_multiple, Hpad).
  rewrite pkcs7_unpad_pad. reflexivity.
Qed.

(** C2: decrypting what [encryptData] produced under a freshly generated
    key gives back the plaintext, for every plaintext and every
    initialisation vector of 16 bytes. *)
Theorem decryptData_encryptData (P random32 iv : list Z) :
  Forall is_byte random32 ->
  length random32 = 32%nat ->
  length iv = 16%nat ->
  exists blob,
    encryptData P (generateEncryptionKey random32) iv = Ok blob
    /\ decryptData blob (generateEncryptionKey random32) = Ok P.
Proof.
  intros Hbytes Hlen Hiv.
  unfold encryptData, decryptData, generateEncryptionKey.
  rewrite Hex.from_hex_to_hex by exact Hbytes.
  destruct (decipher_cipher random32 iv P Hlen Hiv) as (enc & Henc & Hdec).
  rewrite Henc. eexists. split; [reflexivity|].
  rewrite <- Hiv at 1. rewrite take_app_length.
  rewrite <- Hiv at 1. rewrite drop_app_length.
  exact Hdec.
Qed.

End WithBlockCipher.

Lemma decryptData_encryptData_witness :
  exists blob,
    encryptData toy_block [104; 105] (generateEncryptionKey (seq_bytes 32))
                (repeat 7 16) = Ok blob
    /\ decryptData toy_block blob (generateEncryptionKey (seq_bytes 32))
       = Ok [104; 105].
Proof.
  apply (decryptData_encryptData toy_block toy_block).
  - intros key b Hk Hb. unfold toy_block, xor_block, is_block in *.
    rewrite length_zip_with. unfold block_size in *. lia.
  - intros key b Hk Hb. unfold toy_block.
    apply xor_block_cancel. unfold is_block, block_size in Hb. lia.
  - unfold seq_bytes, is_byte. apply Forall_forall. intros x Hx.
    apply list_elem_of_In, in_map_iff in Hx as (n & <- & Hn).
    apply in_seq in Hn. lia.
  - reflexivity.
  - reflexivity.
Defined.

(** X9: the layout of the encrypted buffer. The generated key has 64
    hexadecimal characters, and under it [encryptData] does not fail: it
    returns the initialisation vector, in clear, followed by the
    ciphertext, which is as long as the plaintext padded to the next
    multiple of 16 bytes (a full block of padding when the length is
    already a multiple). *)
Theorem encryptData_layout
        (aes_encrypt_block : list Z -> list Z -> list Z)
        (P random32 iv : list Z) :
  (forall key b, length key = 32%nat -> is_block b ->
                 is_block (aes_encrypt_block key b)) ->
  Forall is_byte random32 ->
  length random32 = 32%nat ->
  length iv = 16%nat ->
  String.length (generateEncryptionKey random32) = 64%nat
  /\ exists encrypted,
      encryptData aes_encrypt_block P (generateEncryptionKey random32) iv
      = Ok (iv ++ encrypted)
      /\ length encrypted = (16 * (length P / 16 + 1))%nat.
Proof.
  intros Hblock Hbytes Hlen Hiv. unfold generateEncryptionKey.
  split; [rewrite Hex.length_to_hex, Hlen; reflexivity|].
  unfold encryptData, cipher_run.
  rewrite Hex.from_hex_to_hex by exact Hbytes.
  rewrite Hlen, Hiv. cbn [Nat.eqb negb block_size].
  eexists. split; [reflexivity|].
  pose proof (length_pkcs7_pad P) as Hpad.
  assert (Hps : Forall is_block (blocks (pkcs7_pad P))).
  { apply chunks_are_blocks, length_multiple, Hpad. }
  rewrite (length_concat_blocks _
             (cbc_encrypt_blocks aes_encrypt_block Hblock random32 _ Hlen Hps
                                 iv Hiv)).
  rewrite length_cbc_encrypt. unfold blocks. rewrite length_chunks.
  unfold pkcs7_pad, pad_length, block_size.
  rewrite length_app, repeat_length.
  pose proof (Nat.div_mod_eq (length P) 16) as E.
  pose proof (Nat.mod_upper_bound (length P) 16) as B.
  replace (length P + (16 - length P mod 16))%nat
    with ((length P / 16 + 1) * 16)%nat by lia.
  rewrite Nat.div_mul by lia. lia.
Qed.

Lemma encryptData_layout_witness :
  String.length (generateEncryptionKey (seq_bytes 32)) = 64%nat
  /\ exists encrypted,
      encryptData toy_block [104; 105] (generateEncryptionKey (seq_bytes 32))
                  (repeat 7 16)
      = Ok (repeat 7 16 ++ encrypted)
      /\ length encrypted = (16 * (length [104; 105] / 16 + 1))%nat.
Proof.
  apply (encryptData_layout toy_block).
  - intros key b Hk Hb. unfold toy_block, xor_block, is_block in *.
    rewrite length_zip_with. unfold block_size in *. lia.
  - unfold seq_bytes, is_byte. apply Forall_forall. intros x Hx.
    apply list_elem_of_In, in_map_iff in Hx as (n & <- & Hn).
    apply in_seq in Hn. lia.
  - reflexivity.
  - reflexivity.
Defined.

End Cipher.

(** ** JavaScript values that cross the HTTP boundary *)

Module Js.

(** A value read by [JSON.parse]; a number is one with an integer
    value, given by the integer that the text of the request denotes. *)
Inductive Json : Type :=
| JNull
| JBool (b : bool)
| JNum (n : Z)
| JStr (s : string)
| JArr (items : list Json)
| JObj (fields : list (string * Json)).

(** Truthiness: [null], [false], [0] and the empty string are falsy. *)
Definition truthy (j : Json) : bool :=
  match j with
  | JNull => false
  | JBool b => b
  | JNum n => negb (n =? 0)
  | JStr s => negb (String.eqb s "")
  | JArr _ | JObj _ => true
  end.

Definition number_string (n : nat) : string :=
  DecimalString.NilZero.string_of_uint (Nat.to_uint n).

Definition integer_string (n : Z) : string :=
  DecimalString.NilZero.string_of_int (Z.to_int n).

Definition join (sep : string) (parts : list string) : string :=
  match parts with
  | [] => EmptyString
  | p :: ps => fold_left (fun acc q => (acc ++ sep ++ q)%string) ps p
  end.

(** *** Numbers as strings *)

(** The double nearest to the integer [n > 0], ties to even (what
    [JSON.parse] makes of an integer literal); from [2 ^ 1024] on it
    stands for [Infinity]. *)
Definition round_to_double (n : Z) : Z :=
  let shift := Z.log2 n + 1 - 53 in
  if shift <=? 0 then n
  else
    let q := Z.shiftr n shift in
    let r := n - Z.shiftl q shift in
    let half := Z.shiftl 1 (shift - 1) in
    let q' := if (half <? r) || ((r =? half) && Z.odd q) then q + 1 else q in
    Z.shiftl q' shift.

(** The multiple of [10 ^ e] that prints the double [v], if there is one:
    a neighbour of [v] that rounds to [v], the nearer one when both do. *)
Definition digits_at (v e : Z) : option Z :=
  let p := 10 ^ e in
  let below := v / p * p in
  let above := below + p in
  let ok_below := round_to_double below =? v in
  let ok_above := round_to_double above =? v in
  if ok_below && (negb ok_above || (v - below <=? above - v)) then Some below
  else if ok_above then Some above
  else None.

(** The decimal number with the fewest significant digits that denotes
    the double [v], searching from [e] trailing zeros down. *)
Fixpoint shortest_from (v : Z) (e : nat) : Z :=
  match digits_at v (Z.of_nat e) with
  | Some c => c
  | None => match e with
            | O => v
            | S e' => shortest_from v e'
            end
  end.

Definition shortest (v : Z) : Z :=
  shortest_from v (String.length (integer_string v)).

(** The digits [s] without the zeros at their end: [acc] is what is kept
    so far, [zeros] are the zeros read since, kept if another digit
    follows. *)
Fixpoint significant (s acc zeros : string) : string :=
  match s with
  | EmptyString => acc
  | String c s' =>
      if Ascii.eqb c "0" then significant s' acc (zeros ++ "0")%string
      else significant s' (acc ++ zeros ++ String c EmptyString)%string
                       EmptyString
  end.

(** [Number::toString] of a positive integer-valued double given by its
    shortest decimal [c]: all digits up to 21 of them, the exponent form
    beyond. *)
Definition decimal_or_exponent (c : Z) : string :=
  let digits := integer_string c in
  let n := String.length digits in
  if (n <=? 21)%nat then digits
  else
    match significant digits EmptyString EmptyString with
    | EmptyString => digits
    | String d EmptyString =>
        String d ("e+" ++ integer_string (Z.of_nat n - 1))%string
    | String d rest =>
        String d ("." ++ rest ++ "e+" ++ integer_string (Z.of_nat n - 1))%string
    end.

Definition positive_to_string (n : Z) : string :=
  let v := round_to_double n in
  if 2 ^ 1024 <=? v then "Infinity" else decimal_or_exponent (shortest v).

(** [String(n)] for the number that [JSON.parse] reads from the integer
    literal [n]. *)
Definition number_to_string (n : Z) : string :=
  if n =? 0 then "0"
  else if n <? 0 then ("-" ++ positive_to_string (- n))%string
  else positive_to_string n.

(** *** Conversion to a string *)

(** [`${j}`], the conversion of a template literal. An object has the
    string form of [Object.prototype.toString] unless it has a property
    [toString] of its own, which (coming from JSON) is not callable: the
    conversion then throws. An array is joined with commas, [null]
    elements giving the empty string; the first element that throws makes
    the conversion throw. *)
Fixpoint to_string (j : Json) : Result string :=
  match j with
  | JNull => Ok "null"
  | JBool true => Ok "true"
  | JBool false => Ok "false"
  | JNum n => Ok (number_to_string n)
  | JStr s => Ok s
  | JArr items =>
      match
        (fix elements (l : list Json) : Result (list string) :=
           match l with
           | [] => Ok []
           | e :: l' =>
               match match e with
                     | JNull => Ok EmptyString
                     | _ => to_string e
                     end with
               | Throw m => Throw m
               | Ok s =>
                   match elements l' with
                   | Throw m => Throw m
                   | Ok ss => Ok (s :: ss)
                   end
               end
           end) items
      with
      | Throw m => Throw m
      | Ok parts => Ok (join "," parts)
      end
  | JObj fields =>
      if existsb (fun kv => String.eqb (fst kv) "toString") fields
      then Throw "Cannot convert object to primitive value"
      else Ok "[object Object]"
  end.

(** The property [name] of an object. *)
Definition field (name : string) (j : Json) : option Json :=
  match j with
  | JObj fields =>
      match find (fun kv => String.eqb (fst kv) name) fields with
      | Some kv => Some (snd kv)
      | None => None
      end
  | _ => None
  end.

(** *** White space and prefixes *)

(** White space as [String.prototype.trim] removes it (WhiteSpace and
    LineTerminator of ECMAScript). A string holds the UTF-8 bytes of its
    text, so a white-space character takes one, two or three of them. *)

(** U+0009 to U+000D and U+0020 *)
Definition is_white_space (c : ascii) : bool :=
  let n := N_of_ascii c in
  ((9 <=? n) && (n <=? 13) || (n =? 32))%N.

(** U+00A0 *)
Definition is_white_space2 (c1 c2 : ascii) : bool :=
  ((N_of_ascii c1 =? 194) && (N_of_ascii c2 =? 160))%N.

(** U+1680, U+2000 to U+200A, U+2028, U+2029, U+202F, U+205F, U+3000 and
    U+FEFF *)
Definition is_white_space3 (c1 c2 c3 : ascii) : bool :=
  let a := N_of_ascii c1 in
  let b := N_of_ascii c2 in
  let c := N_of_ascii c3 in
  ((a =? 225) && (b =? 154) && (c =? 128)
   || (a =? 226) && (b =? 128)
      && ((128 <=? c) && (c <=? 138) || (c =? 168) || (c =? 169) || (c =? 175))
   || (a =? 226) && (b =? 129) && (c =? 159)
   || (a =? 227) && (b =? 128) && (c =? 128)
   || (a =? 239) && (b =? 187) && (c =? 191))%N.

(** [s] without its first character, when that is white space. *)
Definition white_space_rest (s : string) : option string :=
  match s with
  | String c1 s1 =>
      if is_white_space c1 then Some s1
      else
        match s1 with
        | String c2 s2 =>
            if is_white_space2 c1 c2 then Some s2
            else
              match s2 with
              | String c3 s3 =>
                  if is_white_space3 c1 c2 c3 then Some s3 else None
              | EmptyString => None
              end
        | EmptyString => None
        end
  | EmptyString => None
  end.

Fixpoint trim_start (s : string) : string :=
  match s with
  | String c1 s1 =>
      if is_white_space c1 then trim_start s1
      else
        match s1 with
        | String c2 s2 =>
            if is_white_space2 c1 c2 then trim_start s2
            else
              match s2 with
              | String c3 s3 =>
                  if is_white_space3 c1 c2 c3 then trim_start s3 else s
              | EmptyString => s
              end
        | EmptyString => s
        end
  | EmptyString => EmptyString
  end.

(** A string of white space only; the empty string is one. *)
Fixpoint all_white_space (s : string) : bool :=
  match s with
  | String c1 s1 =>
      if is_white_space c1 then all_white_space s1
      else
        match s1 with
        | String c2 s2 =>
            if is_white_space2 c1 c2 then all_white_space s2
            else
              match s2 with
              | String c3 s3 =>
                  is_white_space3 c1 c2 c3 && all_white_space s3
              | EmptyString => false
              end
        | EmptyString => false
        end
  | EmptyString => true
  end.

(** [s] up to its last character that is not white space. *)
Fixpoint trim_end (s : string) : string :=
  match s with
  | String c s' => if all_white_space s then EmptyString else String c (trim_end s')
  | EmptyString => EmptyString
  end.

Definition trim (s : string) : string := trim_end (trim_start s).

(** [s.substring(0, n)]: the first [n] UTF-16 code units of the text. A
    character outside the basic plane has four bytes and two code units;
    cut in the middle, it is printed as U+FFFD. *)
Fixpoint prefix (n : nat) (s : string) {struct s} : string :=
  match n, s with
  | S n', String c1 s1 =>
      let a := N_of_ascii c1 in
      if (a <? 192)%N then String c1 (prefix n' s1)
      else if (a <? 224)%N then
        match s1 with
        | String c2 s2 => String c1 (String c2 (prefix n' s2))
        | EmptyString => s
        end
      else if (a <? 240)%N then
        match s1 with
        | String c2 (String c3 s3) =>
            String c1 (String c2 (String c3 (prefix n' s3)))
        | _ => s
        end
      else
        match s1 with
        | String c2 (String c3 (String c4 s4)) =>
            match n' with
            | S n'' =>
                String c1 (String c2 (String c3 (String c4 (prefix n'' s4))))
            | O => String (ascii_of_N 239)
                     (String (ascii_of_N 191) (String (ascii_of_N 189) EmptyString))
            end
        | _ => s
        end
  | _, _ => EmptyString
  end.

End Js.

(** ** The orchestrator: [backend/server.js] *)

Module Orchestrator.

Import Js.
Local Open Scope string_scope.

Definition KEEPER_NODES : list string :=
  [ "http://localhost:4001";
    "http://localhost:4002";
    "http://localhost:4003";
    "http://localhost:4004";
    "http://localhost:4005" ].

(** *** Observable events *)

(** An argument of [console.log] or [console.error]. *)
Inductive Arg : Type :=
| Str (s : string)
| Undefined
| Strs (l : list string).

Record PinOptions : Type := mkPinOptions {
  pin_name : string;
  pin_originalFilename : string;
  pin_mimeType : string;
  pin_fileSize : string;
  pin_encryptedAt : string
}.

Inductive Event : Type :=
| ConsoleLog (args : list Arg)
| ConsoleError (args : list Arg)
| PinFileToIPFS (data : list Z) (options : PinOptions)
| SecretsShare (secret : string) (numShares threshold : nat)
| SecretsCombine (shares : list string)
| AxiosPost (url : string) (data : Json)
| AxiosGet (url : string).

(** *** The world outside the process *)

Record World : Type := mkWorld {
  aes_encrypt_block : list Z -> list Z -> list Z;
  aes_decrypt_block : list Z -> list Z -> list Z;
  (** [crypto.randomBytes(32)] and [crypto.randomBytes(16)] *)
  random32 : list Z;
  random16 : list Z;
  (** [new Date().toISOString()] *)
  now_iso : string;
  (** [pinata.pinFileToIPFS]: the [IpfsHash] of the result *)
  pinFileToIPFS : list Z -> PinOptions -> Result string;
  (** [secrets.share] and [secrets.combine] *)
  secrets_share : string -> nat -> nat -> Result (list string);
  secrets_combine : list string -> Result string;
  (** [axios.post] and [axios.get]: the request succeeds or is rejected
      with an error message. The requests to the keepers carry no
      timeout: one that is never answered stays pending, and so does the
      upload that awaits it. A [World] describes the runs in which every
      request settles. *)
  axios_post : string -> Json -> Result unit;
  axios_get : string -> Result (list Z)
}.

(** *** Computations that log, call out and may throw *)

Definition M (A : Type) : Type := (list Event * Result A)%type.

Definition ret {A : Type} (a : A) : M A := ([], Ok a).

Definition bind {A B : Type} (m : M A) (k : A -> M B) : M B :=
  match m with
  | (t, Ok a) => let (t', r) := k a in ((t ++ t')%list, r)
  | (t, Throw message) => (t, Throw message)
  end.

Definition emit (e : Event) : M unit := ([e], Ok tt).

(** A call to the outside: the event, then its outcome. *)
Definition call {A : Type} (e : Event) (outcome : Result A) : M A :=
  ([e], outcome).

Definition lift {A : Type} (r : Result A) : M A := ([], r).

Definition try_catch {A : Type} (m : M A) (handler : string -> M A) : M A :=
  match m with
  | (t, Throw message) =>
      let (t', r) := handler message in ((t ++ t')%list, r)
  | (t, Ok a) => (t, Ok a)
  end.

Notation "x <- m ;; k" := (bind m (fun x => k))
  (at level 100, m at next level, right associativity).
Notation "m ;;; k" := (bind m (fun _ => k))
  (at level 100, right associativity).

Definition log (args : list Arg) : M unit := emit (ConsoleLog args).
Definition log_error (args : list Arg) : M unit := emit (ConsoleError args).

(** *** Responses *)

Inductive Body : Type :=
| JsonBody (j : Json)
| FileBody (data : list Z).

Record Response : Type := mkResponse {
  status : nat;
  headers : list (string * string);
  body : Body
}.

(** [res.status(code).json(fields)] *)
Definition json_response (code : nat) (fields : list (string * Json))
  : Response :=
  mkResponse code [] (JsonBody (JObj fields)).

Definition newline : string := String (ascii_of_nat 10) EmptyString.
Definition double_quote : string := String (ascii_of_nat 34) EmptyString.

(** [shares[i]] as a console argument and as a JSON value. *)
Definition arg_at (shares : list string) (i : nat) : Arg :=
  match nth_error shares i with
  | Some s => Str s
  | None => Undefined
  end.

Definition json_at (shares : list string) (i : nat) : Json :=
  match nth_error shares i with
  | Some s => JStr s
  | None => JNull
  end.

(** *** The upload endpoint *)

Record File : Type := mkFile {
  buffer : list Z;
  originalname : string;
  mimetype : string;
  size : nat
}.

Record UploadRequest : Type := mkUploadRequest { file : option File }.

(** The body of the distribution loop for keeper [i]: the log line, the
    request, and whether it was answered ([None] stands for the [null]
    that the [catch] returns). *)
Definition distribute_one (w : World) (ipfsCid : string)
           (shares : list string) (i : nat)
  : list Event * (nat * Result unit) :=
  let url := nth i KEEPER_NODES "undefined" ++ "/store-share" in
  let data := JObj [("id", JStr ipfsCid); ("share", json_at shares i)] in
  ([ ConsoleLog [Str ("Distributing share " ++ number_string (i + 1)
                      ++ " to keeper at " ++ nth i KEEPER_NODES "undefined"
                      ++ "...")];
     AxiosPost url data ],
   (i, axios_post w url data)).

(** The [catch] attached to the request to keeper [i]. *)
Definition settle_one (r : nat * Result unit) : list Event * option unit :=
  match r with
  | (_, Ok _) => ([], Some tt)
  | (i, Throw message) =>
      ([ConsoleError [Str ("Failed to send share to keeper "
                           ++ number_string (i + 1) ++ ":");
                      Str message]],
       None)
  end.

(** The loop that starts the requests, then [Promise.all]: the requests
    are all started before any of them settles; the model settles them
    in keeper order, all of them (see [World]). *)
Definition distribute (w : World) (ipfsCid : string) (shares : list string)
  : M (list (option unit)) :=
  let started :=
    map (distribute_one w ipfsCid shares)
        (seq 0 (Nat.min (length shares) (length KEEPER_NODES))) in
  let settled := map (fun s => settle_one (snd s)) started in
  ((concat (map fst started) ++ concat (map fst settled))%list,
   Ok (map snd settled)).

(** The loop that collects the URLs of the keepers that stored a share,
    from index [i] on. *)
Fixpoint activeKeeperUrls_from (i : nat) (results : list (option unit))
  : list string :=
  match results with
  | [] => []
  | r :: results' =>
      match r with
      | Some _ => nth i KEEPER_NODES "undefined"
                    :: activeKeeperUrls_from (S i) results'
      | None => activeKeeperUrls_from (S i) results'
      end
  end.

(** The [options] passed to [pinata.pinFileToIPFS]. *)
Definition pinataOptions (w : World) (f : File) : PinOptions :=
  mkPinOptions ("encrypted_" ++ originalname f) (originalname f)
               (mimetype f) (number_string (size f)) (now_iso w).

Definition upload_try (w : World) (f : File) : M Response :=
  let encryptionKey := Cipher.generateEncryptionKey (random32 w) in
  log [Str "Generated encryption key (first 16 chars):";
       Str (substring 0 16 encryptionKey ++ "...")] ;;;
  encryptedBuffer <-
    lift (Cipher.encryptData (aes_encrypt_block w) (buffer f) encryptionKey
                             (random16 w)) ;;
  log [Str "File encrypted successfully"] ;;;
  let options := pinataOptions w f in
  ipfsCid <- call (PinFileToIPFS encryptedBuffer options)
                  (pinFileToIPFS w encryptedBuffer options) ;;
  log [Str "Successfully pinned encrypted file to IPFS. CID:"; Str ipfsCid] ;;;
  log [Str "Original filename:"; Str (originalname f)] ;;;
  let keyInHex := encryptionKey in
  shares <- call (SecretsShare keyInHex 5 3) (secrets_share w keyInHex 5 3) ;;
  log [Str (newline ++ "========================================")] ;;;
  log [Str "🔑 KEY SPLIT INTO 5 SHARES (threshold: 3)"] ;;;
  log [Str "========================================"] ;;;
  log [Str (newline ++ "📋 COPY THESE SHARES FOR MANUAL UNLOCK:" ++ newline)] ;;;
  log [Str "Share 1 (FULL):"; arg_at shares 0] ;;;
  log [Str (newline ++ "Share 2 (FULL):"); arg_at shares 1] ;;;
  log [Str (newline ++ "Share 3 (FULL):"); arg_at shares 2] ;;;
  log [Str (newline ++ "Share 4 (FULL):"); arg_at shares 3] ;;;
  log [Str (newline ++ "Share 5 (FULL):"); arg_at shares 4] ;;;
  log [Str (newline ++ "========================================" ++ newline)] ;;;
  results <- distribute w ipfsCid shares ;;
  let successfulDistributions :=
    length (List.filter (fun r => match r with
                                   | Some _ => true
                                   | None => false
                                   end) results) in
  log [Str ("Successfully distributed " ++ number_string successfulDistributions
            ++ "/" ++ number_string (length shares) ++ " shares to keepers")] ;;;
  if (successfulDistributions <? 3)%nat then
    log_error [Str ("⚠️  WARNING: Only " ++ number_string successfulDistributions
                    ++ "/5 keepers are online!")] ;;;
    log_error [Str "   Need at least 3 keeper nodes running."] ;;;
    ret (json_response 500
           [("error", JStr "Failed to distribute enough shares to keeper nodes. Need at least 3 keepers online.");
            ("successfulDistributions", JNum (Z.of_nat successfulDistributions));
            ("required", JNum 3);
            ("totalKeepers", JNum (Z.of_nat (length KEEPER_NODES)))])
  else
    let activeKeeperUrls := activeKeeperUrls_from 0 results in
    log [Str ("✅ Successfully distributed to "
              ++ number_string successfulDistributions ++ " keepers")] ;;;
    log [Str "   Active keepers:"; Strs activeKeeperUrls] ;;;
    ret (json_response 200
           [("ipfsCid", JStr ipfsCid);
            ("sharesDistributed", JNum (Z.of_nat successfulDistributions));
            ("keeperUrls", JArr (map JStr activeKeeperUrls));
            ("manualShares", JArr [json_at shares 1; json_at shares 2])]).

(** [app.post('/upload', ...)] *)
Definition upload (w : World) (req : UploadRequest) : M Response :=
  match file req with
  | None => ret (json_response 400 [("error", JStr "Missing file")])
  | Some f =>
      try_catch (upload_try w f)
        (fun message =>
           log_error [Str "An error occurred:"; Str message] ;;;
           ret (json_response 500
                  [("error", JStr "An error occurred during the upload/encryption/split process.");
                   ("details", JStr message)]))
  end.

(** *** The reconstruction endpoint *)

(** [fetchFromIPFS(ipfsCid)]; the URL is built inside the [try]. *)
Definition fetchFromIPFS (w : World) (ipfsCid : Json) : M (list Z) :=
  try_catch
    (cid <- lift (to_string ipfsCid) ;;
     let url := "https://gateway.pinata.cloud/ipfs/" ++ cid in
     call (AxiosGet url) (axios_get w url))
    (fun message =>
       log_error [Str "Error fetching from IPFS:"; Str message] ;;;
       lift (Throw "Failed to fetch file from IPFS")).

(** [req.body] after [express.json()]: the two properties the handler
    reads, [None] when the property is absent. *)
Record ReconstructRequest : Type := mkReconstructRequest {
  body_shares : option Json;
  body_ipfsCid : option Json
}.

(** [shares.filter(s => s && s.trim().length > 0)]: a falsy entry is
    dropped, a string is kept when something is left after trimming, and
    any other entry has no [trim] method. *)
Fixpoint validShares (shares : list Json) : Result (list string) :=
  match shares with
  | [] => Ok []
  | s :: rest =>
      if truthy s then
        match s with
        | JStr str =>
            match validShares rest with
            | Ok kept =>
                Ok (if (0 <? String.length (trim str))%nat
                    then str :: kept else kept)
            | Throw message => Throw message
            end
        | _ => Throw "s.trim is not a function"
        end
      else validShares rest
  end.

Definition reconstruct_try (w : World) (shares : list Json) (ipfsCid : Json)
  : M Response :=
  cid <- lift (to_string ipfsCid) ;;
  log [Str (newline ++ "🔑 Reconstructing key for CID: " ++ cid)] ;;;
  log [Str ("Received " ++ number_string (length shares) ++ " shares")] ;;;
  validShares <- lift (validShares shares) ;;
  if (length validShares <? 3)%nat then
    ret (json_response 400 [("error", JStr "At least 3 valid shares are required")])
  else
    log [Str "Share 1 (first 32 chars):";
         Str (prefix 32 (nth 0 validShares "") ++ "...")] ;;;
    log [Str "Share 2 (first 32 chars):";
         Str (prefix 32 (nth 1 validShares "") ++ "...")] ;;;
    log [Str "Share 3 (first 32 chars):";
         Str (prefix 32 (nth 2 validShares "") ++ "...")] ;;;
    key <- try_catch
      (reconstructedKey <-
         call (SecretsCombine (firstn 3 validShares))
              (secrets_combine w (firstn 3 validShares)) ;;
       log [Str "✅ Key reconstructed successfully"] ;;;
       log [Str "Reconstructed key (first 16 chars):";
            Str (prefix 16 reconstructedKey ++ "...")] ;;;
       ret (inl reconstructedKey))
      (fun message =>
         log_error [Str "❌ Failed to reconstruct key:"; Str message] ;;;
         ret (inr (json_response 400
                     [("error", JStr "Failed to reconstruct key. Shares may be invalid or incompatible.");
                      ("details", JStr message)]))) ;;
    match key with
    | inr response => ret response
    | inl reconstructedKey =>
        log [Str "📥 Fetching encrypted file from IPFS..."] ;;;
        fetched <- try_catch
          (encryptedData <- fetchFromIPFS w ipfsCid ;;
           log [Str ("✅ Fetched encrypted file ("
                     ++ number_string (length encryptedData) ++ " bytes)")] ;;;
           ret (inl encryptedData))
          (fun message =>
             log_error [Str "❌ Failed to fetch from IPFS:"; Str message] ;;;
             ret (inr (json_response 500
                         [("error", JStr "Failed to fetch file from IPFS");
                          ("details", JStr message)]))) ;;
        match fetched with
        | inr response => ret response
        | inl encryptedData =>
            log [Str "🔓 Decrypting file..."] ;;;
            decrypted <- try_catch
              (decryptedData <-
                 lift (Cipher.decryptData (aes_decrypt_block w) encryptedData
                                          reconstructedKey) ;;
               log [Str ("✅ File decrypted successfully ("
                         ++ number_string (length decryptedData)
                         ++ " bytes)")] ;;;
               ret (inl decryptedData))
              (fun message =>
                 log_error [Str "❌ Decryption failed:"; Str message] ;;;
                 ret (inr (json_response 500
                             [("error", JStr "Decryption failed. The key may be incorrect.");
                              ("details", JStr message)]))) ;;
            match decrypted with
            | inr response => ret response
            | inl decryptedData =>
                log [Str ("✅ Decrypted file sent to client" ++ newline)] ;;;
                ret (mkResponse 200
                       [("Content-Type", "application/octet-stream");
                        ("Content-Disposition",
                         "attachment; filename=" ++ double_quote
                         ++ "decrypted_file" ++ double_quote)]
                       (FileBody decryptedData))
            end
        end
    end.

(** [app.post('/api/reconstruct', ...)] *)
Definition reconstruct (w : World) (req : ReconstructRequest) : M Response :=
  match body_shares req with
  | Some (JArr shares) =>
      if (length shares <? 3)%nat then
        ret (json_response 400 [("error", JStr "At least 3 shares are required")])
      else
        match body_ipfsCid req with
        | Some ipfsCid =>
            if truthy ipfsCid then
              try_catch (reconstruct_try w shares ipfsCid)
                (fun message =>
                   log_error [Str "❌ Reconstruction process failed:";
                              Str message] ;;;
                   ret (json_response 500
                          [("error", JStr "An error occurred during reconstruction");
                           ("details", JStr message)]))
            else
              ret (json_response 400 [("error", JStr "IPFS CID is required")])
        | None =>
            ret (json_response 400 [("error", JStr "IPFS CID is required")])
        end
  | _ => ret (json_response 400 [("error", JStr "At least 3 shares are required")])
  end.

(** *** What the theorems speak about *)

(** The request that carries share [i] to keeper [i]. *)
Definition delivery (cid : string) (shares : list string) (i : nat)
  : string * Json :=
  (nth i KEEPER_NODES "undefined" ++ "/store-share",
   JObj [("id", JStr cid); ("share", json_at shares i)]).

(** Keeper [i] answered the request, so it holds share [i]. *)
Definition delivered (w : World) (cid : string) (shares : list string)
           (i : nat) : bool :=
  match axios_post w (fst (delivery cid shares i))
                   (snd (delivery cid shares i)) with
  | Ok _ => true
  | Throw _ => false
  end.

(** The number of keepers, out of the five, that hold a share. *)
Definition deliveries (w : World) (cid : string) (shares : list string) : nat :=
  length (List.filter (delivered w cid shares) (seq 0 5)).

Definition is_stored (r : option unit) : bool :=
  match r with
  | Some _ => true
  | None => false
  end.

Definition results_of (w : World) (cid : string) (shares : list string)
  : list (option unit) :=
  map (fun i => if delivered w cid shares i then Some tt else None)
      (seq 0 (Nat.min (length shares) (length KEEPER_NODES))).

Definition response_field (name : string) (r : Response) : option Json :=
  match body r with
  | JsonBody j => field name j
  | FileBody _ => None
  end.



(** A keeper holds [share]: a request carrying it was sent during the
    run with trace [t], and the keeper answered it. *)
Definition keeper_holds (w : World) (t : list Event) (share : string) : Prop :=
  exists url id,
    In (AxiosPost url (JObj [("id", JStr id); ("share", JStr share)])) t
    /\ axios_post w url (JObj [("id", JStr id); ("share", JStr share)])
       = Ok tt.

(** The backup shares as the specification describes them: N - 1 = 4
    shares, none of which a keeper also holds. *)
Definition backups_as_specified (w : World) (req : UploadRequest) : Prop :=
  forall response backups,
    snd (upload w req) = Ok response ->
    status response = 200%nat ->
    response_field "manualShares" response = Some (JArr (map JStr backups)) ->
    length backups = 4%nat
    /\ forall share, In share backups ->
                     ~ keeper_holds w (fst (upload w req)) share.

(** The non-empty shares among the entries of [shares], in order. *)
Definition non_empty_strings (items : list Json) : list string :=
  flat_map (fun j => match j with
                     | JStr s => if all_white_space s then [] else [s]
                     | _ => []
                     end) items.

(** An entry that [filter] can test: a string, or a falsy value. *)
Definition string_or_falsy (j : Json) : Prop :=
  match j with
  | JStr _ => True
  | _ => truthy j = false
  end.


(** The arguments of the calls to [secrets.combine] and the URLs of the
    calls to [axios.get], in order. *)
Definition combine_calls (t : list Event) : list (list string) :=
  flat_map (fun e => match e with
                     | SecretsCombine l => [l]
                     | _ => []
                     end) t.

Definition get_calls (t : list Event) : list string :=
  flat_map (fun e => match e with
                     | AxiosGet url => [url]
                     | _ => []
                     end) t.

(** The line logged just before [decryptData] is called. *)
Definition decrypting : Event := ConsoleLog [Str "🔓 Decrypting file..."].





Definition reconstruction_error (details : string) : Response :=
  json_response 400
    [("error", JStr "Failed to reconstruct key. Shares may be invalid or incompatible.");
     ("details", JStr details)].

Definition fetch_error (details : string) : Response :=
  json_response 500
    [("error", JStr "Failed to fetch file from IPFS");
     ("details", JStr details)].

Definition decryption_error (details : string) : Response :=
  json_response 500
    [("error", JStr "Decryption failed. The key may be incorrect.");
     ("details", JStr details)].

(** The URL from which [fetchFromIPFS] reads the content [cid], for a
    [cid] that has a string form. *)
Definition gateway_url (cid : Json) : string :=
  match to_string cid with
  | Ok text => "https://gateway.pinata.cloud/ipfs/" ++ text
  | Throw _ => EmptyString
  end.








(** [w] with another answer of [secrets.combine]. *)
Definition with_combine (w : World) (answer : Result string) : World :=
  mkWorld (aes_encrypt_block w) (aes_decrypt_block w) (random32 w)
          (random16 w) (now_iso w) (pinFileToIPFS w) (secrets_share w)
          (fun _ => answer) (axios_post w) (axios_get w).

(** The payload of the quorum failure. *)
Definition quorum_error (n : nat) : Response :=
  json_response 500
    [("error", JStr "Failed to distribute enough shares to keeper nodes. Need at least 3 keepers online.");
     ("successfulDistributions", JNum (Z.of_nat n));
     ("required", JNum 3);
     ("totalKeepers", JNum 5)].

(** A world for examples: a toy block cipher, fixed random bytes, a pin
    service and a share library that always answer, and the keepers
    whose number (1 to 5) is in [down] unreachable. *)
Definition demo_shares : list string :=
  ["801a3f"; "802b40"; "803c51"; "804d62"; "805e73"].

Definition demo_key : string := Cipher.generateEncryptionKey (seq_bytes 32).

Definition demo_world (down : list nat) : World :=
  mkWorld Cipher.toy_block Cipher.toy_block
          (seq_bytes 32) (repeat 7%Z 16)
          "2025-01-01T00:00:00.000Z"
          (fun _ _ => Ok "QmDemoCid")
          (fun _ _ _ => Ok demo_shares)
          (fun _ => Ok demo_key)
          (fun url _ =>
             if existsb (fun i => String.eqb url (fst (delivery "" [] (i - 1))))
                        down
             then Throw "connect ECONNREFUSED" else Ok tt)
          (fun _ => Throw "Request failed with status code 404").



Definition demo_file : File :=
  mkFile [104; 105]%Z "note.txt" "text/plain" 2.

Definition demo_upload : UploadRequest := mkUploadRequest (Some demo_file).

(** Six entries, three of which do not count, and the same with other
    characters after the first 32 of each share. *)
Definition demo_items (suffix : string) : list Json :=
  [ JStr ("8010123456789abcdef0123456789abc" ++ suffix);
    JStr "  ";
    JNull;
    JStr ("8020123456789abcdef0123456789abc" ++ suffix);
    JStr ("8030123456789abcdef0123456789abc" ++ suffix);
    JStr ("8040123456789abcdef0123456789abc" ++ suffix) ].


(** The requests sent to keepers, the secrets handed to [secrets.share]
    and the buffers handed to the pin service, in order. *)
Definition post_calls (t : list Event) : list (string * Json) :=
  flat_map (fun e => match e with
                     | AxiosPost url data => [(url, data)]
                     | _ => []
                     end) t.

Definition share_calls (t : list Event) : list string :=
  flat_map (fun e => match e with
                     | SecretsShare secret _ _ => [secret]
                     | _ => []
                     end) t.

Definition pin_calls (t : list Event) : list (list Z) :=
  flat_map (fun e => match e with
                     | PinFileToIPFS data _ => [data]
                     | _ => []
                     end) t.

(** The other responses of the two handlers. *)
Definition missing_file : Response :=
  json_response 400 [("error", JStr "Missing file")].

Definition upload_error (details : string) : Response :=
  json_response 500
    [("error", JStr "An error occurred during the upload/encryption/split process.");
     ("details", JStr details)].

Definition internal_error (details : string) : Response :=
  json_response 500
    [("error", JStr "An error occurred during reconstruction");
     ("details", JStr details)].

Definition file_response (data : list Z) : Response :=
  mkResponse 200
    [("Content-Type", "application/octet-stream");
     ("Content-Disposition",
      "attachment; filename=" ++ double_quote ++ "decrypted_file"
      ++ double_quote)]
    (FileBody data).

(** The upload of [f] fails with [m] before any share is distributed:
    [m] is the message of the first of the encryption, the pin request
    and the split that throws. *)
Definition upload_failed (w : World) (f : File) (m : string) : Prop :=
  Cipher.encryptData (aes_encrypt_block w) (buffer f)
    (Cipher.generateEncryptionKey (random32 w)) (random16 w) = Throw m
  \/ (exists enc,
         Cipher.encryptData (aes_encrypt_block w) (buffer f)
           (Cipher.generateEncryptionKey (random32 w)) (random16 w) = Ok enc
         /\ (pinFileToIPFS w enc (pinataOptions w f) = Throw m
             \/ exists cid,
                 pinFileToIPFS w enc (pinataOptions w f) = Ok cid
                 /\ secrets_share w (Cipher.generateEncryptionKey (random32 w))
                                  5 3 = Throw m)).

(** Every step of the reconstruction of [req] succeeds and the
    decryption gives [plain]. *)
Definition reconstructs (w : World) (req : ReconstructRequest)
           (plain : list Z) : Prop :=
  exists items cid text valid key data,
    body_shares req = Some (JArr items)
    /\ body_ipfsCid req = Some cid
    /\ truthy cid = true
    /\ to_string cid = Ok text
    /\ validShares items = Ok valid
    /\ (3 <= length valid)%nat
    /\ secrets_combine w (firstn 3 valid) = Ok key
    /\ axios_get w ("https://gateway.pinata.cloud/ipfs/" ++ text) = Ok data
    /\ Cipher.decryptData (aes_decrypt_block w) data key = Ok plain.

(** [w] with another answer of the pin service, and of the gateway. *)
Definition with_pin (w : World) (answer : Result string) : World :=
  mkWorld (aes_encrypt_block w) (aes_decrypt_block w) (random32 w)
          (random16 w) (now_iso w) (fun _ _ => answer) (secrets_share w)
          (secrets_combine w) (axios_post w) (axios_get w).

Definition with_get (w : World) (answer : Result (list Z)) : World :=
  mkWorld (aes_encrypt_block w) (aes_decrypt_block w) (random32 w)
          (random16 w) (now_iso w) (pinFileToIPFS w) (secrets_share w)
          (secrets_combine w) (axios_post w) (fun _ => answer).

(** More examples: what the demo world pins for [demo_file], a world
    whose gateway serves it, the response when the third keeper is
    down, and a request with the five demo shares. *)
Definition demo_blob : list Z :=
  match Cipher.encryptData Cipher.toy_block (buffer demo_file) demo_key
                           (repeat 7%Z 16) with
  | Ok blob => blob
  | Throw _ => []
  end.

Definition demo_gateway_world : World :=
  with_get (demo_world []) (Ok demo_blob).

Definition demo_response : Response :=
  match snd (upload (demo_world [3]%nat) demo_upload) with
  | Ok response => response
  | Throw _ => missing_file
  end.

Definition demo_reconstruct : ReconstructRequest :=
  mkReconstructRequest (Some (JArr (map JStr demo_shares)))
                       (Some (JStr "QmDemoCid")).

(** *** The monad's projections *)

Lemma snd_bind {A B : Type} (m : M A) (k : A -> M B) :
  snd (bind m k)
  = match snd m with
    | Ok a => snd (k a)
    | Throw message => Throw message
    end.
Proof.
  destruct m as [t [a|msg]]; [|reflexivity].
  unfold bind. cbn [snd]. destruct (k a). reflexivity.
Qed.

Lemma fst_bind {A B : Type} (m : M A) (k : A -> M B) :
  fst (bind m k)
  = (fst m ++ match snd m with
              | Ok a => fst (k a)
              | Throw _ => []
              end)%list.
Proof.
  destruct m as [t [a|msg]]; unfold bind; cbn [fst snd].
  - destruct (k a). reflexivity.
  - rewrite app_nil_r. reflexivity.
Qed.

Lemma snd_try_catch {A : Type} (m : M A) (h : string -> M A) :
  snd (try_catch m h)
  = match snd m with
    | Ok a => Ok a
    | Throw message => snd (h message)
    end.
Proof.
  destruct m as [t [a|msg]]; [reflexivity|].
  unfold try_catch. cbn [snd]. destruct (h msg). reflexivity.
Qed.

Lemma fst_try_catch {A : Type} (m : M A) (h : string -> M A) :
  fst (try_catch m h)
  = (fst m ++ match snd m with
              | Ok _ => []
              | Throw message => fst (h message)
              end)%list.
Proof.
  destruct m as [t [a|msg]]; unfold try_catch; cbn [fst snd].
  - rewrite app_nil_r. reflexivity.
  - destruct (h msg). reflexivity.
Qed.

Ltac run_snd :=
  repeat (rewrite ?snd_try_catch, ?snd_bind;
          cbn [snd log log_error emit lift call ret]).

Ltac run_fst :=
  repeat (rewrite ?fst_try_catch, ?fst_bind, ?snd_try_catch, ?snd_bind;
          cbn [fst snd log log_error emit lift call ret]).

(** *** The distribution loop *)

Lemma distribute_results (w : World) (cid : string) (shares : list string) :
  snd (distribute w cid shares) = Ok (results_of w cid shares).
Proof.
  unfold distribute, results_of. cbn [snd]. f_equal.
  rewrite !map_map. apply map_ext. intros i.
  unfold distribute_one, settle_one, delivered, delivery. cbn [fst snd].
  destruct (axios_post w _ _); reflexivity.
Qed.

Lemma stored_count (p : nat -> bool) (l : list nat) :
  length (List.filter is_stored
            (map (fun i => if p i then Some tt else None) l))
  = length (List.filter p l).
Proof.
  induction l as [|i l IH]; [reflexivity|].
  cbn [map List.filter]. destruct (p i); cbn [is_stored length]; lia.
Qed.

Lemma results_count (w : World) (cid : string) (shares : list string) :
  length shares = 5%nat ->
  length (List.filter is_stored (results_of w cid shares))
  = deliveries w cid shares.
Proof.
  intros H. unfold results_of, deliveries. rewrite H. apply stored_count.
Qed.

Lemma activeKeeperUrls_spec (p : nat -> bool) (n : nat) :
  forall i,
    activeKeeperUrls_from i
      (map (fun j => if p j then Some tt else None) (seq i n))
    = map (fun j => nth j KEEPER_NODES "undefined") (List.filter p (seq i n)).
Proof.
  induction n as [|n IH]; intros i; [reflexivity|].
  cbn [seq map activeKeeperUrls_from List.filter].
  destruct (p i); cbn [map]; rewrite IH; reflexivity.
Qed.

(** *** The upload endpoint: responses *)

Section Upload.

Variables (w : World) (f : File) (enc : list Z) (cid : string)
          (shares : list string).

Hypothesis encrypted :
  Cipher.encryptData (aes_encrypt_block w) (buffer f)
    (Cipher.generateEncryptionKey (random32 w)) (random16 w)
  = Ok enc.
Hypothesis pinned : pinFileToIPFS w enc (pinataOptions w f) = Ok cid.
Hypothesis split :
  secrets_share w (Cipher.generateEncryptionKey (random32 w)) 5 3
  = Ok shares.

Lemma upload_response :
  snd (upload w (mkUploadRequest (Some f)))
  = Ok (let n := length (List.filter is_stored (results_of w cid shares)) in
        if (n <? 3)%nat then quorum_error n
        else json_response 200
               [("ipfsCid", JStr cid);
                ("sharesDistributed", JNum (Z.of_nat n));
                ("keeperUrls",
                 JArr (map JStr (activeKeeperUrls_from 0
                                   (results_of w cid shares))));
                ("manualShares", JArr [json_at shares 1; json_at shares 2])]).
Proof.
  unfold upload, upload_try. cbn [file].
  run_snd. rewrite encrypted. run_snd. cbv zeta.
  rewrite pinned. run_snd. rewrite split. run_snd.
  rewrite distribute_results. run_snd.
  change (fun r : option unit => match r with
                                 | Some _ => true
                                 | None => false
                                 end) with is_stored.
  destruct (_ <? 3)%nat; run_snd; reflexivity.
Qed.

Hypothesis five_shares : length shares = 5%nat.

(** C3: once the file is encrypted, pinned and the key split in five,
    the upload succeeds exactly when at least three of the five keepers
    stored their share; with two or fewer the response is the quorum
    failure, which carries the counts and no crate. *)
Theorem upload_quorum :
  exists response,
    snd (upload w (mkUploadRequest (Some f))) = Ok response
    /\ (status response = 200%nat <-> (3 <= deliveries w cid shares)%nat)
    /\ ((deliveries w cid shares < 3)%nat ->
        response = quorum_error (deliveries w cid shares))
    /\ ((3 <= deliveries w cid shares)%nat ->
        response_field "ipfsCid" response = Some (JStr cid)).
Proof.
  eexists. split; [apply upload_response|].
  cbv zeta. rewrite (results_count w cid shares five_shares).
  destruct (Nat.ltb_spec (deliveries w cid shares) 3) as [Hlt|Hge].
  - split; [|split].
    + unfold quorum_error, json_response. cbn [status]. split; intros; [discriminate|lia].
    + reflexivity.
    + intros. lia.
  - split; [|split].
    + cbn [status json_response]. split; intros; [lia|reflexivity].
    + intros. lia.
    + intros _. reflexivity.
Qed.

(** C9: on success the returned keeper URLs are exactly the endpoints
    whose delivery succeeded, as many as there were successful
    deliveries (four when four of the five keepers were reachable). *)
Theorem upload_keeper_urls :
  (3 <= deliveries w cid shares)%nat ->
  exists response urls,
    snd (upload w (mkUploadRequest (Some f))) = Ok response
    /\ response_field "keeperUrls" response = Some (JArr (map JStr urls))
    /\ length urls = deliveries w cid shares
    /\ forall url,
         In url urls <->
         exists i, nth_error KEEPER_NODES i = Some url
                   /\ delivered w cid shares i = true.
Proof.
  intros Hq.
  exists (json_response 200
            [("ipfsCid", JStr cid);
             ("sharesDistributed", JNum (Z.of_nat (deliveries w cid shares)));
             ("keeperUrls",
              JArr (map JStr (activeKeeperUrls_from 0
                                (results_of w cid shares))));
             ("manualShares", JArr [json_at shares 1; json_at shares 2])]).
  exists (activeKeeperUrls_from 0 (results_of w cid shares)).
  split; [|split; [reflexivity|]].
  - rewrite upload_response. cbv zeta.
    rewrite (results_count w cid shares five_shares).
    destruct (Nat.ltb_spec (deliveries w cid shares) 3); [lia | reflexivity].
  - unfold results_of. rewrite five_shares.
    change (Nat.min 5 (length KEEPER_NODES)) with 5%nat.
    rewrite activeKeeperUrls_spec. split.
    + rewrite length_map. reflexivity.
    + intros url. rewrite in_map_iff. split.
      * intros (i & <- & Hi). apply filter_In in Hi as [Hi Hd].
        exists i. split; [|exact Hd].
        apply in_seq in Hi.
        do 5 (destruct i as [|i]; [reflexivity|]). lia.
      * intros (i & Hi & Hd). exists i. split.
        -- do 5 (destruct i as [|i]; [cbn in Hi |- *; congruence|]).
           destruct i; discriminate.
        -- apply filter_In. split; [|exact Hd]. apply in_seq.
           assert (i < length KEEPER_NODES)%nat
             by (apply nth_error_Some; congruence).
           cbn in *. lia.
Qed.

Lemma distribute_posts (i : nat) :
  (i < 5)%nat ->
  In (AxiosPost (fst (delivery cid shares i)) (snd (delivery cid shares i)))
     (fst (distribute w cid shares)).
Proof.
  intros Hi. unfold distribute. cbn [fst].
  apply in_or_app. left. apply in_concat.
  exists (fst (distribute_one w cid shares i)). split.
  - apply in_map, in_map, in_seq. rewrite five_shares. cbn. lia.
  - cbn. right. left. reflexivity.
Qed.

Lemma upload_posts (i : nat) :
  (i < 5)%nat ->
  In (AxiosPost (fst (delivery cid shares i)) (snd (delivery cid shares i)))
     (fst (upload w (mkUploadRequest (Some f)))).
Proof.
  intros Hi. pose proof (distribute_posts i Hi) as Hd.
  unfold upload, upload_try. cbn [file].
  run_fst. rewrite encrypted. run_fst. cbv zeta.
  rewrite pinned. run_fst. rewrite split. run_fst.
  rewrite distribute_results. run_fst.
  rewrite !in_app_iff. tauto.
Qed.

(** C5, as the code has it: on success the backup shares returned to the
    caller are the second and the third share of the split, two of them;
    every share, these two included, is sent to the keeper of its index,
    which holds it whenever that delivery succeeded. *)
Theorem upload_backup_shares :
  (3 <= deliveries w cid shares)%nat ->
  exists response s1 s2,
    snd (upload w (mkUploadRequest (Some f))) = Ok response
    /\ nth_error shares 1 = Some s1
    /\ nth_error shares 2 = Some s2
    /\ response_field "manualShares" response = Some (JArr [JStr s1; JStr s2])
    /\ forall i share,
         nth_error shares i = Some share ->
         In (AxiosPost (nth i KEEPER_NODES "undefined" ++ "/store-share")
                       (JObj [("id", JStr cid); ("share", JStr share)]))
            (fst (upload w (mkUploadRequest (Some f))))
         /\ (delivered w cid shares i = true ->
             keeper_holds w (fst (upload w (mkUploadRequest (Some f)))) share).
Proof.
  intros Hq.
  destruct (nth_error shares 1) as [s1|] eqn:E1.
  2:{ apply nth_error_None in E1. lia. }
  destruct (nth_error shares 2) as [s2|] eqn:E2.
  2:{ apply nth_error_None in E2. lia. }
  eexists. exists s1, s2.
  split; [apply upload_response|].
  split; [reflexivity|]. split; [reflexivity|]. split.
  - cbv zeta. rewrite (results_count w cid shares five_shares).
    destruct (Nat.ltb_spec (deliveries w cid shares) 3); [lia|].
    unfold json_at. rewrite E1, E2. reflexivity.
  - intros i share Hi.
    assert (Hlt : (i < 5)%nat).
    { rewrite <- five_shares. apply nth_error_Some. congruence. }
    pose proof (upload_posts i Hlt) as Hpost.
    unfold delivery, json_at in Hpost. rewrite Hi in Hpost.
    cbn [fst snd] in Hpost.
    split; [exact Hpost|].
    intros Hd. exists (nth i KEEPER_NODES "undefined" ++ "/store-share"), cid.
    split; [exact Hpost|].
    unfold delivered, delivery, json_at in Hd. rewrite Hi in Hd.
    cbn [fst snd] in Hd.
    destruct (axios_post w _ _) as [[]|]; [reflexivity | discriminate].
Qed.

End Upload.

Lemma upload_quorum_witness :
  exists response,
    snd (upload (demo_world [4; 5]%nat) demo_upload) = Ok response
    /\ (status response = 200%nat
        <-> (3 <= deliveries (demo_world [4; 5]%nat) "QmDemoCid" demo_shares)%nat)
    /\ ((deliveries (demo_world [4; 5]%nat) "QmDemoCid" demo_shares < 3)%nat ->
        response
        = quorum_error (deliveries (demo_world [4; 5]%nat) "QmDemoCid" demo_shares))
    /\ ((3 <= deliveries (demo_world [4; 5]%nat) "QmDemoCid" demo_shares)%nat ->
        response_field "ipfsCid" response = Some (JStr "QmDemoCid")).
Proof.
  eapply (upload_quorum (demo_world [4; 5]%nat) demo_file _ "QmDemoCid"
                        demo_shares).
  - vm_compute. reflexivity.
  - reflexivity.
  - reflexivity.
  - reflexivity.
Defined.

Lemma upload_keeper_urls_witness :
  exists response urls,
    snd (upload (demo_world [3]%nat) demo_upload) = Ok response
    /\ response_field "keeperUrls" response = Some (JArr (map JStr urls))
    /\ length urls = deliveries (demo_world [3]%nat) "QmDemoCid" demo_shares
    /\ forall url,
         In url urls <->
         exists i, nth_error KEEPER_NODES i = Some url
                   /\ delivered (demo_world [3]%nat) "QmDemoCid" demo_shares i
                      = true.
Proof.
  eapply (upload_keeper_urls (demo_world [3]%nat) demo_file _ "QmDemoCid"
                             demo_shares).
  - vm_compute. reflexivity.
  - reflexivity.
  - reflexivity.
  - reflexivity.
  - vm_compute. lia.
Defined.

Lemma upload_backup_shares_witness :
  exists response s1 s2,
    snd (upload (demo_world [1]%nat) demo_upload) = Ok response
    /\ nth_error demo_shares 1 = Some s1
    /\ nth_error demo_shares 2 = Some s2
    /\ response_field "manualShares" response = Some (JArr [JStr s1; JStr s2])
    /\ forall i share,
         nth_error demo_shares i = Some share ->
         In (AxiosPost (nth i KEEPER_NODES "undefined" ++ "/store-share")
                       (JObj [("id", JStr "QmDemoCid"); ("share", JStr share)]))
            (fst (upload (demo_world [1]%nat) demo_upload))
         /\ (delivered (demo_world [1]%nat) "QmDemoCid" demo_shares i = true ->
             keeper_holds (demo_world [1]%nat)
                          (fst (upload (demo_world [1]%nat) demo_upload)) share).
Proof.
  eapply (upload_backup_shares (demo_world [1]%nat) demo_file _ "QmDemoCid"
                               demo_shares).
  - vm_compute. reflexivity.
  - reflexivity.
  - reflexivity.
  - reflexivity.
  - vm_compute. lia.
Defined.

(** C5, as the specification states it, fails when all five keepers are
    reachable: the backup share ["802b40"] is also held by the second
    keeper. *)
Lemma backups_as_specified_counterexample :
  ~ backups_as_specified (demo_world []) demo_upload.
Proof.
  intros H.
  destruct (H (json_response 200
                 [("ipfsCid", JStr "QmDemoCid");
                  ("sharesDistributed", JNum 5);
                  ("keeperUrls", JArr (map JStr KEEPER_NODES));
                  ("manualShares", JArr [JStr "802b40"; JStr "803c51"])])
              ["802b40"; "803c51"])
    as [_ Hfree]; try (vm_compute; reflexivity).
  apply (Hfree "802b40"); [left; reflexivity|].
  exists "http://localhost:4002/store-share", "QmDemoCid".
  split; [|reflexivity].
  vm_compute. repeat (first [left; reflexivity | right]).
Qed.

(** *** The reconstruction endpoint *)

Ltac run :=
  cbn [bind try_catch log log_error emit lift call ret fst snd app].

Lemma trim_start_step (s : string) :
  trim_start s = match white_space_rest s with
                 | Some s' => trim_start s'
                 | None => s
                 end.
Proof.
  destruct s as [|c1 s1]; [reflexivity|].
  cbn [trim_start white_space_rest].
  destruct (is_white_space c1); [reflexivity|].
  destruct s1 as [|c2 s2]; [reflexivity|].
  destruct (is_white_space2 c1 c2); [reflexivity|].
  destruct s2 as [|c3 s3]; [reflexivity|].
  destruct (is_white_space3 c1 c2 c3); reflexivity.
Qed.

Lemma all_white_space_step (s : string) :
  all_white_space s = match s with
                      | EmptyString => true
                      | _ => match white_space_rest s with
                             | Some s' => all_white_space s'
                             | None => false
                             end
                      end.
Proof.
  destruct s as [|c1 s1]; [reflexivity|].
  cbn [all_white_space white_space_rest].
  destruct (is_white_space c1); [reflexivity|].
  destruct s1 as [|c2 s2]; [reflexivity|].
  destruct (is_white_space2 c1 c2); [reflexivity|].
  destruct s2 as [|c3 s3]; [reflexivity|].
  destruct (is_white_space3 c1 c2 c3); reflexivity.
Qed.

Lemma white_space_rest_shorter (s s' : string) :
  white_space_rest s = Some s' -> (String.length s' < String.length s)%nat.
Proof.
  destruct s as [|c1 [|c2 [|c3 s3]]]; cbn [white_space_rest];
    repeat match goal with
           | |- context [if ?b then _ else _] => destruct b
           end; intros E; try discriminate; injection E as <-;
    cbn [String.length]; lia.
Qed.

Lemma white_space_rest_app (s s' t : string) :
  white_space_rest s = Some s' -> white_space_rest (s ++ t) = Some (s' ++ t).
Proof.
  destruct s as [|c1 s1]; [discriminate|].
  change (String c1 s1 ++ t) with (String c1 (s1 ++ t)).
  cbn [white_space_rest].
  destruct (is_white_space c1); [intros E; injection E as <-; reflexivity|].
  destruct s1 as [|c2 s2]; [discriminate|].
  change (String c2 s2 ++ t) with (String c2 (s2 ++ t)).
  cbn [white_space_rest].
  destruct (is_white_space2 c1 c2);
    [intros E; injection E as <-; reflexivity|].
  destruct s2 as [|c3 s3]; [discriminate|].
  change (String c3 s3 ++ t) with (String c3 (s3 ++ t)).
  cbn [white_space_rest].
  destruct (is_white_space3 c1 c2 c3);
    [intros E; injection E as <-; reflexivity | discriminate].
Qed.

(** Induction along the white-space characters at the start of a string. *)
Lemma white_space_ind (P : string -> Prop) :
  (forall s, (forall s', white_space_rest s = Some s' -> P s') -> P s) ->
  forall s, P s.
Proof.
  intros step s.
  remember (String.length s) as n eqn:En.
  revert s En. induction n as [n IH] using lt_wf_ind. intros s En.
  apply step. intros s' E. apply (IH (String.length s')); [|reflexivity].
  subst n. exact (white_space_rest_shorter s s' E).
Qed.

Lemma all_white_space_trim_start (s : string) :
  all_white_space (trim_start s) = all_white_space s.
Proof.
  induction s as [s IH] using white_space_ind.
  rewrite trim_start_step, (all_white_space_step s).
  destruct (white_space_rest s) as [s'|] eqn:E.
  - rewrite (IH s' eq_refl). destruct s; [discriminate | reflexivity].
  - rewrite (all_white_space_step s), E. reflexivity.
Qed.

Lemma trim_start_blank (s : string) :
  all_white_space s = true -> trim_start s = EmptyString.
Proof.
  induction s as [s IH] using white_space_ind.
  rewrite trim_start_step, all_white_space_step.
  destruct s as [|c s0]; [reflexivity|].
  destruct (white_space_rest (String c s0)) as [s'|] eqn:E; [|discriminate].
  apply IH. reflexivity.
Qed.

Lemma trim_start_not_blank (s : string) :
  all_white_space s = false -> trim_start s <> EmptyString.
Proof.
  intros H E. rewrite <- all_white_space_trim_start, E in H. discriminate.
Qed.

Lemma all_white_space_app (s t : string) :
  all_white_space s = true -> all_white_space (s ++ t) = all_white_space t.
Proof.
  induction s as [s IH] using white_space_ind.
  destruct s as [|c s0]; [reflexivity|].
  rewrite all_white_space_step.
  destruct (white_space_rest (String c s0)) as [s'|] eqn:E; [|discriminate].
  intros H. rewrite all_white_space_step.
  rewrite (white_space_rest_app _ _ t E).
  change (String c s0 ++ t) with (String c (s0 ++ t)).
  apply IH; [reflexivity | assumption].
Qed.

Lemma trim_end_blank (s : string) :
  all_white_space s = true -> trim_end s = EmptyString.
Proof. destruct s; [reflexivity|]. intros H. cbn [trim_end]. rewrite H. reflexivity. Qed.

(** What [trim_end] removes is white space. *)
Lemma trim_end_split (s : string) :
  exists t, s = trim_end s ++ t /\ all_white_space t = true.
Proof.
  induction s as [|c s IH].
  - exists EmptyString. split; reflexivity.
  - cbn [trim_end]. destruct (all_white_space (String c s)) eqn:E.
    + exists (String c s). split; [reflexivity | exact E].
    + destruct IH as (t & Es & Ht). exists t. split; [|exact Ht].
      change (String c (trim_end s) ++ t) with (String c (trim_end s ++ t)).
      f_equal. exact Es.
Qed.

Lemma trim_end_not_blank (s : string) :
  all_white_space s = false -> trim_end s <> EmptyString.
Proof.
  destruct s; [discriminate|]. intros H. cbn [trim_end]. rewrite H. discriminate.
Qed.

(** A string that is not blank keeps a character that is not white space
    at its end. *)
Lemma all_white_space_trim_end (s : string) :
  all_white_space (trim_end s) = all_white_space s.
Proof.
  destruct (all_white_space s) eqn:E.
  - rewrite (trim_end_blank s E). reflexivity.
  - destruct (all_white_space (trim_end s)) eqn:E'; [|reflexivity].
    destruct (trim_end_split s) as (t & Es & Ht).
    rewrite Es, (all_white_space_app _ _ E'), Ht in E. discriminate.
Qed.

Lemma all_white_space_trim (s : string) :
  all_white_space (trim s) = all_white_space s.
Proof.
  unfold trim. rewrite all_white_space_trim_end. apply all_white_space_trim_start.
Qed.

Lemma trim_blank (s : string) :
  (0 <? String.length (trim s))%nat = negb (all_white_space s).
Proof.
  destruct (all_white_space s) eqn:E.
  - unfold trim. rewrite (trim_start_blank s E). reflexivity.
  - pose proof (all_white_space_trim s) as T. rewrite E in T.
    destruct (trim s); [discriminate | reflexivity].
Qed.

Lemma trim_not_blank (s : string) :
  trim s <> EmptyString -> all_white_space (trim s) = false.
Proof.
  intros H. rewrite all_white_space_trim.
  pose proof (trim_blank s) as B.
  destruct (trim s); [contradiction|]. cbn in B.
  destruct (all_white_space s); [discriminate | reflexivity].
Qed.

(** The conversions at some values. *)
Example number_to_string_examples :
  map number_to_string
      [0; -7; 9007199254740993; 18446744073709551616;
       1000000000000000000000; 1180591620717411303424; 10 ^ 400]%Z
  = ["0"; "-7"; "9007199254740992"; "18446744073709552000";
     "1e+21"; "1.1805916207174113e+21"; "Infinity"].
Proof. vm_compute. reflexivity. Qed.

Example to_string_examples :
  to_string (JArr [JNum 1; JNull; JArr [JStr "a"; JBool true]; JObj []])
  = Ok "1,,a,true,[object Object]"
  /\ to_string (JObj [("toString", JNum 1)])
     = Throw "Cannot convert object to primitive value"
  /\ to_string (JArr [JStr "a"; JObj [("toString", JNull)]])
     = Throw "Cannot convert object to primitive value".
Proof. vm_compute. repeat split. Qed.

(** U+2003 (em space) is white space; U+200B (zero width space) is
    not. *)
Example trim_examples :
  let em_space :=
    String (ascii_of_N 226) (String (ascii_of_N 128)
                               (String (ascii_of_N 131) EmptyString)) in
  let zero_width :=
    String (ascii_of_N 226) (String (ascii_of_N 128)
                               (String (ascii_of_N 139) EmptyString)) in
  trim (em_space ++ " 801a3f" ++ em_space) = "801a3f"
  /\ trim em_space = EmptyString
  /\ trim zero_width = zero_width.
Proof. vm_compute. repeat split. Qed.

Lemma validShares_spec (items : list Json) :
  Forall string_or_falsy items ->
  validShares items = Ok (non_empty_strings items).
Proof.
  induction 1 as [|j items Hj _ IH]; [reflexivity|].
  cbn [validShares non_empty_strings flat_map].
  destruct j; cbn in Hj; try discriminate;
    try (cbn [truthy]; rewrite ?Hj; exact IH).
  fold (non_empty_strings items).
  destruct (truthy (JStr s)) eqn:T.
  - rewrite IH, trim_blank. destruct (all_white_space s); reflexivity.
  - rewrite IH. cbn in T. destruct s; [reflexivity|discriminate].
Qed.

Lemma length_non_empty_strings (items : list Json) :
  (length (non_empty_strings items) <= length items)%nat.
Proof.
  induction items as [|j items IH]; [reflexivity|].
  cbn [non_empty_strings flat_map]. fold (non_empty_strings items).
  rewrite length_app. cbn [length].
  destruct j; cbn [length]; try lia.
  destruct (all_white_space s); cbn [length]; lia.
Qed.


(** C8: once three valid shares and a content id with a string form
    are there, a failure of [secrets.combine] ends the request with the reconstruction error
    before anything is fetched or decrypted; a failure of the fetch ends
    it with the fetch error before anything is decrypted; a failure of
    the decryption ends it with the decryption error; and the three
    errors differ from one another. *)
Theorem reconstruct_failures
        (w : World) (items : list Json) (cid : Json) (text : string) :
  Forall string_or_falsy items ->
  truthy cid = true ->
  to_string cid = Ok text ->
  (3 <= length (non_empty_strings items))%nat ->
  let req := mkReconstructRequest (Some (JArr items)) (Some cid) in
  let shares := firstn 3 (non_empty_strings items) in
  (forall m,
      secrets_combine w shares = Throw m ->
      snd (reconstruct w req) = Ok (reconstruction_error m)
      /\ get_calls (fst (reconstruct w req)) = []
      /\ ~ In decrypting (fst (reconstruct w req)))
  /\ (forall key m,
         secrets_combine w shares = Ok key ->
         axios_get w (gateway_url cid) = Throw m ->
         snd (reconstruct w req)
         = Ok (fetch_error "Failed to fetch file from IPFS")
         /\ ~ In decrypting (fst (reconstruct w req)))
  /\ (forall key data m,
         secrets_combine w shares = Ok key ->
         axios_get w (gateway_url cid) = Ok data ->
         Cipher.decryptData (aes_decrypt_block w) data key = Throw m ->
         snd (reconstruct w req) = Ok (decryption_error m))
  /\ (forall m1 m2 m3,
         reconstruction_error m1 <> fetch_error m2
         /\ reconstruction_error m1 <> decryption_error m3
         /\ fetch_error m2 <> decryption_error m3).
Proof.
  intros Htyped Htruthy Htext Hv req shares.
  pose proof (length_non_empty_strings items) as Hle.
  assert (Hlen : (length items <? 3)%nat = false) by (apply Nat.ltb_ge; lia).
  assert (Hlen' : (length (non_empty_strings items) <? 3)%nat = false)
    by (apply Nat.ltb_ge; lia).
  assert (Hrun : reconstruct w req
                 = try_catch (reconstruct_try w items cid)
                     (fun message =>
                        log_error [Str "❌ Reconstruction process failed:";
                                   Str message] ;;;
                        ret (json_response 500
                               [("error", JStr "An error occurred during reconstruction");
                                ("details", JStr message)]))).
  { unfold reconstruct, req. cbn [body_shares body_ipfsCid].
    rewrite Hlen, Htruthy. reflexivity. }
  rewrite Hrun. clear Hrun.
  unfold reconstruct_try, fetchFromIPFS, gateway_url. rewrite Htext. run.
  rewrite (validShares_spec _ Htyped). run. rewrite Hlen'. run.
  fold shares.
  split; [|split; [|split]].
  - intros m Hc. rewrite Hc. run. repeat split.
    intros H. cbn in H. unfold decrypting in H.
    repeat (destruct H as [H|H]; [discriminate|]). exact H.
  - intros key m Hc Hg. rewrite Hc. run. rewrite Hg. run. split; [reflexivity|].
    intros H. cbn in H. unfold decrypting in H.
    repeat (destruct H as [H|H]; [discriminate|]). exact H.
  - intros key data m Hc Hg Hd. rewrite Hc. run. rewrite Hg. run.
    rewrite Hd. run. reflexivity.
  - intros m1 m2 m3. repeat split; discriminate.
Qed.

(** *** What the console shows *)











Lemma reconstruct_failures_witness :
  let w := demo_world [] in
  let req := mkReconstructRequest (Some (JArr (demo_items "0a1b")))
                                  (Some (JStr "QmDemoCid")) in
  let shares := firstn 3 (non_empty_strings (demo_items "0a1b")) in
  (forall m,
      secrets_combine w shares = Throw m ->
      snd (reconstruct w req) = Ok (reconstruction_error m)
      /\ get_calls (fst (reconstruct w req)) = []
      /\ ~ In decrypting (fst (reconstruct w req)))
  /\ (forall key m,
         secrets_combine w shares = Ok key ->
         axios_get w (gateway_url (JStr "QmDemoCid")) = Throw m ->
         snd (reconstruct w req)
         = Ok (fetch_error "Failed to fetch file from IPFS")
         /\ ~ In decrypting (fst (reconstruct w req)))
  /\ (forall key data m,
         secrets_combine w shares = Ok key ->
         axios_get w (gateway_url (JStr "QmDemoCid")) = Ok data ->
         Cipher.decryptData (aes_decrypt_block w) data key = Throw m ->
         snd (reconstruct w req) = Ok (decryption_error m))
  /\ (forall m1 m2 m3,
         reconstruction_error m1 <> fetch_error m2
         /\ reconstruction_error m1 <> decryption_error m3
         /\ fetch_error m2 <> decryption_error m3).
Proof.
  apply (reconstruct_failures (demo_world []) (demo_items "0a1b")
                              (JStr "QmDemoCid") "QmDemoCid").
  - unfold demo_items. repeat constructor.
  - reflexivity.
  - reflexivity.
  - vm_compute. lia.
Defined.

(** *** The calls of the upload endpoint *)

Lemma post_calls_app (t1 t2 : list Event) :
  post_calls (t1 ++ t2) = (post_calls t1 ++ post_calls t2)%list.
Proof. apply flat_map_app. Qed.

Lemma distribute_post_calls (w : World) (cid : string) (shares : list string) :
  post_calls (fst (distribute w cid shares))
  = map (delivery cid shares)
        (seq 0 (Nat.min (length shares) (length KEEPER_NODES))).
Proof.
  unfold distribute. cbn [fst]. rewrite post_calls_app.
  generalize (seq 0 (Nat.min (length shares) (length KEEPER_NODES))).
  intros l.
  assert (E2 : post_calls
                 (concat (map fst (map (fun s => settle_one (snd s))
                                      (map (distribute_one w cid shares) l))))
               = []).
  { induction l as [|i l IH]; [reflexivity|].
    cbn [map concat]. rewrite post_calls_app, IH.
    unfold distribute_one. cbn [snd settle_one].
    destruct (axios_post w _ _); reflexivity. }
  rewrite E2, app_nil_r. clear E2.
  induction l as [|i l IH]; [reflexivity|].
  cbn [map concat]. rewrite post_calls_app, IH. reflexivity.
Qed.

Lemma distribute_quiet (w : World) (cid : string) (shares : list string) :
  pin_calls (fst (distribute w cid shares)) = []
  /\ share_calls (fst (distribute w cid shares)) = [].
Proof.
  unfold distribute, pin_calls, share_calls. cbn [fst].
  rewrite !flat_map_app.
  generalize (seq 0 (Nat.min (length shares) (length KEEPER_NODES))).
  intros l. induction l as [|i l (IH1 & IH2)]; [split; reflexivity|].
  cbn [map concat]. rewrite !flat_map_app.
  apply app_eq_nil in IH1 as (A1 & A2). apply app_eq_nil in IH2 as (B1 & B2).
  rewrite A1, A2, B1, B2.
  unfold distribute_one. cbn [fst snd settle_one].
  destruct (axios_post w _ _); split; reflexivity.
Qed.

Lemma upload_calls (w : World) (f : File) (enc : list Z) (cid : string)
      (shares : list string) :
  Cipher.encryptData (aes_encrypt_block w) (buffer f)
    (Cipher.generateEncryptionKey (random32 w)) (random16 w) = Ok enc ->
  pinFileToIPFS w enc (pinataOptions w f) = Ok cid ->
  secrets_share w (Cipher.generateEncryptionKey (random32 w)) 5 3 = Ok shares ->
  post_calls (fst (upload w (mkUploadRequest (Some f))))
  = map (delivery cid shares)
        (seq 0 (Nat.min (length shares) (length KEEPER_NODES)))
  /\ pin_calls (fst (upload w (mkUploadRequest (Some f)))) = [enc]
  /\ share_calls (fst (upload w (mkUploadRequest (Some f))))
     = [Cipher.generateEncryptionKey (random32 w)].
Proof.
  intros encrypted pinned split.
  pose proof (distribute_post_calls w cid shares) as Hd.
  destruct (distribute_quiet w cid shares) as (Hp & Hs).
  unfold upload, upload_try. cbn [file].
  run_fst. rewrite encrypted. run_fst. cbv zeta.
  rewrite pinned. run_fst. rewrite split. run_fst.
  rewrite distribute_results. run_fst.
  unfold post_calls, pin_calls, share_calls in *.
  destruct (_ <? 3)%nat; run_fst;
    rewrite ?flat_map_app, ?Hd, ?Hp, ?Hs; cbn [flat_map app];
    rewrite ?flat_map_app, ?Hd, ?Hp, ?Hs; cbn [flat_map app];
    rewrite ?app_nil_r; repeat split; reflexivity.
Qed.

Lemma filter_sublist {A : Type} (p : A -> bool) (l : list A) :
  sublist (List.filter p l) l.
Proof.
  induction l as [|x l IH]; [constructor|].
  cbn [List.filter]. destruct (p x); constructor; exact IH.
Qed.

Lemma map_sublist {A B : Type} (g : A -> B) (l1 l2 : list A) :
  sublist l1 l2 -> sublist (map g l1) (map g l2).
Proof.
  induction 1; cbn [map]; constructor; assumption.
Qed.

Lemma keepers_prefix (n : nat) :
  (n <= 5)%nat ->
  map (fun j => nth j KEEPER_NODES "undefined") (seq 0 n)
  = firstn n KEEPER_NODES.
Proof.
  intros H. do 6 (destruct n as [|n]; [reflexivity|]). lia.
Qed.

Lemma activeKeeperUrls_sublist (w : World) (cid : string)
      (shares : list string) :
  sublist (activeKeeperUrls_from 0 (results_of w cid shares)) KEEPER_NODES
  /\ length (activeKeeperUrls_from 0 (results_of w cid shares))
     = length (List.filter is_stored (results_of w cid shares)).
Proof.
  unfold results_of. rewrite activeKeeperUrls_spec, stored_count, length_map.
  split; [|reflexivity].
  transitivity (map (fun j => nth j KEEPER_NODES "undefined")
                    (seq 0 (Nat.min (length shares) (length KEEPER_NODES)))).
  - apply map_sublist, filter_sublist.
  - rewrite keepers_prefix by (cbn [length KEEPER_NODES]; lia).
    apply sublist_take.
Qed.

Lemma upload_outcome (w : World) (f : File) :
  (exists m, upload_failed w f m)
  \/ exists enc cid shares,
      Cipher.encryptData (aes_encrypt_block w) (buffer f)
        (Cipher.generateEncryptionKey (random32 w)) (random16 w) = Ok enc
      /\ pinFileToIPFS w enc (pinataOptions w f) = Ok cid
      /\ secrets_share w (Cipher.generateEncryptionKey (random32 w)) 5 3
         = Ok shares.
Proof.
  unfold upload_failed.
  destruct (Cipher.encryptData _ _ _ _) as [enc|m] eqn:E;
    [|left; exists m; left; reflexivity].
  destruct (pinFileToIPFS w enc (pinataOptions w f)) as [cid|m] eqn:P;
    [|left; exists m; right; exists enc; split; [reflexivity|left; exact P]].
  destruct (secrets_share w _ 5 3) as [shares|m] eqn:S.
  - right. exists enc, cid, shares.
    repeat split; first [assumption|reflexivity].
  - left. exists m. right. exists enc. split; [reflexivity|].
    right. exists cid. split; first [assumption|reflexivity].
Qed.

Lemma upload_failure (w : World) (f : File) (m : string) :
  upload_failed w f m ->
  snd (upload w (mkUploadRequest (Some f))) = Ok (upload_error m)
  /\ post_calls (fst (upload w (mkUploadRequest (Some f)))) = [].
Proof.
  unfold upload, upload_try. cbn [file].
  intros [E | (enc & E & [P | (cid & P & S)])].
  - run. rewrite E. run. split; reflexivity.
  - run. rewrite E. run. cbv zeta. rewrite P. run. split; reflexivity.
  - run. rewrite E. run. cbv zeta. rewrite P. run. rewrite S. run.
    split; reflexivity.
Qed.

(** X10: no exception escapes the upload handler. In a run in which
    every request it awaits settles, whatever the file is and whether
    the pin service, the share library and the keepers answer or fail,
    the handler answers; the status is 200, 400 or 500, and it is 400
    exactly when the request carries no file. (A keeper that never
    replies leaves the handler waiting: [World] has no such run.) *)
Theorem upload_answers_when_settled (w : World) (req : UploadRequest) :
  exists response,
    snd (upload w req) = Ok response
    /\ In (status response) [200; 400; 500]%nat
    /\ (status response = 400%nat <-> file req = None).
Proof.
  destruct req as [[f|]].
  2:{ exists missing_file. cbn. split; [reflexivity|]. split; [tauto|].
      split; reflexivity. }
  cbn [file].
  destruct (upload_outcome w f) as [(m & Hf) | (enc & cid & shares & E & P & S)].
  - exists (upload_error m). split; [apply upload_failure, Hf|].
    cbn. split; [tauto|]. split; discriminate.
  - eexists. split; [apply (upload_response w f enc cid shares E P S)|].
    cbv zeta. destruct (_ <? 3)%nat; cbn; (split; [tauto|]);
      split; discriminate.
Qed.

(** X11: the shape of a successful upload. A response with status 200
    carries the content id, the keeper URLs, their number as
    [sharesDistributed], and two backup shares; the keeper URLs are
    between three and five of the configured keepers, each at most once
    and in the configured order. *)
Theorem upload_success_shape
        (w : World) (req : UploadRequest) (response : Response) :
  snd (upload w req) = Ok response ->
  status response = 200%nat ->
  exists cid urls backups,
    body response
    = JsonBody (JObj [("ipfsCid", JStr cid);
                      ("sharesDistributed", JNum (Z.of_nat (length urls)));
                      ("keeperUrls", JArr (map JStr urls));
                      ("manualShares", JArr backups)])
    /\ (3 <= length urls <= 5)%nat
    /\ sublist urls KEEPER_NODES
    /\ length backups = 2%nat.
Proof.
  destruct req as [[f|]]; [|cbn; intros [= <-]; discriminate].
  destruct (upload_outcome w f) as [(m & Hf) | (enc & cid & shares & E & P & S)].
  - destruct (upload_failure w f m Hf) as (Hr & _).
    rewrite Hr. intros [= <-]. discriminate.
  - rewrite (upload_response w f enc cid shares E P S). cbv zeta.
    destruct (activeKeeperUrls_sublist w cid shares) as (Hsub & Hlen).
    destruct (Nat.ltb_spec (length (List.filter is_stored
                                      (results_of w cid shares))) 3)
      as [Hlt|Hge]; intros [= <-]; [discriminate|]. intros _.
    exists cid, (activeKeeperUrls_from 0 (results_of w cid shares)),
      [json_at shares 1; json_at shares 2].
    rewrite Hlen. split; [reflexivity|]. split; [|split; [exact Hsub|reflexivity]].
    split; [exact Hge|]. rewrite <- Hlen.
    apply sublist_length in Hsub. exact Hsub.
Qed.

Lemma upload_success_shape_witness :
  exists cid urls backups,
    body demo_response
    = JsonBody (JObj [("ipfsCid", JStr cid);
                      ("sharesDistributed", JNum (Z.of_nat (length urls)));
                      ("keeperUrls", JArr (map JStr urls));
                      ("manualShares", JArr backups)])
    /\ (3 <= length urls <= 5)%nat
    /\ sublist urls KEEPER_NODES
    /\ length backups = 2%nat.
Proof.
  apply (upload_success_shape (demo_world [3]%nat) demo_upload demo_response).
  - vm_compute. reflexivity.
  - vm_compute. reflexivity.
Defined.

(** X12: a keeper is contacted only once the file is encrypted and
    pinned and the key is split. Then the requests to keepers are, in
    keeper order, one per keeper: keeper [i] is sent share [i] under the
    content id, whatever the other keepers answer; and what was pinned
    is the encrypted buffer. *)
Theorem upload_keeper_requests (w : World) (f : File) :
  post_calls (fst (upload w (mkUploadRequest (Some f)))) <> [] ->
  exists enc cid shares,
    Cipher.encryptData (aes_encrypt_block w) (buffer f)
      (Cipher.generateEncryptionKey (random32 w)) (random16 w) = Ok enc
    /\ pinFileToIPFS w enc (pinataOptions w f) = Ok cid
    /\ secrets_share w (Cipher.generateEncryptionKey (random32 w)) 5 3
       = Ok shares
    /\ pin_calls (fst (upload w (mkUploadRequest (Some f)))) = [enc]
    /\ post_calls (fst (upload w (mkUploadRequest (Some f))))
       = map (delivery cid shares)
             (seq 0 (Nat.min (length shares) (length KEEPER_NODES))).
Proof.
  intros Hposts.
  destruct (upload_outcome w f) as [(m & Hf) | (enc & cid & shares & E & P & S)].
  - destruct (upload_failure w f m Hf) as (_ & Hnone). contradiction.
  - exists enc, cid, shares.
    destruct (upload_calls w f enc cid shares E P S) as (H1 & H2 & _).
    repeat split; assumption.
Qed.

Lemma upload_keeper_requests_witness :
  exists enc cid shares,
    Cipher.encryptData (aes_encrypt_block (demo_world [3]%nat))
      (buffer demo_file)
      (Cipher.generateEncryptionKey (random32 (demo_world [3]%nat)))
      (random16 (demo_world [3]%nat)) = Ok enc
    /\ pinFileToIPFS (demo_world [3]%nat) enc
                     (pinataOptions (demo_world [3]%nat) demo_file) = Ok cid
    /\ secrets_share (demo_world [3]%nat)
         (Cipher.generateEncryptionKey (random32 (demo_world [3]%nat))) 5 3
       = Ok shares
    /\ pin_calls (fst (upload (demo_world [3]%nat)
                              (mkUploadRequest (Some demo_file)))) = [enc]
    /\ post_calls (fst (upload (demo_world [3]%nat)
                               (mkUploadRequest (Some demo_file))))
       = map (delivery cid shares)
             (seq 0 (Nat.min (length shares) (length KEEPER_NODES))).
Proof.
  apply (upload_keeper_requests (demo_world [3]%nat) demo_file).
  vm_compute. discriminate.
Defined.

(** X13: when the encryption, the pin request or the split fails, the
    upload answers with the generic error that carries the message of
    the failure, logs that message, and has sent nothing to any
    keeper. *)
Theorem upload_failure_sends_nothing (w : World) (f : File) (m : string) :
  upload_failed w f m ->
  snd (upload w (mkUploadRequest (Some f))) = Ok (upload_error m)
  /\ post_calls (fst (upload w (mkUploadRequest (Some f)))) = []
  /\ In (ConsoleError [Str "An error occurred:"; Str m])
        (fst (upload w (mkUploadRequest (Some f)))).
Proof.
  unfold upload, upload_try. cbn [file].
  intros [E | (enc & E & [P | (cid & P & S)])].
  - run. rewrite E. run. repeat split. cbn. tauto.
  - run. rewrite E. run. cbv zeta. rewrite P. run. repeat split. cbn. tauto.
  - run. rewrite E. run. cbv zeta. rewrite P. run. rewrite S. run.
    repeat split. cbn. tauto.
Qed.

Lemma upload_failure_sends_nothing_witness :
  snd (upload (with_pin (demo_world []) (Throw "Unauthorized"))
              (mkUploadRequest (Some demo_file)))
  = Ok (upload_error "Unauthorized")
  /\ post_calls (fst (upload (with_pin (demo_world []) (Throw "Unauthorized"))
                             (mkUploadRequest (Some demo_file)))) = []
  /\ In (ConsoleError [Str "An error occurred:"; Str "Unauthorized"])
        (fst (upload (with_pin (demo_world []) (Throw "Unauthorized"))
                     (mkUploadRequest (Some demo_file)))).
Proof.
  apply (upload_failure_sends_nothing
           (with_pin (demo_world []) (Throw "Unauthorized")) demo_file
           "Unauthorized").
  right. exists demo_blob. split.
  - vm_compute. reflexivity.
  - left. reflexivity.
Defined.

(** *** The outcomes of the reconstruction endpoint *)

Lemma length_validShares (items : list Json) :
  forall valid, validShares items = Ok valid ->
                (length valid <= length items)%nat.
Proof.
  induction items as [|j items IH]; intros valid H.
  - injection H as <-. reflexivity.
  - cbn [validShares] in H. destruct (truthy j).
    + destruct j; try discriminate.
      destruct (validShares items) as [kept|]; [|discriminate].
      injection H as <-. specialize (IH kept eq_refl).
      destruct (0 <? _)%nat; cbn [length]; lia.
    + specialize (IH valid H). cbn [length]. lia.
Qed.

(** X14: the reconstruction handler always answers: no exception
    escapes it, whatever the request and whatever the share library and
    the gateway do. The status is 200, 400 or 500; nothing is sent to a
    keeper; [secrets.combine] is called at most once, and the gateway at
    most once and only after it. *)
Theorem reconstruct_always_answers (w : World) (req : ReconstructRequest) :
  exists response,
    snd (reconstruct w req) = Ok response
    /\ In (status response) [200; 400; 500]%nat
    /\ post_calls (fst (reconstruct w req)) = []
    /\ (length (get_calls (fst (reconstruct w req)))
        <= length (combine_calls (fst (reconstruct w req))) <= 1)%nat.
Proof.
  unfold reconstruct.
  destruct (body_shares req) as [[| | | |items|]|];
    try (eexists; split; [reflexivity|]; cbn; split; [tauto|];
         split; [reflexivity|lia]).
  destruct (length items <? 3)%nat;
    [eexists; split; [reflexivity|]; cbn; split; [tauto|];
     split; [reflexivity|lia]|].
  destruct (body_ipfsCid req) as [cid|];
    [|eexists; split; [reflexivity|]; cbn; split; [tauto|];
      split; [reflexivity|lia]].
  destruct (truthy cid);
    [|eexists; split; [reflexivity|]; cbn; split; [tauto|];
      split; [reflexivity|lia]].
  unfold reconstruct_try, fetchFromIPFS.
  destruct (to_string cid) as [text|m]; run;
    [|eexists; split; [reflexivity|]; cbn; split; [tauto|];
      split; [reflexivity|lia]].
  destruct (validShares items) as [valid|m]; run;
    [|eexists; split; [reflexivity|]; cbn; split; [tauto|];
      split; [reflexivity|lia]].
  destruct (length valid <? 3)%nat; run;
    [eexists; split; [reflexivity|]; cbn; split; [tauto|];
     split; [reflexivity|lia]|].
  destruct (secrets_combine w _) as [key|m]; run;
    [|eexists; split; [reflexivity|]; cbn; split; [tauto|];
      split; [reflexivity|lia]].
  destruct (axios_get w _) as [data|m]; run;
    [|eexists; split; [reflexivity|]; cbn; split; [tauto|];
      split; [reflexivity|lia]].
  destruct (Cipher.decryptData _ _ _) as [plain|m]; run;
    eexists; (split; [reflexivity|]); cbn; (split; [tauto|]);
      (split; [reflexivity|lia]).
Qed.

(** X15: what a returned file stands for. A response with status 200 is
    a file; and the response is the file [plain] exactly when the request
    carries an array of shares and a content id that has a string form,
    at least three entries are valid, [secrets.combine] of the first
    three returns a key, the gateway returns the content at the URL made
    of that string form, and decrypting the content with that key gives
    [plain]. *)
Theorem reconstruct_success
        (w : World) (req : ReconstructRequest) (response : Response) :
  snd (reconstruct w req) = Ok response ->
  (status response = 200%nat ->
   exists plain, response = file_response plain)
  /\ forall plain,
       response = file_response plain <-> reconstructs w req plain.
Proof.
  unfold reconstructs, reconstruct.
  destruct (body_shares req) as [[| | | |items|]|];
    try (intros [= <-]; split; [discriminate|];
         intros plain; split; [discriminate|];
         intros (? & ? & ? & ? & ? & ? & ? & _); discriminate).
  destruct (Nat.ltb_spec (length items) 3) as [Hfew|Hmany].
  { intros [= <-]. split; [discriminate|].
    intros plain. split; [discriminate|].
    intros (items' & cid & text & valid & key & data
            & [= <-] & _ & _ & _ & Hv & Hl & _).
    apply length_validShares in Hv. lia. }
  destruct (body_ipfsCid req) as [cid|].
  2:{ intros [= <-]. split; [discriminate|].
      intros plain. split; [discriminate|].
      intros (? & ? & ? & ? & ? & ? & _ & ? & _); discriminate. }
  destruct (truthy cid) eqn:T.
  2:{ intros [= <-]. split; [discriminate|].
      intros plain. split; [discriminate|].
      intros (? & cid' & ? & ? & ? & ? & _ & [= <-] & T' & _). congruence. }
  unfold reconstruct_try, fetchFromIPFS.
  destruct (to_string cid) as [text|m] eqn:S; run.
  2:{ intros [= <-]. split; [discriminate|].
      intros plain. split; [discriminate|].
      intros (? & cid' & ? & ? & ? & ? & _ & [= <-] & _ & S' & _).
      congruence. }
  destruct (validShares items) as [valid|m] eqn:V; run.
  2:{ intros [= <-]. split; [discriminate|].
      intros plain. split; [discriminate|].
      intros (? & ? & ? & ? & ? & ? & [= <-] & _ & _ & _ & V' & _).
      congruence. }
  destruct (Nat.ltb_spec (length valid) 3) as [Hv|Hv]; run.
  { intros [= <-]. split; [discriminate|].
    intros plain. split; [discriminate|].
    intros (? & ? & ? & valid' & ? & ? & [= <-] & _ & _ & _ & V' & Hl & _).
    assert (valid' = valid) by congruence. subst. lia. }
  destruct (secrets_combine w (firstn 3 valid)) as [key|m] eqn:C; run.
  2:{ intros [= <-]. split; [discriminate|].
      intros plain. split; [discriminate|].
      intros (? & ? & ? & valid' & ? & ? & [= <-] & _ & _ & _ & V' & _ & C'
              & _).
      assert (valid' = valid) by congruence. subst. congruence. }
  destruct (axios_get w _) as [data|m] eqn:G; run.
  2:{ intros [= <-]. split; [discriminate|].
      intros plain. split; [discriminate|].
      intros (? & cid' & text' & valid' & ? & ? & [= <-] & [= <-] & _ & S'
              & V' & _ & _ & G' & _).
      assert (text' = text) by congruence. subst. congruence. }
  destruct (Cipher.decryptData (aes_decrypt_block w) data key)
    as [plain|m] eqn:D; run.
  2:{ intros [= <-]. split; [discriminate|].
      intros plain. split; [discriminate|].
      intros (? & cid' & text' & valid' & key' & data' & [= <-] & [= <-] & _
              & S' & V' & _ & C' & G' & D').
      assert (text' = text) by congruence.
      assert (valid' = valid) by congruence. subst.
      assert (key' = key) by congruence. assert (data' = data) by congruence.
      subst. congruence. }
  intros [= <-]. split; [intros _; exists plain; reflexivity|].
  intros plain'. split.
  - intros [= <-]. exists items, cid, text, valid, key, data.
    repeat split; assumption.
  - intros (? & cid' & text' & valid' & key' & data' & [= <-] & [= <-] & _
            & S' & V' & _ & C' & G' & D').
    assert (text' = text) by congruence.
    assert (valid' = valid) by congruence. subst.
    assert (key' = key) by congruence. assert (data' = data) by congruence.
    subst. unfold file_response. congruence.
Qed.

Lemma reconstruct_success_witness :
  (status (file_response [104; 105]%Z) = 200%nat ->
   exists plain, file_response [104; 105]%Z = file_response plain)
  /\ forall plain,
       file_response [104; 105]%Z = file_response plain
       <-> reconstructs demo_gateway_world demo_reconstruct plain.
Proof.
  apply (reconstruct_success demo_gateway_world demo_reconstruct
           (file_response [104; 105]%Z)).
  vm_compute. reflexivity.
Defined.

Lemma validShares_no_trim (items : list Json) (j : Json) :
  In j items -> truthy j = true -> (forall s, j <> JStr s) ->
  validShares items = Throw "s.trim is not a function".
Proof.
  intros Hin Ht Hs. induction items as [|i items IH]; [destruct Hin|].
  cbn [validShares]. destruct Hin as [->|Hin].
  - rewrite Ht. destruct j; try reflexivity. exfalso. apply (Hs s). reflexivity.
  - specialize (IH Hin). rewrite IH.
    destruct (truthy i); [|reflexivity]. destruct i; reflexivity.
Qed.

(** X16: an entry of [shares] that is neither a string nor falsy (a
    number other than zero, [true], an array, an object) has no [trim]:
    with at least three entries and a content id that has a string form,
    the request ends with status 500 and the generic reconstruction
    error, and neither [secrets.combine] nor the gateway is called. *)
Theorem reconstruct_rejects_non_string
        (w : World) (items : list Json) (cid j : Json) (text : string) :
  (3 <= length items)%nat ->
  truthy cid = true ->
  to_string cid = Ok text ->
  In j items -> truthy j = true -> (forall s, j <> JStr s) ->
  snd (reconstruct w (mkReconstructRequest (Some (JArr items)) (Some cid)))
  = Ok (internal_error "s.trim is not a function")
  /\ combine_calls
       (fst (reconstruct w (mkReconstructRequest (Some (JArr items))
                                                 (Some cid)))) = []
  /\ get_calls
       (fst (reconstruct w (mkReconstructRequest (Some (JArr items))
                                                 (Some cid)))) = [].
Proof.
  intros Hlen Hcid Htext Hin Ht Hs.
  unfold reconstruct. cbn [body_shares body_ipfsCid].
  replace (length items <? 3)%nat with false
    by (symmetry; apply Nat.ltb_ge; exact Hlen).
  rewrite Hcid. unfold reconstruct_try. rewrite Htext. run.
  rewrite (validShares_no_trim items j Hin Ht Hs). run.
  repeat split.
Qed.

Lemma reconstruct_rejects_non_string_witness :
  snd (reconstruct (demo_world [])
         (mkReconstructRequest
            (Some (JArr [JStr "801a3f"; JNum 7; JStr "803c51"]))
            (Some (JStr "QmDemoCid"))))
  = Ok (internal_error "s.trim is not a function")
  /\ combine_calls
       (fst (reconstruct (demo_world [])
               (mkReconstructRequest
                  (Some (JArr [JStr "801a3f"; JNum 7; JStr "803c51"]))
                  (Some (JStr "QmDemoCid"))))) = []
  /\ get_calls
       (fst (reconstruct (demo_world [])
               (mkReconstructRequest
                  (Some (JArr [JStr "801a3f"; JNum 7; JStr "803c51"]))
                  (Some (JStr "QmDemoCid"))))) = [].
Proof.
  apply (reconstruct_rejects_non_string (demo_world [])
           [JStr "801a3f"; JNum 7; JStr "803c51"] (JStr "QmDemoCid") (JNum 7)
           "QmDemoCid").
  - simpl. lia.
  - reflexivity.
  - reflexivity.
  - right. left. reflexivity.
  - reflexivity.
  - intros s. discriminate.
Defined.

Lemma reconstruct_response
      (w : World) (items : list Json) (cid : Json) (text : string) :
  Forall string_or_falsy items ->
  truthy cid = true ->
  to_string cid = Ok text ->
  (3 <= length (non_empty_strings items))%nat ->
  snd (reconstruct w (mkReconstructRequest (Some (JArr items)) (Some cid)))
  = match secrets_combine w (firstn 3 (non_empty_strings items)) with
    | Throw m => Ok (reconstruction_error m)
    | Ok key =>
        match axios_get w (gateway_url cid) with
        | Throw m => Ok (fetch_error "Failed to fetch file from IPFS")
        | Ok data =>
            match Cipher.decryptData (aes_decrypt_block w) data key with
            | Throw m => Ok (decryption_error m)
            | Ok plain => Ok (file_response plain)
            end
        end
    end
  /\ combine_calls
       (fst (reconstruct w (mkReconstructRequest (Some (JArr items))
                                                 (Some cid))))
     = [firstn 3 (non_empty_strings items)].
Proof.
  intros Htyped Htruthy Htext Hv.
  pose proof (length_non_empty_strings items) as Hle.
  unfold reconstruct. cbn [body_shares body_ipfsCid].
  replace (length items <? 3)%nat with false
    by (symmetry; apply Nat.ltb_ge; lia).
  rewrite Htruthy.
  unfold reconstruct_try, fetchFromIPFS, gateway_url. rewrite Htext. run.
  rewrite (validShares_spec _ Htyped). run.
  replace (length (non_empty_strings items) <? 3)%nat with false
    by (symmetry; apply Nat.ltb_ge; lia).
  run.
  destruct (secrets_combine w _) as [key|m]; run; [|split; reflexivity].
  destruct (axios_get w _) as [data|m]; run; [|split; reflexivity].
  destruct (Cipher.decryptData _ _ _) as [plain|m]; run; split; reflexivity.
Qed.

(** X17: only the first three valid shares count. Two requests for the
    same content, whose id has a string form, whose entries are strings
    or falsy values, and whose first three non-empty shares are the
    same, get the same response, and [secrets.combine] is called with
    the same three shares: blank entries (empty once the white space of
    [String.prototype.trim] is removed) and anything after the third
    valid share change nothing. *)
Theorem reconstruct_uses_first_three
        (w : World) (items items' : list Json) (cid : Json) (text : string) :
  Forall string_or_falsy items ->
  Forall string_or_falsy items' ->
  truthy cid = true ->
  to_string cid = Ok text ->
  (3 <= length (non_empty_strings items))%nat ->
  firstn 3 (non_empty_strings items) = firstn 3 (non_empty_strings items') ->
  snd (reconstruct w (mkReconstructRequest (Some (JArr items)) (Some cid)))
  = snd (reconstruct w (mkReconstructRequest (Some (JArr items')) (Some cid)))
  /\ combine_calls
       (fst (reconstruct w (mkReconstructRequest (Some (JArr items))
                                                 (Some cid))))
     = combine_calls
         (fst (reconstruct w (mkReconstructRequest (Some (JArr items'))
                                                   (Some cid)))).
Proof.
  intros Ht Ht' Hcid Htext Hv Hsame.
  assert (Hv' : (3 <= length (non_empty_strings items'))%nat).
  { assert (L : length (firstn 3 (non_empty_strings items')) = 3%nat)
      by (rewrite <- Hsame, length_firstn; lia).
    rewrite length_firstn in L. lia. }
  destruct (reconstruct_response w items cid text Ht Hcid Htext Hv)
    as (R1 & C1).
  destruct (reconstruct_response w items' cid text Ht' Hcid Htext Hv')
    as (R2 & C2).
  rewrite R1, R2, C1, C2, Hsame. split; reflexivity.
Qed.

Lemma reconstruct_uses_first_three_witness :
  snd (reconstruct (demo_world [])
         (mkReconstructRequest (Some (JArr (demo_items "")))
                               (Some (JStr "QmDemoCid"))))
  = snd (reconstruct (demo_world [])
           (mkReconstructRequest
              (Some (JArr [JStr "8010123456789abcdef0123456789abc";
                           JStr "8020123456789abcdef0123456789abc";
                           JStr "8030123456789abcdef0123456789abc"]))
              (Some (JStr "QmDemoCid"))))
  /\ combine_calls
       (fst (reconstruct (demo_world [])
               (mkReconstructRequest (Some (JArr (demo_items "")))
                                     (Some (JStr "QmDemoCid")))))
     = combine_calls
         (fst (reconstruct (demo_world [])
                 (mkReconstructRequest
                    (Some (JArr [JStr "8010123456789abcdef0123456789abc";
                                 JStr "8020123456789abcdef0123456789abc";
                                 JStr "8030123456789abcdef0123456789abc"]))
                    (Some (JStr "QmDemoCid"))))).
Proof.
  apply (reconstruct_uses_first_three (demo_world []) (demo_items "")
           [JStr "8010123456789abcdef0123456789abc";
            JStr "8020123456789abcdef0123456789abc";
            JStr "8030123456789abcdef0123456789abc"] (JStr "QmDemoCid")
           "QmDemoCid").
  - repeat constructor.
  - repeat constructor.
  - reflexivity.
  - reflexivity.
  - vm_compute. lia.
  - reflexivity.
Defined.

(** *** Locking, then unlocking *)

(** X18: what was locked comes back. With a block cipher whose
    decryption inverts its encryption, a key of 32 random bytes and an
    initialisation vector of 16, the upload hands an encrypted buffer to
    the pin service; and when the gateway serves that buffer under the
    content id, a reconstruction request whose first three valid shares
    recombine to the generated key is answered with the bytes of the
    uploaded file. *)
Theorem upload_then_reconstruct
        (w : World) (f : File) (items : list Json) :
  (forall key b, length key = 32%nat -> Cipher.is_block b ->
                 Cipher.is_block (aes_encrypt_block w key b)) ->
  (forall key b, length key = 32%nat -> Cipher.is_block b ->
                 aes_decrypt_block w key (aes_encrypt_block w key b) = b) ->
  Forall is_byte (random32 w) ->
  length (random32 w) = 32%nat ->
  length (random16 w) = 16%nat ->
  exists enc,
    In (PinFileToIPFS enc (pinataOptions w f))
       (fst (upload w (mkUploadRequest (Some f))))
    /\ forall cid,
         cid <> EmptyString ->
         axios_get w (gateway_url (JStr cid)) = Ok enc ->
         Forall string_or_falsy items ->
         (3 <= length (non_empty_strings items))%nat ->
         secrets_combine w (firstn 3 (non_empty_strings items))
         = Ok (Cipher.generateEncryptionKey (random32 w)) ->
         snd (reconstruct w (mkReconstructRequest (Some (JArr items))
                                                  (Some (JStr cid))))
         = Ok (file_response (buffer f)).
Proof.
  intros Hblock Hinv Hbytes H32 H16.
  destruct (Cipher.decipher_cipher (aes_encrypt_block w) (aes_decrypt_block w)
              Hblock Hinv (random32 w) (random16 w) (buffer f) H32 H16)
    as (encrypted & Henc & Hdec).
  assert (E : Cipher.encryptData (aes_encrypt_block w) (buffer f)
                (Cipher.generateEncryptionKey (random32 w)) (random16 w)
              = Ok (random16 w ++ encrypted)%list).
  { unfold Cipher.encryptData, Cipher.generateEncryptionKey.
    rewrite Hex.from_hex_to_hex by exact Hbytes. rewrite Henc. reflexivity. }
  assert (D : Cipher.decryptData (aes_decrypt_block w)
                (random16 w ++ encrypted)%list
                (Cipher.generateEncryptionKey (random32 w))
              = Ok (buffer f)).
  { unfold Cipher.decryptData, Cipher.generateEncryptionKey.
    rewrite Hex.from_hex_to_hex by exact Hbytes.
    rewrite <- H16 at 1. rewrite take_app_length.
    rewrite <- H16 at 1. rewrite drop_app_length. exact Hdec. }
  exists (random16 w ++ encrypted)%list. split.
  - unfold upload, upload_try. cbn [file]. run. rewrite E. run. cbv zeta.
    destruct (pinFileToIPFS w _ _) as [cid|m]; run.
    + destruct (secrets_share w _ 5 3) as [shares|m]; run.
      * destruct (distribute w cid shares) as [t [results|m]]; run;
          [destruct (_ <? 3)%nat; run|]; cbn; tauto.
      * cbn; tauto.
    + cbn; tauto.
  - intros cid Hcid Hget Htyped Hv Hcombine.
    assert (T : truthy (JStr cid) = true).
    { cbn [truthy]. destruct cid; [contradiction|reflexivity]. }
    destruct (reconstruct_response w items (JStr cid) cid Htyped T eq_refl Hv)
      as (R & _).
    rewrite R, Hcombine, Hget, D. reflexivity.
Qed.

Lemma upload_then_reconstruct_witness :
  exists enc,
    In (PinFileToIPFS enc (pinataOptions demo_gateway_world demo_file))
       (fst (upload demo_gateway_world (mkUploadRequest (Some demo_file))))
    /\ forall cid,
         cid <> EmptyString ->
         axios_get demo_gateway_world (gateway_url (JStr cid)) = Ok enc ->
         Forall string_or_falsy (map JStr demo_shares) ->
         (3 <= length (non_empty_strings (map JStr demo_shares)))%nat ->
         secrets_combine demo_gateway_world
           (firstn 3 (non_empty_strings (map JStr demo_shares)))
         = Ok (Cipher.generateEncryptionKey (random32 demo_gateway_world)) ->
         snd (reconstruct demo_gateway_world
                (mkReconstructRequest (Some (JArr (map JStr demo_shares)))
                                      (Some (JStr cid))))
         = Ok (file_response (buffer demo_file)).
Proof.
  apply (upload_then_reconstruct demo_gateway_world demo_file
           (map JStr demo_shares)).
  - intros key b Hk Hb.
    unfold Cipher.is_block, Cipher.block_size in *. cbn.
    unfold Cipher.toy_block, Cipher.xor_block.
    rewrite length_zip_with. lia.
  - intros key b Hk Hb. cbn. unfold Cipher.toy_block.
    apply Cipher.xor_block_cancel.
    unfold Cipher.is_block, Cipher.block_size in Hb. lia.
  - change (Forall is_byte (seq_bytes 32)).
    unfold seq_bytes, is_byte. apply Forall_forall. intros x Hx.
    apply list_elem_of_In, in_map_iff in Hx as (n & <- & Hn).
    apply in_seq in Hn. lia.
  - reflexivity.
  - reflexivity.
Defined.

End Orchestrator.

(** ** The contract: [contracts/TimeCrate.sol] *)

Module TimeCrate.

Local Open Scope Z_scope.

Definition address : Type := Z.

(** Arithmetic on [uint256] wraps around. *)
Definition uint256_modulus : Z := 2 ^ 256.

Record Crate : Type := mkCrate {
  ipfsCid : string;
  releaseTime : Z;
  keeperUrls : list string;
  released : bool;
  createdAt : Z
}.

(** The value of a mapping entry that was never written. *)
Definition no_crate : Crate := mkCrate EmptyString 0 [] false 0.

Inductive Event : Type :=
| Transfer (from to : address) (tokenId : Z)
| Approval (owner approved : address) (tokenId : Z)
| ApprovalForAll (owner operator : address) (approved : bool)
| OwnershipTransferred (previousOwner newOwner : address)
| CrateCreated (tokenId : Z) (owner : address) (cid : string)
               (release : Z) (urls : list string)
| CrateReleased (tokenId : Z) (owner : address) (releasedAt : Z).

(** The storage of the contract, with the state variables of ERC721,
    ERC721URIStorage and Ownable that it inherits, and the events emitted
    so far (latest last). *)
Record State : Type := mkState {
  _owners : gmap Z address;
  _balances : gmap address Z;
  _tokenApprovals : gmap Z address;
  _operatorApprovals : gmap (address * address) bool;
  _tokenURIs : gmap Z string;
  crateInfo : gmap Z Crate;
  _tokenIdCounter : Z;
  _owner : address;
  events : list Event
}.

(** The state after the constructor, run by [deployer]. *)
Definition deployed (deployer : address) : State :=
  mkState ∅ ∅ ∅ ∅ ∅ ∅ 0 deployer [OwnershipTransferred 0 deployer].

Definition with_owners (s : State) (v : gmap Z address) : State :=
  mkState v (_balances s) (_tokenApprovals s) (_operatorApprovals s)
          (_tokenURIs s) (crateInfo s) (_tokenIdCounter s) (_owner s)
          (events s).

Definition with_balances (s : State) (v : gmap address Z) : State :=
  mkState (_owners s) v (_tokenApprovals s) (_operatorApprovals s)
          (_tokenURIs s) (crateInfo s) (_tokenIdCounter s) (_owner s)
          (events s).

Definition with_tokenApprovals (s : State) (v : gmap Z address) : State :=
  mkState (_owners s) (_balances s) v (_operatorApprovals s)
          (_tokenURIs s) (crateInfo s) (_tokenIdCounter s) (_owner s)
          (events s).

Definition with_operatorApprovals (s : State)
           (v : gmap (address * address) bool) : State :=
  mkState (_owners s) (_balances s) (_tokenApprovals s) v
          (_tokenURIs s) (crateInfo s) (_tokenIdCounter s) (_owner s)
          (events s).

Definition with_tokenURIs (s : State) (v : gmap Z string) : State :=
  mkState (_owners s) (_balances s) (_tokenApprovals s) (_operatorApprovals s)
          v (crateInfo s) (_tokenIdCounter s) (_owner s) (events s).

Definition with_crateInfo (s : State) (v : gmap Z Crate) : State :=
  mkState (_owners s) (_balances s) (_tokenApprovals s) (_operatorApprovals s)
          (_tokenURIs s) v (_tokenIdCounter s) (_owner s) (events s).

Definition with_tokenIdCounter (s : State) (v : Z) : State :=
  mkState (_owners s) (_balances s) (_tokenApprovals s) (_operatorApprovals s)
          (_tokenURIs s) (crateInfo s) v (_owner s) (events s).

Definition with_owner (s : State) (v : address) : State :=
  mkState (_owners s) (_balances s) (_tokenApprovals s) (_operatorApprovals s)
          (_tokenURIs s) (crateInfo s) (_tokenIdCounter s) v (events s).

Definition emit (s : State) (e : Event) : State :=
  mkState (_owners s) (_balances s) (_tokenApprovals s) (_operatorApprovals s)
          (_tokenURIs s) (crateInfo s) (_tokenIdCounter s) (_owner s)
          (events s ++ [e]).

(** A call returns a value or reverts with a reason. *)
Definition bind {A B : Type} (m : Result A) (k : A -> Result B) : Result B :=
  match m with
  | Ok a => k a
  | Throw reason => Throw reason
  end.

Notation "x <- m ;; k" := (bind m (fun x => k))
  (at level 100, m at next level, right associativity).

Definition require (condition : bool) (reason : string) : Result unit :=
  if condition then Ok tt else Throw reason.

(** *** ERC721, ERC721URIStorage and Ownable (OpenZeppelin 4.x) *)

Definition _ownerOf (s : State) (tokenId : Z) : address :=
  default 0 (_owners s !! tokenId).

Definition _exists (s : State) (tokenId : Z) : bool :=
  negb (_ownerOf s tokenId =? 0).

Definition ownerOf (s : State) (tokenId : Z) : Result address :=
  _ <- require (_exists s tokenId) "ERC721: invalid token ID" ;;
  Ok (_ownerOf s tokenId).

Definition balanceOf (s : State) (owner : address) : Result Z :=
  _ <- require (negb (owner =? 0)) "ERC721: address zero is not a valid owner" ;;
  Ok (default 0 (_balances s !! owner)).

Definition isApprovedForAll (s : State) (owner operator : address) : bool :=
  default false (_operatorApprovals s !! (owner, operator)).

Definition getApproved (s : State) (tokenId : Z) : Result address :=
  _ <- require (_exists s tokenId) "ERC721: invalid token ID" ;;
  Ok (default 0 (_tokenApprovals s !! tokenId)).

Definition _isApprovedOrOwner (s : State) (spender : address) (tokenId : Z)
  : Result bool :=
  owner <- ownerOf s tokenId ;;
  approved <- getApproved s tokenId ;;
  Ok ((spender =? owner) || isApprovedForAll s owner spender
      || (approved =? spender)).

Definition _mint (to : address) (tokenId : Z) (s : State) : Result State :=
  _ <- require (negb (to =? 0)) "ERC721: mint to the zero address" ;;
  _ <- require (negb (_exists s tokenId)) "ERC721: token already minted" ;;
  let s := with_balances s
             (<[to := (default 0 (_balances s !! to) + 1) mod uint256_modulus]>
                (_balances s)) in
  let s := with_owners s (<[tokenId := to]> (_owners s)) in
  Ok (emit s (Transfer 0 to tokenId)).

(** [_safeMint]: mint, then let the recipient accept the token;
    [onReceived] is the effect of the call to the recipient's
    [onERC721Received], which runs before [_safeMint] returns. *)
Definition _safeMint (onReceived : State -> Result State)
           (to : address) (tokenId : Z) (s : State) : Result State :=
  s <- _mint to tokenId s ;;
  onReceived s.

Definition _setTokenURI (tokenId : Z) (uri : string) (s : State)
  : Result State :=
  _ <- require (_exists s tokenId) "ERC721URIStorage: URI set of nonexistent token" ;;
  Ok (with_tokenURIs s (<[tokenId := uri]> (_tokenURIs s))).

Definition _transfer (from to : address) (tokenId : Z) (s : State)
  : Result State :=
  owner <- ownerOf s tokenId ;;
  _ <- require (owner =? from) "ERC721: transfer from incorrect owner" ;;
  _ <- require (negb (to =? 0)) "ERC721: transfer to the zero address" ;;
  let s := with_tokenApprovals s (delete tokenId (_tokenApprovals s)) in
  let s := with_balances s
             (<[from := (default 0 (_balances s !! from) - 1) mod uint256_modulus]>
                (_balances s)) in
  let s := with_balances s
             (<[to := (default 0 (_balances s !! to) + 1) mod uint256_modulus]>
                (_balances s)) in
  let s := with_owners s (<[tokenId := to]> (_owners s)) in
  Ok (emit s (Transfer from to tokenId)).

Definition transferFrom (sender : address) (from to : address) (tokenId : Z)
           (s : State) : Result State :=
  allowed <- _isApprovedOrOwner s sender tokenId ;;
  _ <- require allowed "ERC721: caller is not token owner or approved" ;;
  _transfer from to tokenId s.

Definition safeTransferFrom (onReceived : State -> Result State)
           (sender : address) (from to : address) (tokenId : Z) (s : State)
  : Result State :=
  s <- transferFrom sender from to tokenId s ;;
  onReceived s.

Definition approve (sender : address) (to : address) (tokenId : Z) (s : State)
  : Result State :=
  owner <- ownerOf s tokenId ;;
  _ <- require (negb (to =? owner)) "ERC721: approval to current owner" ;;
  _ <- require ((sender =? owner) || isApprovedForAll s owner sender)
               "ERC721: approve caller is not token owner or approved for all" ;;
  let s := with_tokenApprovals s (<[tokenId := to]> (_tokenApprovals s)) in
  Ok (emit s (Approval owner to tokenId)).

Definition setApprovalForAll (sender : address) (operator : address)
           (approved : bool) (s : State) : Result State :=
  _ <- require (negb (sender =? operator)) "ERC721: approve to caller" ;;
  let s := with_operatorApprovals s
             (<[(sender, operator) := approved]> (_operatorApprovals s)) in
  Ok (emit s (ApprovalForAll sender operator approved)).

Definition transferOwnership (sender : address) (newOwner : address)
           (s : State) : Result State :=
  _ <- require (_owner s =? sender) "Ownable: caller is not the owner" ;;
  _ <- require (negb (newOwner =? 0)) "Ownable: new owner is the zero address" ;;
  Ok (emit (with_owner s newOwner) (OwnershipTransferred (_owner s) newOwner)).

Definition renounceOwnership (sender : address) (s : State) : Result State :=
  _ <- require (_owner s =? sender) "Ownable: caller is not the owner" ;;
  Ok (emit (with_owner s 0) (OwnershipTransferred (_owner s) 0)).

(** *** TimeCrate *)

(** [crateInfo[tokenId]] *)
Definition crate (s : State) (tokenId : Z) : Crate :=
  default no_crate (crateInfo s !! tokenId).

(** [createCrate]; [now] is [block.timestamp] and the result carries the
    returned token id. *)
Definition createCrate (onReceived : State -> Result State) (now : Z)
           (_recipient : address) (_ipfsCid : string) (_releaseTime : Z)
           (_tokenURI : string) (_keeperUrls : list string) (s : State)
  : Result (State * Z) :=
  _ <- require (negb (_recipient =? 0)) "Invalid recipient address" ;;
  _ <- require (now <? _releaseTime) "Release time must be in the future" ;;
  _ <- require (0 <? String.length _ipfsCid)%nat "IPFS CID cannot be empty" ;;
  _ <- require (0 <? length _keeperUrls)%nat
               "Must provide at least one keeper URL" ;;
  let tokenId := _tokenIdCounter s in
  s <- _safeMint onReceived _recipient tokenId s ;;
  s <- _setTokenURI tokenId _tokenURI s ;;
  let s := with_crateInfo s
             (<[tokenId := mkCrate _ipfsCid _releaseTime _keeperUrls false now]>
                (crateInfo s)) in
  let s := emit s (CrateCreated tokenId _recipient _ipfsCid _releaseTime
                                _keeperUrls) in
  let s := with_tokenIdCounter s
             ((_tokenIdCounter s + 1) mod uint256_modulus) in
  Ok (s, tokenId).

(** [isReleaseReady], a view: it reads the state and the block time. *)
Definition isReleaseReady (now : Z) (_tokenId : Z) (s : State) : Result bool :=
  _ <- require (negb (_ownerOf s _tokenId =? 0)) "Token does not exist" ;;
  Ok (releaseTime (crate s _tokenId) <=? now).

Definition markAsReleased (now : Z) (sender : address) (_tokenId : Z)
           (s : State) : Result State :=
  _ <- require (negb (_ownerOf s _tokenId =? 0)) "Token does not exist" ;;
  owner <- ownerOf s _tokenId ;;
  _ <- require (owner =? sender) "Only token owner can mark as released" ;;
  ready <- isReleaseReady now _tokenId s ;;
  _ <- require ready "Release time has not passed" ;;
  _ <- require (negb (released (crate s _tokenId))) "Already marked as released" ;;
  let c := crate s _tokenId in
  let s := with_crateInfo s
             (<[_tokenId := mkCrate (ipfsCid c) (releaseTime c) (keeperUrls c)
                                    true (createdAt c)]>
                (crateInfo s)) in
  Ok (emit s (CrateReleased _tokenId sender now)).

Definition getTimeUntilRelease (now : Z) (_tokenId : Z) (s : State)
  : Result Z :=
  _ <- require (negb (_ownerOf s _tokenId =? 0)) "Token does not exist" ;;
  let releaseTime := releaseTime (crate s _tokenId) in
  if releaseTime <=? now then Ok 0 else Ok (releaseTime - now).

(** [getCrateInfo], a view: the five fields of the crate. *)
Definition getCrateInfo (_tokenId : Z) (s : State)
  : Result (string * Z * list string * bool * Z) :=
  _ <- require (negb (_ownerOf s _tokenId =? 0)) "Token does not exist" ;;
  let crate := crate s _tokenId in
  Ok (ipfsCid crate, releaseTime crate, keeperUrls crate, released crate,
      createdAt crate).

(** [getKeeperUrls], a view. *)
Definition getKeeperUrls (_tokenId : Z) (s : State) : Result (list string) :=
  _ <- require (negb (_ownerOf s _tokenId =? 0)) "Token does not exist" ;;
  Ok (keeperUrls (crate s _tokenId)).

(** [totalSupply], a view: the counter. *)
Definition totalSupply (s : State) : Z := _tokenIdCounter s.

(** [tokenURI] of ERC721URIStorage, with the empty base URI of ERC721. *)
Definition tokenURI (tokenId : Z) (s : State) : Result string :=
  _ <- require (_exists s tokenId) "ERC721: invalid token ID" ;;
  Ok (default EmptyString (_tokenURIs s !! tokenId)).

(** The loop of [tokensOfOwner], from token [i] on with [fuel] tokens
    left to look at; a write past the end of the array panics. *)
Fixpoint tokensOfOwner_loop (fuel : nat) (i : Z) (_owner : address)
         (s : State) (tokenIds : list Z) (currentIndex : nat)
  : Result (list Z) :=
  match fuel with
  | O => Ok tokenIds
  | S fuel' =>
      if negb (_ownerOf s i =? 0) then
        owner <- ownerOf s i ;;
        if owner =? _owner then
          _ <- require (currentIndex <? length tokenIds)%nat
                       "panic: array out-of-bounds access (0x32)" ;;
          tokensOfOwner_loop fuel' (i + 1) _owner s
                             (<[currentIndex := i]> tokenIds)
                             (S currentIndex)
        else tokensOfOwner_loop fuel' (i + 1) _owner s tokenIds currentIndex
      else tokensOfOwner_loop fuel' (i + 1) _owner s tokenIds currentIndex
  end.

(** [tokensOfOwner], a view: an array of [balanceOf(_owner)] zeros, filled
    from the front with the tokens of [_owner] below the counter. *)
Definition tokensOfOwner (_owner : address) (s : State) : Result (list Z) :=
  tokenCount <- balanceOf s _owner ;;
  tokensOfOwner_loop (Z.to_nat (_tokenIdCounter s)) 0 _owner s
                     (repeat 0 (Z.to_nat tokenCount)) 0.

(** *** Transactions *)

(** The calls that change the state. A call that hands a token to a
    contract runs that contract's [onERC721Received] before it returns;
    the hook lists the calls the recipient makes into this contract
    meanwhile (a call of the list that reverts is caught by the
    recipient) and whether the recipient accepts the token. *)
Inductive Call : Type :=
| CreateCrate (recipient : address) (cid : string) (release : Z)
              (tokenURI : string) (urls : list string) (hook : Hook)
| MarkAsReleased (tokenId : Z)
| TransferFrom (from to : address) (tokenId : Z)
| SafeTransferFrom (from to : address) (tokenId : Z) (hook : Hook)
| Approve (to : address) (tokenId : Z)
| SetApprovalForAll (operator : address) (approved : bool)
| TransferOwnership (newOwner : address)
| RenounceOwnership
with Hook : Type :=
| NoCode
| OnReceived (calls : Calls) (accepts : bool)
with Calls : Type :=
| Done
| Then (sender : address) (c : Call) (rest : Calls).

Fixpoint exec (now : Z) (sender : address) (c : Call) (s : State) {struct c}
  : Result State :=
  match c with
  | CreateCrate recipient cid release tokenURI urls hook =>
      r <- createCrate (run_hook now hook) now recipient cid release
                       tokenURI urls s ;;
      Ok (fst r)
  | MarkAsReleased tokenId => markAsReleased now sender tokenId s
  | TransferFrom from to tokenId => transferFrom sender from to tokenId s
  | SafeTransferFrom from to tokenId hook =>
      safeTransferFrom (run_hook now hook) sender from to tokenId s
  | Approve to tokenId => approve sender to tokenId s
  | SetApprovalForAll operator approved =>
      setApprovalForAll sender operator approved s
  | TransferOwnership newOwner => transferOwnership sender newOwner s
  | RenounceOwnership => renounceOwnership sender s
  end
with run_hook (now : Z) (h : Hook) (s : State) {struct h} : Result State :=
  match h with
  | NoCode => Ok s
  | OnReceived calls accepts =>
      if accepts then Ok (exec_calls now calls s)
      else Throw "ERC721: transfer to non ERC721Receiver implementer"
  end
with exec_calls (now : Z) (cs : Calls) (s : State) {struct cs} : State :=
  match cs with
  | Done => s
  | Then sender c rest =>
      match exec now sender c s with
      | Ok s' => exec_calls now rest s'
      | Throw _ => exec_calls now rest s
      end
  end.

(** A transaction: the block time, the sender and the call. A
    transaction that reverts leaves the state as it was. *)
Record Transaction : Type := mkTransaction {
  tx_time : Z;
  tx_sender : address;
  tx_call : Call
}.

Definition step (s : State) (tx : Transaction) : State :=
  match exec (tx_time tx) (tx_sender tx) (tx_call tx) s with
  | Ok s' => s'
  | Throw _ => s
  end.

Definition run (txs : list Transaction) (s : State) : State :=
  fold_left step txs s.


(** *** Examples *)

(** A crate for address 5, created at time 100 by a plain account on a
    freshly deployed contract, to be released at time 200. *)
Definition demo_creation : Result (State * Z) :=
  createCrate (run_hook 100 NoCode) 100 5 "QmCid" 200 "ipfs://meta"
              ["http://localhost:4001"] (deployed 1).

Definition demo_created : State :=
  match demo_creation with
  | Ok r => fst r
  | Throw _ => deployed 1
  end.

(** Later transactions: the owner tries to release too early, hands the
    token to address 6, who releases it at time 250. *)
Definition demo_transactions : list Transaction :=
  [ mkTransaction 150 5 (MarkAsReleased 0);
    mkTransaction 160 5 (TransferFrom 5 6 0);
    mkTransaction 250 6 (MarkAsReleased 0) ].

(** A recipient contract whose [onERC721Received] asks
    [isReleaseReady(tokenId)] and reverts unless the answer is true. *)
Definition ready_probe (now tokenId : Z) (s : State) : Result State :=
  ready <- isReleaseReady now tokenId s ;;
  _ <- require ready "The crate is not ready" ;;
  Ok s.

(** A recipient contract, at address 7, whose [onERC721Received] calls
    [markAsReleased] on the token it is being given, and accepts it. *)
Definition reentrant_hook : Hook :=
  OnReceived (Then 7 (MarkAsReleased 0) Done) true.

Scheme call_mut := Induction for Call Sort Prop
  with hook_mut := Induction for Hook Sort Prop
  with calls_mut := Induction for Calls Sort Prop.

Combined Scheme call_hook_calls_ind from call_mut, hook_mut, calls_mut.

(** The token exists, in the contract's own sense. *)
Definition minted (s : State) (tokenId : Z) : Prop := _ownerOf s tokenId <> 0.

(** From [s] to [s'] every token that exists keeps existing, keeps its
    release time, and stays released if it was. *)
Definition keeps (s s' : State) : Prop :=
  forall tokenId,
    minted s tokenId ->
    minted s' tokenId
    /\ releaseTime (crate s' tokenId) = releaseTime (crate s tokenId)
    /\ (released (crate s tokenId) = true ->
        released (crate s' tokenId) = true).

(** From [c] to [c'] nothing changed but, possibly, the released flag,
    from false to true. *)
Definition unchanged_but_released (c c' : Crate) : Prop :=
  ipfsCid c' = ipfsCid c
  /\ releaseTime c' = releaseTime c
  /\ keeperUrls c' = keeperUrls c
  /\ createdAt c' = createdAt c
  /\ (released c = true -> released c' = true).

(** From [s] to [s'] every token that exists keeps existing, with its
    crate and its token URI. *)
Definition stable (s s' : State) : Prop :=
  forall tokenId,
    minted s tokenId ->
    minted s' tokenId
    /\ unchanged_but_released (crate s tokenId) (crate s' tokenId)
    /\ _tokenURIs s' !! tokenId = _tokenURIs s !! tokenId.

(** The tokens of [a] among the ids below [n], in increasing order. *)
Definition owned_by (s : State) (a : address) (tokenId : Z) : bool :=
  _ownerOf s tokenId =? a.

Definition tokens_of (s : State) (a : address) (n : Z) : list Z :=
  List.filter (owned_by s a) (seqZ 0 n).

(** The tokens are numbered from 0: [n] crates were created, [pending]
    (0 or 1) more token is minted and waits for the counter to advance,
    and every balance counts the tokens of its owner. *)
Definition numbered (s : State) (pending : Z) : Prop :=
  exists n,
    0 <= n /\ n + pending <= uint256_modulus
    /\ _tokenIdCounter s = n mod uint256_modulus
    /\ (forall tokenId, minted s tokenId <-> 0 <= tokenId < n + pending)
    /\ (forall a : address, a <> 0 ->
          default 0 (_balances s !! a)
          = Z.of_nat (length (tokens_of s a (n + pending)))
            mod uint256_modulus).

(** The creation of [demo_created] as a transaction, followed by
    [demo_transactions]. *)
Definition demo_history : list Transaction :=
  mkTransaction 100 1
    (CreateCrate 5 "QmCid" 200 "ipfs://meta" ["http://localhost:4001"] NoCode)
  :: demo_transactions.

(** [demo_created] once its owner has handed the token to address 6. *)
Definition demo_transferred : State :=
  step demo_created (mkTransaction 160 5 (TransferFrom 5 6 0)).

Lemma bind_Ok {A B : Type} (m : Result A) (k : A -> Result B) (b : B) :
  bind m k = Ok b -> exists a, m = Ok a /\ k a = Ok b.
Proof.
  destruct m as [a|reason]; cbn [bind]; [|discriminate].
  intros H. exists a. split; [reflexivity | exact H].
Qed.

Lemma require_Ok (condition : bool) (reason : string) (u : unit) :
  require condition reason = Ok u -> condition = true.
Proof. destruct condition; [reflexivity | discriminate]. Qed.

Ltac unpack H :=
  repeat match type of H with
         | bind (require _ _) _ = Ok _ =>
             let u := fresh "u" in
             let R := fresh "R" in
             apply bind_Ok in H as (u & R & H); apply require_Ok in R
         | bind _ _ = Ok _ =>
             let a := fresh "a" in
             let E := fresh "E" in
             apply bind_Ok in H as (a & E & H)
         | Ok _ = Ok _ => injection H as H
         end.

Lemma keeps_refl (s : State) : keeps s s.
Proof. intros id H. auto. Qed.

Lemma keeps_trans (s1 s2 s3 : State) :
  keeps s1 s2 -> keeps s2 s3 -> keeps s1 s3.
Proof.
  intros H12 H23 id H1.
  destruct (H12 id H1) as (H2 & T12 & R12).
  destruct (H23 id H2) as (H3 & T23 & R23).
  split; [exact H3|]. split; [congruence | auto].
Qed.

Lemma keeps_same (s s' : State) :
  _owners s' = _owners s -> crateInfo s' = crateInfo s -> keeps s s'.
Proof.
  intros Ho Hc id H. unfold minted, _ownerOf, crate in *.
  rewrite Ho, Hc. auto.
Qed.

Lemma mint_keeps (to tokenId : Z) (s s' : State) :
  _mint to tokenId s = Ok s' ->
  keeps s s' /\ _ownerOf s tokenId = 0 /\ minted s' tokenId
  /\ _tokenIdCounter s' = _tokenIdCounter s.
Proof.
  intros H. unfold _mint in H. unpack H. subst s'.
  apply negb_true_iff in R, R0. unfold _exists in R0.
  apply negb_false_iff, Z.eqb_eq in R0. apply Z.eqb_neq in R.
  split; [|split; [exact R0|split; [|reflexivity]]].
  - intros id Hid. unfold minted, _ownerOf, crate in *. cbn.
    destruct (decide (id = tokenId)) as [->|Hne]; [contradiction|].
    rewrite lookup_insert_ne by congruence. auto.
  - unfold minted, _ownerOf. cbn. rewrite lookup_insert_eq. exact R.
Qed.

Lemma setTokenURI_keeps (tokenId : Z) (uri : string) (s s' : State) :
  _setTokenURI tokenId uri s = Ok s' ->
  keeps s s' /\ minted s' tokenId /\ _owners s' = _owners s
  /\ crateInfo s' = crateInfo s /\ _tokenIdCounter s' = _tokenIdCounter s.
Proof.
  intros H. unfold _setTokenURI in H. unpack H. subst s'.
  split; [apply keeps_same; reflexivity|].
  split; [|repeat split].
  unfold _exists in R. apply negb_true_iff, Z.eqb_neq in R. exact R.
Qed.

Lemma transfer_keeps (from to tokenId : Z) (s s' : State) :
  _transfer from to tokenId s = Ok s' -> keeps s s'.
Proof.
  intros H. unfold _transfer in H. unpack H. subst s'.
  apply negb_true_iff, Z.eqb_neq in R0.
  intros id Hid. unfold minted, _ownerOf, crate in *. cbn.
  destruct (decide (id = tokenId)) as [->|Hne].
  - rewrite lookup_insert_eq. auto.
  - rewrite lookup_insert_ne by congruence. auto.
Qed.

Lemma transferFrom_keeps (sender from to tokenId : Z) (s s' : State) :
  transferFrom sender from to tokenId s = Ok s' -> keeps s s'.
Proof.
  intros H. unfold transferFrom in H. unpack H.
  eapply transfer_keeps, H.
Qed.

Lemma markAsReleased_keeps (now sender tokenId : Z) (s s' : State) :
  markAsReleased now sender tokenId s = Ok s' -> keeps s s'.
Proof.
  intros H. unfold markAsReleased in H. unpack H. subst s'.
  intros id Hid. unfold minted, _ownerOf, crate in *. cbn.
  split; [exact Hid|].
  destruct (decide (id = tokenId)) as [->|Hne].
  - rewrite lookup_insert_eq. cbn. auto.
  - rewrite lookup_insert_ne by congruence. auto.
Qed.

Lemma createCrate_keeps (onReceived : State -> Result State)
      (now recipient : Z) (cid : string) (release : Z) (uri : string)
      (urls : list string) (s s' : State) (tokenId : Z) :
  (forall s1 s2, onReceived s1 = Ok s2 -> keeps s1 s2) ->
  createCrate onReceived now recipient cid release uri urls s
  = Ok (s', tokenId) ->
  keeps s s'
  /\ minted s' tokenId
  /\ crate s' tokenId = mkCrate cid release urls false now.
Proof.
  intros Hhook H. unfold createCrate, _safeMint in H. unpack H.
  subst s' tokenId. rename a into s2, a0 into s3.
  unpack E. rename a into s1.
  destruct (mint_keeps _ _ _ _ E1) as (K1 & Hfresh & _ & _).
  pose proof (Hhook _ _ E) as K2.
  destruct (setTokenURI_keeps _ _ _ _ E0) as (K3 & Hminted & Ho & Hc & _).
  split; [|split].
  - intros id Hid.
    destruct (keeps_trans _ _ _ (keeps_trans _ _ _ K1 K2) K3 id Hid)
      as (M & T & R').
    unfold minted, _ownerOf, crate in *. cbn.
    assert (Hne : id <> _tokenIdCounter s) by congruence.
    rewrite lookup_insert_ne by congruence. auto.
  - unfold minted, _ownerOf in *. cbn. exact Hminted.
  - unfold crate. cbn. rewrite lookup_insert_eq. reflexivity.
Qed.

Lemma exec_keeps :
  (forall c now sender s s', exec now sender c s = Ok s' -> keeps s s')
  /\ (forall h now s s', run_hook now h s = Ok s' -> keeps s s')
  /\ (forall cs now s, keeps s (exec_calls now cs s)).
Proof.
  apply call_hook_calls_ind.
  - intros recipient cid release uri urls hook IH now sender s s' H.
    cbn [exec] in H. unpack H. subst s'. destruct a as [s' id].
    eapply createCrate_keeps; [|exact E]. intros s1 s2. apply IH.
  - intros tokenId now sender s s' H. eapply markAsReleased_keeps, H.
  - intros from to tokenId now sender s s' H. eapply transferFrom_keeps, H.
  - intros from to tokenId hook IH now sender s s' H.
    cbn [exec] in H. unfold safeTransferFrom in H. unpack H.
    eapply keeps_trans; [eapply transferFrom_keeps, E | eapply IH, H].
  - intros to tokenId now sender s s' H. cbn [exec] in H.
    unfold approve in H. unpack H. subst s'. apply keeps_same; reflexivity.
  - intros operator approved now sender s s' H. cbn [exec] in H.
    unfold setApprovalForAll in H. unpack H. subst s'.
    apply keeps_same; reflexivity.
  - intros newOwner now sender s s' H. cbn [exec] in H.
    unfold transferOwnership in H. unpack H. subst s'.
    apply keeps_same; reflexivity.
  - intros now sender s s' H. cbn [exec] in H.
    unfold renounceOwnership in H. unpack H. subst s'.
    apply keeps_same; reflexivity.
  - intros now s s' H. cbn [run_hook] in H. injection H as <-.
    apply keeps_refl.
  - intros calls IH accepts now s s' H. cbn [run_hook] in H.
    destruct accepts; [|discriminate]. injection H as <-. apply IH.
  - intros now s. apply keeps_refl.
  - intros sender c IHc rest IHrest now s. cbn [exec_calls].
    destruct (exec now sender c s) as [s1|reason] eqn:E.
    + eapply keeps_trans; [eapply IHc, E | apply IHrest].
    + apply IHrest.
Qed.

Lemma run_keeps (txs : list Transaction) :
  forall s, keeps s (run txs s).
Proof.
  induction txs as [|tx txs IH]; intros s; [apply keeps_refl|].
  cbn [run fold_left]. fold (run txs (step s tx)).
  eapply keeps_trans; [|apply IH].
  unfold step. destruct (exec _ _ _ s) as [s'|reason] eqn:E.
  - eapply (proj1 exec_keeps), E.
  - apply keeps_refl.
Qed.

(** What does hold of [isReleaseReady]: once [createCrate] has returned
    a token id, it returns, in every later state and at every block time,
    whether the block time has reached the release time given at
    creation. *)
Lemma isReleaseReady_after_creation
        (now recipient : Z) (cid : string) (release : Z) (uri : string)
        (urls : list string) (hook : Hook) (s s1 : State) (tokenId : Z)
        (txs : list Transaction) (now' : Z) :
  createCrate (run_hook now hook) now recipient cid release uri urls s
  = Ok (s1, tokenId) ->
  isReleaseReady now' tokenId (run txs s1) = Ok (release <=? now').
Proof.
  intros H.
  destruct (createCrate_keeps _ _ _ _ _ _ _ _ _ _
              (proj1 (proj2 exec_keeps) hook now) H) as (_ & Hm & Hc).
  destruct (run_keeps txs s1 tokenId Hm) as (Hm' & Ht & _).
  unfold isReleaseReady. unfold minted in Hm'.
  apply Z.eqb_neq in Hm'. rewrite Hm'. cbn [negb require bind].
  rewrite Ht, Hc. reflexivity.
Qed.

(** C4 at the failing input: a crate created at time 100, with release
    time 200, for the contract at address 7, whose hook asks
    [isReleaseReady]. The hook runs in the state that [_mint] leaves:
    token 0 exists there and belongs to the recipient, its crate is not
    written yet, and [isReleaseReady] answers true, at time 100. Once
    [createCrate] has returned, the release time of the same token is
    200 and the answer at time 100 is false. *)
Theorem isReleaseReady_during_creation :
  match _mint 7 0 (deployed 1) with
  | Ok s => ownerOf s 0 = Ok 7
            /\ releaseTime (crate s 0) = 0
            /\ isReleaseReady 100 0 s = Ok true
  | Throw _ => False
  end
  /\ match createCrate (ready_probe 100 0) 100 7 "QmCid" 200 "ipfs://meta"
                       ["http://localhost:4001"] (deployed 1) with
     | Ok (s, tokenId) =>
         tokenId = 0
         /\ ownerOf s 0 = Ok 7
         /\ releaseTime (crate s 0) = 200
         /\ isReleaseReady 100 0 s = Ok false
     | Throw _ => False
     end
  /\ createCrate (ready_probe 100 1) 100 7 "QmCid" 200 "ipfs://meta"
                 ["http://localhost:4001"] (deployed 1)
     = Throw "Token does not exist".
Proof. vm_compute. repeat split. Qed.

(** What does hold of the released flag. [markAsReleased] succeeds
    exactly when the token exists, the caller owns it, the stored release
    time has passed and the crate is not marked yet. *)
Lemma markAsReleased_succeeds (now sender tokenId : Z) (s : State) :
  (exists s', markAsReleased now sender tokenId s = Ok s')
  <-> minted s tokenId
      /\ _ownerOf s tokenId = sender
      /\ releaseTime (crate s tokenId) <= now
      /\ released (crate s tokenId) = false.
Proof.
  unfold markAsReleased, isReleaseReady, ownerOf, _exists, minted. split.
  - intros (s' & H). unpack H.
    repeat match goal with
           | E : bind _ _ = Ok _ |- _ => unpack E
           end.
    subst.
    repeat match goal with
           | E : negb _ = true |- _ => apply negb_true_iff in E
           | E : (_ =? _) = false |- _ => apply Z.eqb_neq in E
           | E : (_ =? _) = true |- _ => apply Z.eqb_eq in E
           | E : (_ <=? _) = true |- _ => apply Z.leb_le in E
           end.
    auto.
  - intros (Hm & Ho & Ht & Hr).
    apply Z.eqb_neq in Hm. apply Z.eqb_eq in Ho. apply Z.leb_le in Ht.
    rewrite Hm. cbn [negb require bind]. rewrite Ho. cbn [require bind].
    rewrite Ht. cbn [require bind]. rewrite Hr. cbn [negb require bind].
    eexists. reflexivity.
Qed.

(** Once [createCrate] has returned, the crate is not released, and from
    then on no transaction takes the flag back from true to false. *)
Lemma released_after_creation
      (now recipient : Z) (cid : string) (release : Z) (uri : string)
      (urls : list string) (hook : Hook) (s s1 : State) (tokenId : Z) :
  createCrate (run_hook now hook) now recipient cid release uri urls s
  = Ok (s1, tokenId) ->
  released (crate s1 tokenId) = false
  /\ forall txs tx,
       released (crate (run txs s1) tokenId) = true ->
       released (crate (step (run txs s1) tx) tokenId) = true.
Proof.
  intros H.
  destruct (createCrate_keeps _ _ _ _ _ _ _ _ _ _
              (proj1 (proj2 exec_keeps) hook now) H) as (_ & Hm & Hc).
  split; [rewrite Hc; reflexivity|].
  intros txs tx Hr.
  destruct (run_keeps txs s1 tokenId Hm) as (Hm' & _ & _).
  destruct (run_keeps [tx] (run txs s1) tokenId Hm') as (_ & _ & Hkeep).
  apply Hkeep, Hr.
Qed.

(** C10 at the failing input: a crate created for the contract at address
    7, whose hook calls [markAsReleased]. When [_safeMint] returns, token
    0 exists and is marked as released, at time 100, before its release
    time 200; when [createCrate] returns, the same token is not released
    any more. *)
Theorem released_reset_by_creation :
  match _safeMint (run_hook 100 reentrant_hook) 7 0 (deployed 1) with
  | Ok s => _ownerOf s 0 = 7
            /\ released (crate s 0) = true
            /\ events s = [OwnershipTransferred 0 1; Transfer 0 7 0;
                           CrateReleased 0 7 100]
  | Throw _ => False
  end
  /\ match createCrate (run_hook 100 reentrant_hook) 100 7 "QmCid" 200
                       "ipfs://meta" ["http://localhost:4001"] (deployed 1) with
     | Ok (s, tokenId) =>
         tokenId = 0
         /\ _ownerOf s 0 = 7
         /\ released (crate s 0) = false
         /\ releaseTime (crate s 0) = 200
         /\ events s = [OwnershipTransferred 0 1; Transfer 0 7 0;
                        CrateReleased 0 7 100;
                        CrateCreated 0 7 "QmCid" 200 ["http://localhost:4001"]]
     | Throw _ => False
     end.
Proof. vm_compute. repeat split. Qed.

(** *** Crates over time *)

Lemma unchanged_refl (c : Crate) : unchanged_but_released c c.
Proof. repeat split; auto. Qed.

Lemma unchanged_trans (c1 c2 c3 : Crate) :
  unchanged_but_released c1 c2 -> unchanged_but_released c2 c3 ->
  unchanged_but_released c1 c3.
Proof.
  intros (A1 & A2 & A3 & A4 & A5) (B1 & B2 & B3 & B4 & B5).
  repeat split; try congruence. auto.
Qed.

Lemma stable_refl (s : State) : stable s s.
Proof. intros id H. split; [exact H|]. split; [apply unchanged_refl | reflexivity]. Qed.

Lemma stable_trans (s1 s2 s3 : State) :
  stable s1 s2 -> stable s2 s3 -> stable s1 s3.
Proof.
  intros H12 H23 id H1.
  destruct (H12 id H1) as (H2 & U12 & T12).
  destruct (H23 id H2) as (H3 & U23 & T23).
  split; [exact H3|]. split; [eapply unchanged_trans; eassumption | congruence].
Qed.

Lemma stable_same (s s' : State) :
  _owners s' = _owners s -> crateInfo s' = crateInfo s ->
  _tokenURIs s' = _tokenURIs s -> stable s s'.
Proof.
  intros Ho Hc Hu id H. unfold minted, _ownerOf, crate in *.
  rewrite Ho, Hc, Hu. split; [exact H|]. split; [apply unchanged_refl | reflexivity].
Qed.

Lemma mint_stable (to tokenId : Z) (s s' : State) :
  _mint to tokenId s = Ok s' -> stable s s'.
Proof.
  intros H. unfold _mint in H. unpack H. subst s'.
  apply negb_true_iff in R0. unfold _exists in R0.
  apply negb_false_iff, Z.eqb_eq in R0.
  intros id Hid. unfold minted, _ownerOf, crate in *. cbn.
  destruct (decide (id = tokenId)) as [->|Hne]; [contradiction|].
  rewrite lookup_insert_ne by congruence.
  split; [exact Hid|]. split; [apply unchanged_refl | reflexivity].
Qed.

Lemma transferFrom_stable (sender from to tokenId : Z) (s s' : State) :
  transferFrom sender from to tokenId s = Ok s' -> stable s s'.
Proof.
  intros H. unfold transferFrom, _transfer in H. unpack H. subst s'.
  apply negb_true_iff, Z.eqb_neq in R1.
  intros id Hid. unfold minted, _ownerOf, crate in *. cbn.
  split; [|split; [apply unchanged_refl | reflexivity]].
  destruct (decide (id = tokenId)) as [->|Hne].
  - rewrite lookup_insert_eq. exact R1.
  - rewrite lookup_insert_ne by congruence. exact Hid.
Qed.

Lemma markAsReleased_stable (now sender tokenId : Z) (s s' : State) :
  markAsReleased now sender tokenId s = Ok s' -> stable s s'.
Proof.
  intros H. unfold markAsReleased in H. unpack H. subst s'.
  intros id Hid. unfold minted, _ownerOf, crate in *. cbn.
  split; [exact Hid|]. split; [|reflexivity].
  destruct (decide (id = tokenId)) as [->|Hne].
  - rewrite lookup_insert_eq. cbn. repeat split; auto.
  - rewrite lookup_insert_ne by congruence. apply unchanged_refl.
Qed.

Lemma createCrate_stable (onReceived : State -> Result State)
      (now recipient : Z) (cid : string) (release : Z) (uri : string)
      (urls : list string) (s s' : State) (tokenId : Z) :
  (forall s1 s2, onReceived s1 = Ok s2 -> stable s1 s2) ->
  createCrate onReceived now recipient cid release uri urls s
  = Ok (s', tokenId) ->
  stable s s'.
Proof.
  intros Hhook H. unfold createCrate, _safeMint in H. unpack H.
  subst s' tokenId. rename a into s2, a0 into s3.
  unpack E. rename a into s1.
  pose proof (mint_stable _ _ _ _ E1) as K1.
  destruct (mint_keeps _ _ _ _ E1) as (_ & Hfresh & _ & _).
  pose proof (Hhook _ _ E) as K2.
  unfold _setTokenURI in E0. unpack E0. subst s3.
  intros id Hid.
  destruct (stable_trans _ _ _ K1 K2 id Hid) as (M & U & T).
  assert (Hne : id <> _tokenIdCounter s) by (unfold minted in Hid; congruence).
  unfold minted, _ownerOf, crate in *. cbn.
  rewrite !lookup_insert_ne by congruence. auto.
Qed.

Lemma exec_stable :
  (forall c now sender s s', exec now sender c s = Ok s' -> stable s s')
  /\ (forall h now s s', run_hook now h s = Ok s' -> stable s s')
  /\ (forall cs now s, stable s (exec_calls now cs s)).
Proof.
  apply call_hook_calls_ind.
  - intros recipient cid release uri urls hook IH now sender s s' H.
    cbn [exec] in H. unpack H. subst s'. destruct a as [s' id].
    eapply createCrate_stable; [|exact E]. intros s1 s2. apply IH.
  - intros tokenId now sender s s' H. eapply markAsReleased_stable, H.
  - intros from to tokenId now sender s s' H. eapply transferFrom_stable, H.
  - intros from to tokenId hook IH now sender s s' H.
    cbn [exec] in H. unfold safeTransferFrom in H. unpack H.
    eapply stable_trans; [eapply transferFrom_stable, E | eapply IH, H].
  - intros to tokenId now sender s s' H. cbn [exec] in H.
    unfold approve in H. unpack H. subst s'. apply stable_same; reflexivity.
  - intros operator approved now sender s s' H. cbn [exec] in H.
    unfold setApprovalForAll in H. unpack H. subst s'.
    apply stable_same; reflexivity.
  - intros newOwner now sender s s' H. cbn [exec] in H.
    unfold transferOwnership in H. unpack H. subst s'.
    apply stable_same; reflexivity.
  - intros now sender s s' H. cbn [exec] in H.
    unfold renounceOwnership in H. unpack H. subst s'.
    apply stable_same; reflexivity.
  - intros now s s' H. cbn [run_hook] in H. injection H as <-.
    apply stable_refl.
  - intros calls IH accepts now s s' H. cbn [run_hook] in H.
    destruct accepts; [|discriminate]. injection H as <-. apply IH.
  - intros now s. apply stable_refl.
  - intros sender c IHc rest IHrest now s. cbn [exec_calls].
    destruct (exec now sender c s) as [s1|reason] eqn:E.
    + eapply stable_trans; [eapply IHc, E | apply IHrest].
    + apply IHrest.
Qed.

Lemma run_stable (txs : list Transaction) :
  forall s, stable s (run txs s).
Proof.
  induction txs as [|tx txs IH]; intros s; [apply stable_refl|].
  cbn [run fold_left]. fold (run txs (step s tx)).
  eapply stable_trans; [|apply IH].
  unfold step. destruct (exec _ _ _ s) as [s'|reason] eqn:E.
  - eapply (proj1 exec_stable), E.
  - apply stable_refl.
Qed.

(** X1: what [getCrateInfo] returns between transactions is permanent.
    In a state reached from the deployment by whole transactions,
    whatever transactions follow, re-entrant ones included, it returns
    the same content id, release time, keeper URLs and creation time; the
    released flag never goes back from true to false; and [getKeeperUrls]
    and [tokenURI] keep their answers: no transaction rewrites or removes
    the crate of a token that existed when it started. *)
Theorem crate_data_is_permanent
        (deployer : address) (before txs : list Transaction) (tokenId : Z)
        (cid : string) (release : Z) (urls : list string) (flag : bool)
        (created : Z) :
  let s := run before (deployed deployer) in
  getCrateInfo tokenId s = Ok (cid, release, urls, flag, created) ->
  exists flag',
    getCrateInfo tokenId (run txs s) = Ok (cid, release, urls, flag', created)
    /\ (flag = true -> flag' = true)
    /\ getKeeperUrls tokenId (run txs s) = Ok urls
    /\ tokenURI tokenId (run txs s) = tokenURI tokenId s.
Proof.
  intros s H. unfold getCrateInfo in H. unpack H. subst.
  apply negb_true_iff, Z.eqb_neq in R.
  destruct (run_stable txs s tokenId R) as (Hm & (U1 & U2 & U3 & U4 & U5) & Hu).
  exists (released (crate (run txs s) tokenId)).
  unfold getCrateInfo, getKeeperUrls, tokenURI, _exists.
  unfold minted in Hm. apply Z.eqb_neq in Hm, R. rewrite Hm, R.
  cbn [negb require bind]. rewrite U1, U2, U3, U4, Hu. auto.
Qed.

Lemma crate_data_is_permanent_witness :
  let s := run [mkTransaction 100 1
                  (CreateCrate 5 "QmCid" 200 "ipfs://meta"
                               ["http://localhost:4001"%string] NoCode)]
               (deployed 1) in
  exists flag',
    getCrateInfo 0 (run demo_transactions s)
    = Ok ("QmCid"%string, 200, ["http://localhost:4001"%string], flag', 100)
    /\ (false = true -> flag' = true)
    /\ getKeeperUrls 0 (run demo_transactions s)
       = Ok ["http://localhost:4001"%string]
    /\ tokenURI 0 (run demo_transactions s) = tokenURI 0 s.
Proof.
  apply (crate_data_is_permanent 1
           [mkTransaction 100 1
              (CreateCrate 5 "QmCid" 200 "ipfs://meta"
                           ["http://localhost:4001"%string] NoCode)]
           demo_transactions 0 "QmCid" 200 ["http://localhost:4001"%string]
           false 100).
  vm_compute. reflexivity.
Defined.

(** *** Creation *)

(** X2: [createCrate] checks its arguments in the order of the source
    and reverts with the reason of the first check that fails: a zero
    recipient, a release time that is not after the block time, an empty
    content id, an empty list of keeper URLs; after them, a token id that
    is already taken makes the mint revert. This holds whatever the
    recipient's hook would do. *)
Theorem createCrate_guards
        (onReceived : State -> Result State) (now recipient : Z)
        (cid : string) (release : Z) (uri : string) (urls : list string)
        (s : State) :
  (recipient = 0 ->
   createCrate onReceived now recipient cid release uri urls s
   = Throw "Invalid recipient address")
  /\ (recipient <> 0 -> release <= now ->
      createCrate onReceived now recipient cid release uri urls s
      = Throw "Release time must be in the future")
  /\ (recipient <> 0 -> now < release -> cid = EmptyString ->
      createCrate onReceived now recipient cid release uri urls s
      = Throw "IPFS CID cannot be empty")
  /\ (recipient <> 0 -> now < release -> cid <> EmptyString -> urls = [] ->
      createCrate onReceived now recipient cid release uri urls s
      = Throw "Must provide at least one keeper URL")
  /\ (recipient <> 0 -> now < release -> cid <> EmptyString -> urls <> [] ->
      minted s (totalSupply s) ->
      createCrate onReceived now recipient cid release uri urls s
      = Throw "ERC721: token already minted").
Proof.
  unfold createCrate, _safeMint, _mint, _exists, minted, totalSupply.
  repeat split.
  - intros ->. reflexivity.
  - intros Hr Ht. apply Z.eqb_neq in Hr. rewrite Hr.
    apply Z.ltb_ge in Ht. rewrite Ht. reflexivity.
  - intros Hr Ht ->. apply Z.eqb_neq in Hr. rewrite Hr.
    apply Z.ltb_lt in Ht. rewrite Ht. reflexivity.
  - intros Hr Ht Hc ->. apply Z.eqb_neq in Hr. rewrite Hr.
    apply Z.ltb_lt in Ht. rewrite Ht.
    destruct cid; [contradiction|]. reflexivity.
  - intros Hr Ht Hc Hu Hm. apply Z.eqb_neq in Hr. rewrite Hr.
    apply Z.ltb_lt in Ht. rewrite Ht.
    destruct cid; [contradiction|]. destruct urls; [contradiction|].
    apply Z.eqb_neq in Hm. cbn [negb require bind String.length length Nat.ltb Nat.leb].
    rewrite Hm. reflexivity.
Qed.

Lemma createCrate_guards_witness :
  createCrate (run_hook 100 NoCode) 100 5 "QmCid" 100 "ipfs://meta"
              ["http://localhost:4001"%string] (deployed 1)
  = Throw "Release time must be in the future"
  /\ createCrate (run_hook 100 NoCode) 100 5 "QmCid" 200 "ipfs://meta" []
                 (deployed 1)
     = Throw "Must provide at least one keeper URL".
Proof.
  split.
  - apply (createCrate_guards (run_hook 100 NoCode) 100 5 "QmCid" 100
             "ipfs://meta" ["http://localhost:4001"%string] (deployed 1));
      lia.
  - apply (createCrate_guards (run_hook 100 NoCode) 100 5 "QmCid" 200
             "ipfs://meta" [] (deployed 1));
      first [lia | discriminate | reflexivity].
Defined.

(** X3: for a recipient that runs no code, [createCrate] succeeds as
    soon as the four checks pass and the next token id is free. It
    returns the value [totalSupply] had; afterwards the recipient owns
    that token, [getCrateInfo] returns the given content id, release time
    and keeper URLs with the block time as creation time and the released
    flag false, [tokenURI] returns the given URI, [totalSupply] is one
    more, and the crate is not ready yet. *)
Theorem createCrate_for_account
        (now recipient : Z) (cid : string) (release : Z) (uri : string)
        (urls : list string) (s : State) :
  recipient <> 0 -> now < release -> cid <> EmptyString -> urls <> [] ->
  ~ minted s (totalSupply s) ->
  exists s',
    createCrate (run_hook now NoCode) now recipient cid release uri urls s
    = Ok (s', totalSupply s)
    /\ ownerOf s' (totalSupply s) = Ok recipient
    /\ getCrateInfo (totalSupply s) s' = Ok (cid, release, urls, false, now)
    /\ tokenURI (totalSupply s) s' = Ok uri
    /\ totalSupply s' = (totalSupply s + 1) mod uint256_modulus
    /\ isReleaseReady now (totalSupply s) s' = Ok false.
Proof.
  intros Hr Ht Hc Hu Hm.
  unfold createCrate, _safeMint, _mint, _setTokenURI, _exists, minted,
    totalSupply in *.
  apply Z.eqb_neq in Hr. rewrite Hr. pose proof Ht as Ht'. apply Z.ltb_lt in Ht. rewrite Ht.
  destruct cid; [contradiction|]. destruct urls as [|u urls]; [contradiction|].
  assert (Hm' : _ownerOf s (_tokenIdCounter s) = 0)
    by (destruct (Z.eq_dec (_ownerOf s (_tokenIdCounter s)) 0); [assumption|contradiction]).
  cbn [negb require bind String.length length Nat.ltb Nat.leb run_hook].
  rewrite Hm'. cbn [Z.eqb negb require bind].
  unfold _ownerOf at 1. cbn. rewrite lookup_insert_eq. cbn.
  rewrite Hr. cbn [negb require bind].
  eexists. split; [reflexivity|].
  unfold ownerOf, getCrateInfo, tokenURI, isReleaseReady, _exists, _ownerOf, crate.
  cbn. rewrite !lookup_insert_eq. cbn. rewrite Hr. cbn.
  repeat split.
  f_equal. apply Z.leb_gt. exact Ht'.
Qed.

Lemma createCrate_for_account_witness :
  exists s',
    createCrate (run_hook 100 NoCode) 100 5 "QmCid" 200 "ipfs://meta"
                ["http://localhost:4001"%string] (deployed 1)
    = Ok (s', totalSupply (deployed 1))
    /\ ownerOf s' (totalSupply (deployed 1)) = Ok 5
    /\ getCrateInfo (totalSupply (deployed 1)) s'
       = Ok ("QmCid"%string, 200, ["http://localhost:4001"%string], false, 100)
    /\ tokenURI (totalSupply (deployed 1)) s' = Ok "ipfs://meta"%string
    /\ totalSupply s' = (totalSupply (deployed 1) + 1) mod uint256_modulus
    /\ isReleaseReady 100 (totalSupply (deployed 1)) s' = Ok false.
Proof.
  apply (createCrate_for_account 100 5 "QmCid" 200 "ipfs://meta"
           ["http://localhost:4001"%string] (deployed 1)).
  - lia.
  - lia.
  - discriminate.
  - discriminate.
  - intros H. apply H. reflexivity.
Defined.

(** *** Release *)

(** X4: every way [markAsReleased] can end. It reverts, with the reason
    of the first check that fails, when the token does not exist, when the
    caller is not its owner, when the release time has not passed, and
    when the crate is already marked. Otherwise it succeeds: the crate is
    marked, one [CrateReleased] event with the caller and the block time
    is emitted, and ownership and every other crate are untouched. *)
Theorem markAsReleased_outcome (now sender tokenId : Z) (s : State) :
  (~ minted s tokenId ->
   markAsReleased now sender tokenId s = Throw "Token does not exist")
  /\ (minted s tokenId -> _ownerOf s tokenId <> sender ->
      markAsReleased now sender tokenId s
      = Throw "Only token owner can mark as released")
  /\ (minted s tokenId -> _ownerOf s tokenId = sender ->
      now < releaseTime (crate s tokenId) ->
      markAsReleased now sender tokenId s
      = Throw "Release time has not passed")
  /\ (minted s tokenId -> _ownerOf s tokenId = sender ->
      releaseTime (crate s tokenId) <= now ->
      released (crate s tokenId) = true ->
      markAsReleased now sender tokenId s
      = Throw "Already marked as released")
  /\ (minted s tokenId -> _ownerOf s tokenId = sender ->
      releaseTime (crate s tokenId) <= now ->
      released (crate s tokenId) = false ->
      exists s',
        markAsReleased now sender tokenId s = Ok s'
        /\ released (crate s' tokenId) = true
        /\ events s' = events s ++ [CrateReleased tokenId sender now]
        /\ _owners s' = _owners s
        /\ (forall other, other <> tokenId ->
            crate s' other = crate s other)).
Proof.
  unfold markAsReleased, isReleaseReady, ownerOf, _exists, minted.
  repeat split.
  - intros Hm.
    assert (E : _ownerOf s tokenId = 0)
      by (destruct (Z.eq_dec (_ownerOf s tokenId) 0); [assumption|contradiction]).
    rewrite E. reflexivity.
  - intros Hm Ho. apply Z.eqb_neq in Hm, Ho. rewrite Hm. cbn [negb require bind].
    rewrite Ho. reflexivity.
  - intros Hm Ho Ht. apply Z.eqb_neq in Hm. apply Z.eqb_eq in Ho.
    apply Z.leb_gt in Ht. rewrite Hm. cbn [negb require bind].
    rewrite Ho. cbn [require bind]. rewrite Ht. reflexivity.
  - intros Hm Ho Ht Hr. apply Z.eqb_neq in Hm. apply Z.eqb_eq in Ho.
    apply Z.leb_le in Ht. rewrite Hm. cbn [negb require bind].
    rewrite Ho. cbn [require bind]. rewrite Ht. cbn [require bind].
    rewrite Hr. reflexivity.
  - intros Hm Ho Ht Hr. pose proof Ht as Ht'. pose proof Ho as Ho'.
    apply Z.eqb_neq in Hm. apply Z.eqb_eq in Ho.
    apply Z.leb_le in Ht. rewrite Hm. cbn [negb require bind].
    rewrite Ho. cbn [require bind]. rewrite Ht. cbn [require bind].
    rewrite Hr. cbn [negb require bind].
    eexists. split; [reflexivity|].
    unfold crate, _ownerOf in *. cbn. rewrite !lookup_insert_eq. cbn.
    repeat split.
    intros other Hne. rewrite lookup_insert_ne by congruence. reflexivity.
Qed.

Lemma markAsReleased_outcome_witness :
  markAsReleased 150 5 0 demo_created = Throw "Release time has not passed"
  /\ exists s',
      markAsReleased 250 5 0 demo_created = Ok s'
      /\ released (crate s' 0) = true
      /\ events s' = events demo_created ++ [CrateReleased 0 5 250]
      /\ _owners s' = _owners demo_created
      /\ (forall other, other <> 0 ->
          crate s' other = crate demo_created other).
Proof.
  split.
  - apply (markAsReleased_outcome 150 5 0 demo_created).
    + vm_compute. discriminate.
    + reflexivity.
    + vm_compute. reflexivity.
  - apply (markAsReleased_outcome 250 5 0 demo_created).
    + vm_compute. discriminate.
    + reflexivity.
    + vm_compute. discriminate.
    + reflexivity.
Defined.

(** X5: the right to mark a crate as released goes with the token.
    After a transfer to another address the new owner is the owner, the
    previous owner's [markAsReleased] reverts, and the new owner's
    succeeds exactly when the release time stored at creation has passed
    and the crate is not marked yet. *)
Theorem release_right_follows_token
        (sender from to tokenId now : Z) (s s' : State) :
  transferFrom sender from to tokenId s = Ok s' ->
  from <> to ->
  ownerOf s' tokenId = Ok to
  /\ markAsReleased now from tokenId s'
     = Throw "Only token owner can mark as released"
  /\ ((exists s'', markAsReleased now to tokenId s' = Ok s'')
      <-> releaseTime (crate s tokenId) <= now
          /\ released (crate s tokenId) = false).
Proof.
  intros H Hne. unfold transferFrom, _transfer in H. unpack H. subst s'.
  apply negb_true_iff, Z.eqb_neq in R1.
  set (s' := emit _ _).
  assert (Ho : _ownerOf s' tokenId = to).
  { unfold _ownerOf, s'. cbn. rewrite lookup_insert_eq. reflexivity. }
  assert (Hc : crate s' tokenId = crate s tokenId) by reflexivity.
  assert (Hm : minted s' tokenId) by (unfold minted; congruence).
  split; [|split].
  - unfold ownerOf, _exists. rewrite Ho. apply Z.eqb_neq in R1. rewrite R1.
    reflexivity.
  - unfold markAsReleased, ownerOf, _exists. rewrite Ho.
    apply Z.eqb_neq in R1. rewrite R1. cbn [negb require bind].
    replace (to =? from) with false
      by (symmetry; apply Z.eqb_neq; congruence).
    reflexivity.
  - rewrite markAsReleased_succeeds. rewrite Hc. tauto.
Qed.

Lemma release_right_follows_token_witness :
  ownerOf demo_transferred 0 = Ok 6
  /\ markAsReleased 250 5 0 demo_transferred
     = Throw "Only token owner can mark as released"
  /\ ((exists s'', markAsReleased 250 6 0 demo_transferred = Ok s'')
      <-> releaseTime (crate demo_created 0) <= 250
          /\ released (crate demo_created 0) = false).
Proof.
  apply (release_right_follows_token 5 5 6 0 250 demo_created
           demo_transferred).
  - vm_compute. reflexivity.
  - lia.
Defined.

(** X6: [getTimeUntilRelease] and [isReleaseReady] agree. Both revert
    for a token that does not exist. For an existing token the time left
    is never negative; it is zero exactly when the crate is ready; and
    when it is [d] seconds, the crate is ready [d] seconds later and not
    a second earlier. *)
Theorem getTimeUntilRelease_agrees (now tokenId : Z) (s : State) :
  (~ minted s tokenId ->
   getTimeUntilRelease now tokenId s = Throw "Token does not exist"
   /\ isReleaseReady now tokenId s = Throw "Token does not exist")
  /\ (minted s tokenId ->
      exists d,
        getTimeUntilRelease now tokenId s = Ok d
        /\ 0 <= d
        /\ (d = 0 <-> isReleaseReady now tokenId s = Ok true)
        /\ isReleaseReady (now + d) tokenId s = Ok true
        /\ (0 < d -> isReleaseReady (now + d - 1) tokenId s = Ok false)).
Proof.
  unfold getTimeUntilRelease, isReleaseReady, minted. split.
  - intros Hm.
    assert (E : _ownerOf s tokenId = 0)
      by (destruct (Z.eq_dec (_ownerOf s tokenId) 0); [assumption|contradiction]).
    rewrite E. split; reflexivity.
  - intros Hm. apply Z.eqb_neq in Hm. rewrite Hm. cbn [negb require bind].
    destruct (Z.leb_spec (releaseTime (crate s tokenId)) now) as [Hle|Hgt].
    + exists 0. repeat split; try lia; try reflexivity.
      f_equal. apply Z.leb_le. lia.
    + exists (releaseTime (crate s tokenId) - now).
      split; [reflexivity|]. split; [lia|]. split; [|split].
      * split; [lia | discriminate].
      * f_equal. apply Z.leb_le. lia.
      * intros _. f_equal. apply Z.leb_gt. lia.
Qed.

Lemma getTimeUntilRelease_agrees_witness :
  exists d,
    getTimeUntilRelease 150 0 demo_created = Ok d
    /\ 0 <= d
    /\ (d = 0 <-> isReleaseReady 150 0 demo_created = Ok true)
    /\ isReleaseReady (150 + d) 0 demo_created = Ok true
    /\ (0 < d -> isReleaseReady (150 + d - 1) 0 demo_created = Ok false).
Proof.
  apply (getTimeUntilRelease_agrees 150 0 demo_created).
  vm_compute. discriminate.
Defined.

(** *** Token ids and balances *)

Lemma modulus_pos : 0 < uint256_modulus.
Proof. unfold uint256_modulus. apply Z.pow_pos_nonneg; lia. Qed.

Lemma filter_ext_in' {A : Type} (f g : A -> bool) (l : list A) :
  (forall x, In x l -> f x = g x) -> List.filter f l = List.filter g l.
Proof.
  induction l as [|x l IH]; intros H; [reflexivity|].
  cbn [List.filter]. rewrite (H x (or_introl eq_refl)).
  rewrite IH; [reflexivity|]. intros y Hy. apply H. right. exact Hy.
Qed.

Lemma tokens_of_same (s s' : State) (a : address) (n : Z) :
  _owners s' = _owners s -> tokens_of s' a n = tokens_of s a n.
Proof.
  intros H. unfold tokens_of. apply filter_ext_in'. intros x _.
  unfold owned_by, _ownerOf. rewrite H. reflexivity.
Qed.

Lemma numbered_same (s s' : State) (pending : Z) :
  _owners s' = _owners s -> _balances s' = _balances s ->
  _tokenIdCounter s' = _tokenIdCounter s ->
  numbered s pending -> numbered s' pending.
Proof.
  intros Ho Hb Hc (n & Hn & Hm & Hcount & Hmint & Hbal).
  exists n. split; [exact Hn|]. split; [exact Hm|].
  split; [congruence|]. split.
  - intros id. rewrite <- Hmint. unfold minted, _ownerOf. rewrite Ho. tauto.
  - intros a Ha. rewrite Hb, (tokens_of_same s s' a _ Ho). apply Hbal, Ha.
Qed.

Lemma seqZ_snoc (n : Z) : 0 <= n -> seqZ 0 (n + 1) = seqZ 0 n ++ [n].
Proof.
  intros Hn. rewrite seqZ_app by lia. reflexivity.
Qed.

Lemma in_seqZ (m n k : Z) : In k (seqZ m n) <-> m <= k < m + n.
Proof. rewrite <- list_elem_of_In. apply elem_of_seqZ. Qed.

Lemma tokens_of_mint (s s' : State) (to a : address) (n : Z) :
  0 <= n -> _owners s' = <[n := to]> (_owners s) ->
  tokens_of s' a (n + 1)
  = tokens_of s a n ++ (if to =? a then [n] else []).
Proof.
  intros Hn Ho. unfold tokens_of. rewrite seqZ_snoc by exact Hn.
  rewrite List.filter_app. f_equal.
  - apply filter_ext_in'. intros x Hx. apply in_seqZ in Hx.
    unfold owned_by, _ownerOf. rewrite Ho.
    rewrite lookup_insert_ne by lia. reflexivity.
  - cbn [List.filter]. unfold owned_by, _ownerOf. rewrite Ho.
    rewrite lookup_insert_eq. reflexivity.
Qed.

Lemma tokens_of_transfer (s s' : State) (to a : address) (t m : Z) :
  0 <= t < m -> _owners s' = <[t := to]> (_owners s) ->
  Z.of_nat (length (tokens_of s' a m))
  = Z.of_nat (length (tokens_of s a m))
    - (if _ownerOf s t =? a then 1 else 0) + (if to =? a then 1 else 0).
Proof.
  intros Ht Ho. unfold tokens_of.
  remember (m - t - 1) as r eqn:Hr.
  assert (Hr' : 0 <= r) by lia.
  replace m with (t + (1 + r)) by lia.
  rewrite seqZ_app by lia. rewrite (seqZ_app _ 1) by lia.
  rewrite !List.filter_app, !length_app.
  assert (E1 : List.filter (owned_by s' a) (seqZ 0 t)
               = List.filter (owned_by s a) (seqZ 0 t)).
  { apply filter_ext_in'. intros x Hx. apply in_seqZ in Hx.
    unfold owned_by, _ownerOf. rewrite Ho.
    rewrite lookup_insert_ne by lia. reflexivity. }
  assert (E2 : List.filter (owned_by s' a) (seqZ (0 + t + 1) r)
               = List.filter (owned_by s a) (seqZ (0 + t + 1) r)).
  { apply filter_ext_in'. intros x Hx. apply in_seqZ in Hx.
    unfold owned_by, _ownerOf. rewrite Ho.
    rewrite lookup_insert_ne by lia. reflexivity. }
  rewrite E1, E2. change (seqZ (0 + t) 1) with [0 + t].
  replace (0 + t) with t by lia. cbn [List.filter].
  assert (E3 : owned_by s' a t = (to =? a)).
  { unfold owned_by, _ownerOf. rewrite Ho, lookup_insert_eq. reflexivity. }
  rewrite E3. change (owned_by s a t) with (_ownerOf s t =? a).
  destruct (to =? a), (_ownerOf s t =? a); cbn [length]; lia.
Qed.

Lemma tokens_of_bound (s : State) (a : address) (n : Z) :
  0 <= n -> Z.of_nat (length (tokens_of s a n)) <= n.
Proof.
  intros Hn. unfold tokens_of.
  pose proof (List.filter_length_le (owned_by s a) (seqZ 0 n)) as H.
  rewrite length_seqZ in H. lia.
Qed.

Lemma mint_numbered (to : address) (s s' : State) :
  _mint to (_tokenIdCounter s) s = Ok s' ->
  numbered s 0 -> numbered s' 1 /\ _tokenIdCounter s' = _tokenIdCounter s.
Proof.
  intros H (n & Hn & Hm & Hc & Hmint & Hbal).
  unfold _mint in H. unpack H. subst s'.
  apply negb_true_iff in R, R0. unfold _exists in R0.
  apply negb_false_iff, Z.eqb_eq in R0. apply Z.eqb_neq in R.
  pose proof modulus_pos as HM.
  assert (Hlt : n < uint256_modulus).
  { destruct (Z.eq_dec n uint256_modulus) as [->|]; [|lia].
    rewrite Z_mod_same_full in Hc. rewrite Hc in R0.
    exfalso. apply (proj2 (Hmint 0)); [lia | exact R0]. }
  rewrite Z.mod_small in Hc by lia.
  split; [|reflexivity].
  exists n. split; [exact Hn|]. split; [lia|].
  split; [cbn; rewrite Hc; rewrite Z.mod_small by lia; reflexivity|].
  rewrite Hc in *. replace (n + 0) with n in * by lia.
  split.
  - intros id. unfold minted, _ownerOf in *. cbn.
    destruct (decide (id = n)) as [->|Hne].
    + rewrite lookup_insert_eq. cbn. split; [lia | intros _; exact R].
    + rewrite lookup_insert_ne by congruence. rewrite Hmint. lia.
  - intros a Ha.
    rewrite (tokens_of_mint s _ to a n Hn) by reflexivity.
    cbn. destruct (decide (a = to)) as [->|Hne].
    + rewrite lookup_insert_eq. cbn. rewrite Z.eqb_refl.
      rewrite length_app. cbn [length]. rewrite Hbal by exact Ha.
      rewrite Nat2Z.inj_add. rewrite Zplus_mod_idemp_l. reflexivity.
    + rewrite lookup_insert_ne by congruence.
      replace (to =? a) with false by (symmetry; apply Z.eqb_neq; congruence).
      rewrite app_nil_r. apply Hbal, Ha.
Qed.

Lemma mint_pending (to : address) (s s' : State) :
  numbered s 1 -> _mint to (_tokenIdCounter s) s = Ok s' -> False.
Proof.
  intros (n & Hn & Hm & Hc & Hmint & Hbal) H.
  unfold _mint in H. unpack H.
  apply negb_true_iff in R0. unfold _exists in R0.
  apply negb_false_iff, Z.eqb_eq in R0.
  pose proof modulus_pos. rewrite Z.mod_small in Hc by lia.
  apply (proj2 (Hmint n)); [lia | congruence].
Qed.

Lemma transfer_numbered (from to tokenId : Z) (s s' : State) (pending : Z) :
  0 <= pending ->
  _transfer from to tokenId s = Ok s' ->
  numbered s pending -> numbered s' pending.
Proof.
  intros Hp H (n & Hn & Hm & Hc & Hmint & Hbal).
  unfold _transfer, ownerOf in H. unpack H. unpack E. subst s' a.
  unfold _exists in R1.
  apply negb_true_iff, Z.eqb_neq in R0, R1. apply Z.eqb_eq in R.
  pose proof modulus_pos as HM.
  assert (Ht : 0 <= tokenId < n + pending) by (apply Hmint; exact R1).
  exists n. split; [exact Hn|]. split; [exact Hm|]. split; [exact Hc|].
  split.
  - intros id. rewrite <- Hmint. unfold minted, _ownerOf in *. cbn.
    destruct (decide (id = tokenId)) as [->|Hne].
    + rewrite lookup_insert_eq. cbn. tauto.
    + rewrite lookup_insert_ne by congruence. tauto.
  - intros a Ha.
    rewrite (tokens_of_transfer s _ to a tokenId (n + pending) Ht)
      by reflexivity.
    rewrite R. cbn [_balances with_balances with_owners emit
                    with_tokenApprovals].
    pose proof (Hbal from) as Hfrom. pose proof (Hbal a Ha) as Hbala.
    assert (Hlen : from = a ->
                   1 <= Z.of_nat (length (tokens_of s a (n + pending)))).
    { intros ->. unfold tokens_of.
      assert (Hin : In tokenId (List.filter (owned_by s a)
                                            (seqZ 0 (n + pending)))).
      { apply List.filter_In. split; [apply in_seqZ; lia|].
        unfold owned_by. apply Z.eqb_eq. exact R. }
      destruct (List.filter _ _); [destruct Hin | cbn [length]; lia]. }
    destruct (decide (a = to)) as [->|Hato].
    + rewrite lookup_insert_eq. cbn [default id]. rewrite Z.eqb_refl.
      destruct (decide (to = from)) as [->|Htf].
      * rewrite lookup_insert_eq. cbn [default id]. rewrite Z.eqb_refl.
        rewrite Hbala. rewrite Zminus_mod_idemp_l, Zplus_mod_idemp_l.
        f_equal; lia.
      * rewrite lookup_insert_ne by congruence.
        replace (from =? to) with false
          by (symmetry; apply Z.eqb_neq; congruence).
        rewrite Hbala. rewrite Zplus_mod_idemp_l. f_equal; lia.
    + rewrite lookup_insert_ne by congruence.
      replace (to =? a) with false by (symmetry; apply Z.eqb_neq; congruence).
      destruct (decide (a = from)) as [->|Haf].
      * rewrite lookup_insert_eq. cbn [default id]. rewrite Z.eqb_refl.
        rewrite Hbala. rewrite Zminus_mod_idemp_l. f_equal; lia.
      * rewrite lookup_insert_ne by congruence.
        replace (from =? a) with false
          by (symmetry; apply Z.eqb_neq; congruence).
        rewrite Hbala. f_equal; lia.
Qed.

Lemma transferFrom_numbered (sender from to tokenId : Z) (s s' : State)
      (pending : Z) :
  0 <= pending ->
  transferFrom sender from to tokenId s = Ok s' ->
  numbered s pending -> numbered s' pending.
Proof.
  intros Hp H. unfold transferFrom in H. unpack H.
  eapply transfer_numbered; eassumption.
Qed.

Lemma markAsReleased_numbered (now sender tokenId : Z) (s s' : State)
      (pending : Z) :
  markAsReleased now sender tokenId s = Ok s' ->
  numbered s pending -> numbered s' pending.
Proof.
  intros H. unfold markAsReleased in H. unpack H. subst s'.
  apply numbered_same; reflexivity.
Qed.

Lemma createCrate_numbered (onReceived : State -> Result State)
      (now recipient : Z) (cid : string) (release : Z) (uri : string)
      (urls : list string) (s s' : State) (tokenId : Z) (pending : Z) :
  (forall s1 s2, onReceived s1 = Ok s2 -> numbered s1 1 -> numbered s2 1) ->
  pending = 0 \/ pending = 1 ->
  createCrate onReceived now recipient cid release uri urls s
  = Ok (s', tokenId) ->
  numbered s pending -> numbered s' pending.
Proof.
  intros Hhook Hp H Hs. unfold createCrate, _safeMint in H. unpack H.
  subst s' tokenId. rename a into s2, a0 into s3.
  unpack E. rename a into s1.
  destruct Hp as [-> | ->];
    [|exfalso; eapply mint_pending; eassumption].
  destruct (mint_numbered _ _ _ E1 Hs) as (H1 & C1).
  pose proof (Hhook _ _ E H1) as H2.
  unfold _setTokenURI in E0. unpack E0. subst s3.
  destruct H2 as (n & Hn & Hm & Hc & Hmint & Hbal).
  pose proof modulus_pos as HM.
  exists (n + 1). split; [lia|]. split; [lia|].
  split; [cbn; rewrite Hc; rewrite Zplus_mod_idemp_l; reflexivity|].
  replace (n + 1 + 0) with (n + 1) by lia.
  split.
  - intros id. rewrite <- Hmint. unfold minted, _ownerOf. cbn. tauto.
  - intros a Ha. cbn [_balances with_tokenIdCounter emit with_crateInfo
                      with_tokenURIs].
    rewrite Hbal by exact Ha. reflexivity.
Qed.

Lemma exec_numbered :
  (forall c now sender s s' pending,
      pending = 0 \/ pending = 1 ->
      exec now sender c s = Ok s' -> numbered s pending -> numbered s' pending)
  /\ (forall h now s s' pending,
         pending = 0 \/ pending = 1 ->
         run_hook now h s = Ok s' -> numbered s pending -> numbered s' pending)
  /\ (forall cs now s pending,
         pending = 0 \/ pending = 1 ->
         numbered s pending -> numbered (exec_calls now cs s) pending).
Proof.
  apply call_hook_calls_ind.
  - intros recipient cid release uri urls hook IH now sender s s' p Hp H.
    cbn [exec] in H. unpack H. subst s'. destruct a as [s' id].
    eapply createCrate_numbered; [|exact Hp|exact E].
    intros s1 s2 Hh. eapply IH; [right; reflexivity | exact Hh].
  - intros tokenId now sender s s' p Hp H.
    eapply markAsReleased_numbered, H.
  - intros from to tokenId now sender s s' p Hp H.
    eapply transferFrom_numbered; [|exact H]. lia.
  - intros from to tokenId hook IH now sender s s' p Hp H Hs.
    cbn [exec] in H. unfold safeTransferFrom in H. unpack H.
    eapply IH; [exact Hp | exact H |].
    eapply transferFrom_numbered; [|exact E|exact Hs]. lia.
  - intros to tokenId now sender s s' p Hp H. cbn [exec] in H.
    unfold approve in H. unpack H. subst s'. apply numbered_same; reflexivity.
  - intros operator approved now sender s s' p Hp H. cbn [exec] in H.
    unfold setApprovalForAll in H. unpack H. subst s'.
    apply numbered_same; reflexivity.
  - intros newOwner now sender s s' p Hp H. cbn [exec] in H.
    unfold transferOwnership in H. unpack H. subst s'.
    apply numbered_same; reflexivity.
  - intros now sender s s' p Hp H. cbn [exec] in H.
    unfold renounceOwnership in H. unpack H. subst s'.
    apply numbered_same; reflexivity.
  - intros now s s' p Hp H. cbn [run_hook] in H. injection H as <-. auto.
  - intros calls IH accepts now s s' p Hp H. cbn [run_hook] in H.
    destruct accepts; [|discriminate]. injection H as <-. apply IH, Hp.
  - intros now s p Hp Hs. exact Hs.
  - intros sender c IHc rest IHrest now s p Hp Hs. cbn [exec_calls].
    destruct (exec now sender c s) as [s1|reason] eqn:E.
    + apply IHrest; [exact Hp|]. eapply IHc; eassumption.
    + apply IHrest; assumption.
Qed.

Lemma deployed_numbered (deployer : address) : numbered (deployed deployer) 0.
Proof.
  exists 0. pose proof modulus_pos.
  split; [lia|]. split; [lia|]. split; [reflexivity|]. split.
  - intros tokenId. split; [|lia]. intros Hm. exfalso. apply Hm. reflexivity.
  - intros a _. reflexivity.
Qed.

Lemma run_numbered (txs : list Transaction) :
  forall s, numbered s 0 -> numbered (run txs s) 0.
Proof.
  induction txs as [|tx txs IH]; intros s Hs; [exact Hs|].
  cbn [run fold_left]. fold (run txs (step s tx)). apply IH.
  unfold step. destruct (exec _ _ _ s) as [s'|reason] eqn:E.
  - eapply (proj1 exec_numbered); [left; reflexivity | exact E | exact Hs].
  - exact Hs.
Qed.

(** X7: in every state reached from the deployment, by any transactions
    and any re-entrant hooks, the tokens are numbered without gaps:
    there is a number [n] of crates created so far such that
    [totalSupply] is [n] (modulo 2^256), the tokens that exist are
    exactly 0, ..., n-1, and [balanceOf] of a non-zero address is the
    number of tokens it owns. *)
Theorem tokens_are_numbered (deployer : address) (txs : list Transaction) :
  exists n,
    0 <= n <= uint256_modulus
    /\ totalSupply (run txs (deployed deployer)) = n mod uint256_modulus
    /\ (forall tokenId,
          minted (run txs (deployed deployer)) tokenId <-> 0 <= tokenId < n)
    /\ (forall owner : address, owner <> 0 ->
          balanceOf (run txs (deployed deployer)) owner
          = Ok (Z.of_nat (length (tokens_of (run txs (deployed deployer))
                                            owner n))
                mod uint256_modulus)).
Proof.
  destruct (run_numbered txs _ (deployed_numbered deployer))
    as (n & Hn & Hm & Hc & Hmint & Hbal).
  replace (n + 0) with n in * by lia.
  exists n. split; [lia|]. split; [exact Hc|]. split; [exact Hmint|].
  intros owner Ho. unfold balanceOf.
  apply Z.eqb_neq in Ho. rewrite Ho. cbn [negb require bind].
  apply Z.eqb_neq in Ho. rewrite Hbal by exact Ho. reflexivity.
Qed.

Lemma tokensOfOwner_loop_spec (s : State) (a : address) :
  a <> 0 ->
  forall (fuel : nat) (i : Z) (found rest : list Z),
    (length (List.filter (owned_by s a) (seqZ i (Z.of_nat fuel)))
     <= length rest)%nat ->
    tokensOfOwner_loop fuel i a s (found ++ rest) (length found)
    = Ok (found ++ List.filter (owned_by s a) (seqZ i (Z.of_nat fuel))
          ++ drop (length (List.filter (owned_by s a)
                                       (seqZ i (Z.of_nat fuel)))) rest).
Proof.
  intros Ha fuel. induction fuel as [|fuel IH]; intros i found rest Hlen.
  - cbn. rewrite drop_0. reflexivity.
  - rewrite seqZ_cons in * by lia.
    replace (Z.pred (Z.of_nat (S fuel))) with (Z.of_nat fuel) in * by lia.
    replace (Z.succ i) with (i + 1) in * by lia.
    cbn [tokensOfOwner_loop List.filter] in *.
    destruct (owned_by s a i) eqn:Eo; unfold owned_by in Eo;
      unfold ownerOf, _exists.
    + apply Z.eqb_eq in Eo. rewrite Eo.
      replace (a =? 0) with false by (symmetry; apply Z.eqb_neq; exact Ha).
      cbn [negb require bind]. rewrite Z.eqb_refl.
      destruct rest as [|r rest]; [cbn in Hlen; lia|].
      replace (length found <? length (found ++ r :: rest))%nat with true
        by (symmetry; apply Nat.ltb_lt; rewrite length_app; cbn; lia).
      cbn [require bind].
      rewrite insert_app_r_alt by lia. rewrite Nat.sub_diag.
      cbn [list_insert insert length drop].
      change (found ++ i :: rest) with (found ++ [i] ++ rest).
      rewrite app_assoc.
      replace (S (length found)) with (length (found ++ [i]))
        by (rewrite length_app; cbn; lia).
      rewrite IH by (cbn [length] in Hlen; lia).
      rewrite <- !app_assoc. reflexivity.
    + destruct (_ownerOf s i =? 0) eqn:Ez; cbn [negb require bind].
      * apply IH. exact Hlen.
      * rewrite Eo. apply IH. exact Hlen.
Qed.

Lemma tokensOfOwner_numbered (s : State) (owner : address) :
  numbered s 0 ->
  owner <> 0 ->
  (totalSupply s = 0 -> ~ minted s 0) ->
  tokensOfOwner owner s = Ok (tokens_of s owner (totalSupply s))
  /\ forall tokenId,
       In tokenId (tokens_of s owner (totalSupply s))
       <-> ownerOf s tokenId = Ok owner.
Proof.
  intros (n & Hn & Hm & Hc & Hmint & Hbal) Ho Hwrap.
  replace (n + 0) with n in * by lia.
  pose proof modulus_pos as HM. unfold totalSupply in *.
  assert (Hlt : n < uint256_modulus).
  { destruct (Z.eq_dec n uint256_modulus) as [->|]; [|lia].
    rewrite Z_mod_same_full in Hc. exfalso. apply (Hwrap Hc).
    apply Hmint. lia. }
  rewrite Z.mod_small in Hc by lia. rewrite Hc.
  pose proof (tokens_of_bound s owner n Hn) as Hb.
  split.
  - unfold tokensOfOwner, balanceOf.
    replace (owner =? 0) with false by (symmetry; apply Z.eqb_neq; exact Ho).
    cbn [negb require bind]. rewrite Hbal by exact Ho. rewrite Hc.
    rewrite Z.mod_small by lia. rewrite Nat2Z.id.
    pose proof (tokensOfOwner_loop_spec s owner Ho (Z.to_nat n) 0 []
                  (repeat 0 (length (tokens_of s owner n)))) as L.
    rewrite Z2Nat.id in L by lia. cbn [app length] in L.
    fold (tokens_of s owner n) in L.
    rewrite L by (rewrite repeat_length; lia).
    rewrite drop_ge by (rewrite repeat_length; lia).
    rewrite app_nil_r. reflexivity.
  - intros tokenId. unfold tokens_of. rewrite List.filter_In, in_seqZ.
    unfold owned_by, ownerOf, _exists. split.
    + intros (_ & E). apply Z.eqb_eq in E. rewrite E.
      replace (owner =? 0) with false by (symmetry; apply Z.eqb_neq; exact Ho).
      reflexivity.
    + intros E. destruct (_ownerOf s tokenId =? 0) eqn:Ez;
        cbn [negb require bind] in E; [discriminate|].
      injection E as E. split; [|apply Z.eqb_eq; exact E].
      apply Z.eqb_neq in Ez. apply Hmint in Ez. lia.
Qed.

(** X8: in every state reached from the deployment in which the counter
    has not wrapped around, [tokensOfOwner] of a non-zero address does
    not revert and returns the ids below [totalSupply] that the address
    owns, in increasing order, each once and with no entry left at zero:
    an id is in the result exactly when [ownerOf] returns the address. *)
Theorem tokensOfOwner_lists_tokens
        (deployer : address) (txs : list Transaction) (owner : address) :
  owner <> 0 ->
  (totalSupply (run txs (deployed deployer)) = 0 ->
   ~ minted (run txs (deployed deployer)) 0) ->
  tokensOfOwner owner (run txs (deployed deployer))
  = Ok (tokens_of (run txs (deployed deployer)) owner
                  (totalSupply (run txs (deployed deployer))))
  /\ forall tokenId,
       In tokenId (tokens_of (run txs (deployed deployer)) owner
                             (totalSupply (run txs (deployed deployer))))
       <-> ownerOf (run txs (deployed deployer)) tokenId = Ok owner.
Proof.
  intros Ho Hwrap.
  apply tokensOfOwner_numbered; [|exact Ho|exact Hwrap].
  apply run_numbered, deployed_numbered.
Qed.

Lemma tokensOfOwner_lists_tokens_witness :
  tokensOfOwner 6 (run demo_history (deployed 1))
  = Ok (tokens_of (run demo_history (deployed 1)) 6
                  (totalSupply (run demo_history (deployed 1))))
  /\ forall tokenId,
       In tokenId (tokens_of (run demo_history (deployed 1)) 6
                             (totalSupply (run demo_history (deployed 1))))
       <-> ownerOf (run demo_history (deployed 1)) tokenId = Ok 6.
Proof.
  apply (tokensOfOwner_lists_tokens 1 demo_history 6).
  - lia.
  - intros H. vm_compute in H. discriminate.
Defined.

End TimeCrate.

(** ** The list of crates of the web client: [MyCrates] *)

Module MyCrates.

Import Js.
Local Open Scope string_scope.
Local Open Scope Z_scope.

(** The state of the unlock dialog. *)
Record UnlockModalState : Type := mkUnlockModalState {
  isOpen : bool;
  tokenId : string;
  ipfsCid : string;
  keeperUrls : list string;
  currentStep : Z;
  shares : list string;
  status : string;
  error : string;
  keeperShareFetched : bool
}.

(** A row of the list; the two times are [Date]s: the time value in
    milliseconds, or [None] for an invalid date. *)
Record Crate : Type := mkCrate {
  crate_tokenId : string;
  crate_ipfsCid : string;
  releaseTime : option Z;
  released : bool;
  createdAt : option Z;
  crate_keeperUrls : list string;
  isReady : bool;
  timeRemaining : string
}.

(** What [loadCrates] leaves on the page. *)
Inductive Loaded : Type :=
| NotConnected
| Crates (crates : list Crate)
| LoadError (message : string).

(** [calculateTimeRemaining(releaseTime)]; the times are [Date]s, in
    milliseconds, and [now] is [new Date()]. *)
Definition calculateTimeRemaining (now : Z) (releaseTime : Z) : string :=
  let diff := releaseTime - now in
  if diff <=? 0 then "Ready to unlock!"
  else
    let days := diff / (1000 * 60 * 60 * 24) in
    let hours := (diff mod (1000 * 60 * 60 * 24)) / (1000 * 60 * 60) in
    let minutes := (diff mod (1000 * 60 * 60)) / (1000 * 60) in
    let seconds := (diff mod (1000 * 60)) / 1000 in
    if 0 <? days then
      integer_string days ++ "d " ++ integer_string hours ++ "h "
      ++ integer_string minutes ++ "m"
    else if 0 <? hours then
      integer_string hours ++ "h " ++ integer_string minutes ++ "m "
      ++ integer_string seconds ++ "s"
    else if 0 <? minutes then
      integer_string minutes ++ "m " ++ integer_string seconds ++ "s"
    else integer_string seconds ++ "s".

(** The time value of the release time of a row as [loadCrates] builds
    it from the contract's answer, [new Date(info.releaseTime * 1000)]:
    the seconds of the contract as milliseconds. *)
Definition release_date (releaseTime : Z) : Z := releaseTime * 1000.

(** [new Date(seconds * 1000)] for a number of seconds returned by the
    contract: beyond 8.64e15 milliseconds the date is invalid. Up to
    that bound the product is exact. *)
Definition date_of_seconds (seconds : Z) : option Z :=
  if Z.abs (seconds * 1000) <=? 8640000000000000 then Some (seconds * 1000)
  else None.

(** [calculateTimeRemaining(releaseTime)] for any [Date], at a time [now]
    of the client that is not before 1970: the time value of an invalid
    date is [NaN], every comparison with it fails and the text is that
    of the last [return]. *)
Definition timeRemaining_of (now : Z) (releaseTime : option Z) : string :=
  match releaseTime with
  | Some ms => calculateTimeRemaining now ms
  | None => "NaNs"
  end.

(** One turn of the loop of [loadCrates]: the two calls to the contract
    for [tokenId], at block time [block_time], and the row built from
    their answers at the client's time [now]. The calls of one load are
    taken to be answered from the same block. *)
Definition crate_row (block_time now : Z) (s : TimeCrate.State) (tokenId : Z)
  : Result Crate :=
  match TimeCrate.getCrateInfo tokenId s with
  | Throw m => Throw m
  | Ok (cid, release, urls, flag, created) =>
      match TimeCrate.isReleaseReady block_time tokenId s with
      | Throw m => Throw m
      | Ok ready =>
          Ok (mkCrate (integer_string tokenId) cid (date_of_seconds release)
                      flag (date_of_seconds created) urls ready
                      (timeRemaining_of now (date_of_seconds release)))
      end
  end.

Fixpoint crate_rows (block_time now : Z) (s : TimeCrate.State)
         (tokenIds : list Z) : Result (list Crate) :=
  match tokenIds with
  | [] => Ok []
  | tokenId :: rest =>
      match crate_row block_time now s tokenId with
      | Throw m => Throw m
      | Ok row =>
          match crate_rows block_time now s rest with
          | Throw m => Throw m
          | Ok rows => Ok (row :: rows)
          end
      end
  end.

(** The comparator of the sort, [b.createdAt.getTime() -
    a.createdAt.getTime()], leaves [a] before [b]: the difference is
    negative or zero, or [NaN], which [sort] takes for zero. *)
Definition stays_before (a b : Crate) : bool :=
  match createdAt a, createdAt b with
  | Some ta, Some tb => tb <=? ta
  | _, _ => true
  end.

(** [cratesData.sort(...)] with that comparator: newest first, rows of
    the same time in the order they had (the sort is stable). With an
    invalid date among the rows the comparator is not consistent and the
    order is left to the implementation, which this model does not
    follow. *)
Fixpoint insert_row (x : Crate) (l : list Crate) : list Crate :=
  match l with
  | [] => [x]
  | y :: l' => if stays_before x y then x :: l else y :: insert_row x l'
  end.

Definition sort_rows (l : list Crate) : list Crate :=
  fold_right insert_row [] l.

(** [loadCrates]; [connected] is the selected address of the wallet, if
    any. *)
Definition loadCrates (block_time now : Z)
           (connected : option TimeCrate.address) (s : TimeCrate.State)
  : Loaded :=
  match connected with
  | None => NotConnected
  | Some account =>
      match TimeCrate.tokensOfOwner account s with
      | Throw _ => LoadError "Failed to load your crates. Please try again."
      | Ok tokenIds =>
          match crate_rows block_time now s tokenIds with
          | Throw _ =>
              LoadError "Failed to load your crates. Please try again."
          | Ok cratesData => Crates (sort_rows cratesData)
          end
      end
  end.

(** The row of an existing token, from the state. *)
Definition row_of (block_time now : Z) (s : TimeCrate.State) (tokenId : Z)
  : Crate :=
  let c := TimeCrate.crate s tokenId in
  mkCrate (integer_string tokenId) (TimeCrate.ipfsCid c)
          (date_of_seconds (TimeCrate.releaseTime c)) (TimeCrate.released c)
          (date_of_seconds (TimeCrate.createdAt c)) (TimeCrate.keeperUrls c)
          (TimeCrate.releaseTime c <=? block_time)
          (timeRemaining_of now (date_of_seconds (TimeCrate.releaseTime c))).

(** [x] was created at the same time as [y] or later, both dates being
    valid. *)
Definition newest_first (x y : Crate) : Prop :=
  exists tx ty, createdAt x = Some tx /\ createdAt y = Some ty /\ ty <= tx.

(** The creation date of a row is a valid date. *)
Definition dated (x : Crate) : Prop := exists t, createdAt x = Some t.

(** [useState<string[]>(['', ''])]; [None] is a hole of the array. *)
Definition no_manual_shares : list (option string) :=
  [Some EmptyString; Some EmptyString].

(** [handleManualShareInput(index, value)]: the new array. Writing past
    the end extends the array, leaving holes. *)
Definition handleManualShareInput (manualShares : list (option string))
           (index : nat) (value : string) : list (option string) :=
  if (index <? length manualShares)%nat
  then <[index := Some (trim value)]> manualShares
  else (manualShares ++ repeat None (index - length manualShares)
        ++ [Some (trim value)])%list.

(** What [reconstructAndDecrypt] does first: it shows an error, or fails
    on a share that is not there (the error is caught and shown), or
    posts the request to the backend. *)
Inductive Action : Type :=
| SetError (message : string)
| TypeError
| PostReconstruct (shares : list string) (ipfsCid : string).

(** [manualShares.filter(s => s.length > 0)]; [filter] skips holes. *)
Definition validManualShares (manualShares : list (option string))
  : list string :=
  flat_map (fun s => match s with
                     | Some s => if (0 <? String.length s)%nat then [s] else []
                     | None => []
                     end) manualShares.

(** [reconstructAndDecrypt], up to the request; the three lines logged
    before it read [allShares[0]], [allShares[1]] and [allShares[2]]. *)
Definition reconstructAndDecrypt (unlockModal : UnlockModalState)
           (manualShares : list (option string)) : Action :=
  let validManualShares := validManualShares manualShares in
  if negb (keeperShareFetched unlockModal) then
    SetError "Please fetch the keeper share first"
  else if (length validManualShares <? 2)%nat then
    SetError "Please enter 2 additional shares"
  else
    let allShares := (shares unlockModal ++ validManualShares)%list in
    if (length allShares <? 3)%nat then TypeError
    else PostReconstruct allShares (ipfsCid unlockModal).

(** The body of the request as the backend reads it. *)
Definition request_body (allShares : list string) (ipfsCid : string)
  : Orchestrator.ReconstructRequest :=
  Orchestrator.mkReconstructRequest (Some (JArr (map JStr allShares)))
                                    (Some (JStr ipfsCid)).

(** The dialog once a keeper has answered with [share], and the two
    text areas once [v1] and [v2] were typed into them. *)
Definition fetched (tokenId ipfsCid : string) (keeperUrls : list string)
           (share : string) (status : string) : UnlockModalState :=
  mkUnlockModalState true tokenId ipfsCid keeperUrls 1 [share] status
                     EmptyString true.

Definition typed (v1 v2 : string) : list (option string) :=
  handleManualShareInput (handleManualShareInput no_manual_shares 0 v1) 1 v2.

Lemma countdown_not_ready (z : Z) (rest : string) :
  (integer_string z ++ rest)%string <> "Ready to unlock!".
Proof.
  unfold integer_string. destruct (Z.to_int z) as [d|d]; destruct d; cbn;
    discriminate.
Qed.

(** X19: what the unlock dialog sends, and what the backend combines.
    Once a keeper's share is fetched, no request is sent while one of
    the two text areas is empty or blank; with both filled, the request
    carries the keeper's share and the two typed shares, trimmed, in
    that order, with the content id of the crate; and, the keeper's
    share not being blank, the backend calls [secrets.combine] once, on
    exactly these three shares. *)
Theorem unlock_request
        (w : Orchestrator.World) (id cid : string) (urls : list string)
        (share message v1 v2 : string) :
  (trim v1 = EmptyString \/ trim v2 = EmptyString ->
   reconstructAndDecrypt (fetched id cid urls share message) (typed v1 v2)
   = SetError "Please enter 2 additional shares")
  /\ (trim v1 <> EmptyString -> trim v2 <> EmptyString ->
      reconstructAndDecrypt (fetched id cid urls share message) (typed v1 v2)
      = PostReconstruct [share; trim v1; trim v2] cid
      /\ (all_white_space share = false ->
          cid <> EmptyString ->
          Orchestrator.combine_calls
            (fst (Orchestrator.reconstruct w
                    (request_body [share; trim v1; trim v2] cid)))
          = [[share; trim v1; trim v2]])).
Proof.
  unfold typed, handleManualShareInput, no_manual_shares, fetched,
    reconstructAndDecrypt.
  split.
  - intros [E | E]; rewrite E;
      [destruct (trim v2) | destruct (trim v1)]; reflexivity.
  - intros H1 H2.
    destruct (trim v1) as [|c1 t1] eqn:E1; [contradiction|].
    destruct (trim v2) as [|c2 t2] eqn:E2; [contradiction|].
    split; [reflexivity|]. intros Hshare Hcid.
    assert (B1 : all_white_space (String c1 t1) = false)
      by (rewrite <- E1; apply Orchestrator.trim_not_blank; rewrite E1;
          discriminate).
    assert (B2 : all_white_space (String c2 t2) = false)
      by (rewrite <- E2; apply Orchestrator.trim_not_blank; rewrite E2;
          discriminate).
    unfold request_body.
    assert (T : truthy (JStr cid) = true)
      by (cbn [truthy]; destruct cid; [contradiction|reflexivity]).
    assert (N : Orchestrator.non_empty_strings
                  (map JStr [share; String c1 t1; String c2 t2])
                = [share; String c1 t1; String c2 t2]).
    { cbn [map Orchestrator.non_empty_strings flat_map app].
      rewrite Hshare, B1, B2. reflexivity. }
    pose proof (Orchestrator.reconstruct_response w
                  (map JStr [share; String c1 t1; String c2 t2]) (JStr cid)
                  cid)
      as R.
    rewrite N in R. apply R; [|exact T|reflexivity|cbn; lia].
    repeat constructor.
Qed.

Lemma unlock_request_witness :
  reconstructAndDecrypt
    (fetched "0" "QmDemoCid" Orchestrator.KEEPER_NODES "801a3f" "")
    (typed " 802b40 " "803c51")
  = PostReconstruct ["801a3f"; trim " 802b40 "; trim "803c51"] "QmDemoCid"
  /\ (all_white_space "801a3f" = false ->
      "QmDemoCid" <> EmptyString ->
      Orchestrator.combine_calls
        (fst (Orchestrator.reconstruct (Orchestrator.demo_world [])
                (request_body ["801a3f"; trim " 802b40 "; trim "803c51"]
                              "QmDemoCid")))
      = [["801a3f"; trim " 802b40 "; trim "803c51"]]).
Proof.
  apply (unlock_request (Orchestrator.demo_world []) "0" "QmDemoCid"
           Orchestrator.KEEPER_NODES "801a3f" "" " 802b40 " "803c51").
  - vm_compute. discriminate.
  - vm_compute. discriminate.
Defined.

(** X20: the countdown agrees with the contract. For a crate whose data
    [getCrateInfo] returned, the text computed for its row is "Ready to
    unlock!" exactly when [isReleaseReady] returns true at the block
    time that is the client's time in whole seconds. *)
Theorem countdown_agrees_with_contract
        (now id : Z) (s : TimeCrate.State)
        (cid : string) (release : Z) (urls : list string) (flag : bool)
        (created : Z) :
  TimeCrate.getCrateInfo id s = Ok (cid, release, urls, flag, created) ->
  calculateTimeRemaining now (release_date release) = "Ready to unlock!"
  <-> TimeCrate.isReleaseReady (now / 1000) id s = Ok true.
Proof.
  intros H. unfold TimeCrate.getCrateInfo in H.
  unfold TimeCrate.isReleaseReady.
  destruct (negb (TimeCrate._ownerOf s id =? 0)); [|discriminate].
  cbn [TimeCrate.require TimeCrate.bind] in *.
  injection H as _ Hr _ _ _. rewrite Hr.
  unfold calculateTimeRemaining, release_date. cbv zeta.
  pose proof (Z.div_mod now 1000). pose proof (Z.mod_pos_bound now 1000).
  destruct (Z.leb_spec (release * 1000 - now) 0) as [Hle|Hgt].
  - split; [|reflexivity]. intros _. f_equal. apply Z.leb_le. lia.
  - split.
    + intros E. exfalso. revert E.
      repeat match goal with
             | |- context [if ?b then _ else _] => destruct b
             end; apply countdown_not_ready.
    + intros E. injection E as E. apply Z.leb_le in E. lia.
Qed.

Lemma countdown_agrees_with_contract_witness :
  calculateTimeRemaining 150000 (release_date 200) = "Ready to unlock!"
  <-> TimeCrate.isReleaseReady (150000 / 1000) 0 TimeCrate.demo_created
      = Ok true.
Proof.
  apply (countdown_agrees_with_contract 150000 0 TimeCrate.demo_created
           "QmCid" 200 ["http://localhost:4001"] false 100).
  vm_compute. reflexivity.
Defined.

(** *** The list *)

Lemma crate_row_minted (block_time now : Z) (s : TimeCrate.State) (id : Z) :
  TimeCrate.minted s id ->
  crate_row block_time now s id = Ok (row_of block_time now s id).
Proof.
  intros Hm. unfold crate_row, TimeCrate.getCrateInfo,
    TimeCrate.isReleaseReady, row_of.
  unfold TimeCrate.minted in Hm. apply Z.eqb_neq in Hm. rewrite Hm.
  reflexivity.
Qed.

Lemma crate_rows_minted (block_time now : Z) (s : TimeCrate.State)
      (ids : list Z) :
  Forall (TimeCrate.minted s) ids ->
  crate_rows block_time now s ids = Ok (map (row_of block_time now s) ids).
Proof.
  induction 1 as [|id ids Hid _ IH]; [reflexivity|].
  cbn [crate_rows map]. rewrite crate_row_minted by exact Hid.
  rewrite IH. reflexivity.
Qed.

Lemma insert_row_permutation (x : Crate) (l : list Crate) :
  Permutation (insert_row x l) (x :: l).
Proof.
  induction l as [|y l IH]; [reflexivity|].
  cbn [insert_row]. destruct (stays_before x y); [reflexivity|].
  rewrite IH. apply perm_swap.
Qed.

Lemma sort_rows_permutation (l : list Crate) : Permutation (sort_rows l) l.
Proof.
  induction l as [|x l IH]; [reflexivity|].
  cbn [sort_rows fold_right]. fold (sort_rows l).
  rewrite insert_row_permutation. constructor. exact IH.
Qed.

Lemma insert_row_sorted (x : Crate) (l : list Crate) :
  dated x -> Forall dated l ->
  StronglySorted newest_first l -> StronglySorted newest_first (insert_row x l).
Proof.
  intros (tx & Hx) Hl Hs. induction Hs as [|y l Hs IH Hy].
  - repeat constructor.
  - apply Forall_cons in Hl as ((ty & Hty) & Hl).
    cbn [insert_row]. unfold stays_before. rewrite Hx, Hty.
    destruct (Z.leb_spec ty tx) as [H|H].
    + constructor; [constructor; assumption|].
      constructor; [exists tx, ty; auto|].
      eapply List.Forall_impl; [|exact Hy].
      intros z (ty' & tz & E1 & E2 & Hz).
      exists tx, tz. repeat split; [assumption..|].
      assert (ty' = ty) by congruence. lia.
    + constructor; [exact (IH Hl)|].
      eapply Permutation_Forall; [symmetry; apply insert_row_permutation|].
      constructor; [exists ty, tx; repeat split; [assumption..|lia] | exact Hy].
Qed.

Lemma sort_rows_sorted (l : list Crate) :
  Forall dated l -> StronglySorted newest_first (sort_rows l).
Proof.
  induction 1 as [|x l Hx Hl IH]; [constructor|].
  cbn [sort_rows fold_right]. apply insert_row_sorted; [exact Hx| |exact IH].
  eapply Permutation_Forall; [symmetry; apply sort_rows_permutation|exact Hl].
Qed.

(** X21: the list shows what the account owns. In every state reached
    from the deployment in which the counter has not wrapped around, for
    a connected account other than the zero address, [loadCrates] does
    not end in its error branch: none of its calls to the contract
    reverts. It shows one row for each token the account owns and no
    other row, each built from the crate of its token, with an invalid
    date and the text "NaNs" when the release time is beyond the range
    of [Date]; and, the crates of the account being created at times
    within that range, the newest crate comes first. The client's clock
    is taken to show a time from 1970 on. *)
Theorem loadCrates_lists_owned
        (deployer : TimeCrate.address) (txs : list TimeCrate.Transaction)
        (account : TimeCrate.address) (block_time now : Z) :
  let s := TimeCrate.run txs (TimeCrate.deployed deployer) in
  let tokenIds := TimeCrate.tokens_of s account (TimeCrate.totalSupply s) in
  account <> 0 ->
  (TimeCrate.totalSupply s = 0 -> ~ TimeCrate.minted s 0) ->
  0 <= now <= 8640000000000000 ->
  Forall (fun tokenId =>
            0 <= TimeCrate.createdAt (TimeCrate.crate s tokenId)
            <= 8640000000000)
         tokenIds ->
  exists crates,
    loadCrates block_time now (Some account) s = Crates crates
    /\ Permutation crates (map (row_of block_time now s) tokenIds)
    /\ StronglySorted newest_first crates.
Proof.
  intros s tokenIds Ha Hwrap _ Hdates.
  assert (Hn : TimeCrate.numbered s 0)
    by apply TimeCrate.run_numbered, TimeCrate.deployed_numbered.
  destruct (TimeCrate.tokensOfOwner_numbered s account Hn Ha Hwrap)
    as (Hids & Hin).
  unfold loadCrates. rewrite Hids. fold tokenIds.
  rewrite crate_rows_minted.
  - eexists. split; [reflexivity|].
    split; [apply sort_rows_permutation | apply sort_rows_sorted].
    apply Forall_map. eapply List.Forall_impl; [|exact Hdates].
    intros id Hid. cbv beta in Hid.
    unfold compose, dated, row_of, date_of_seconds. cbn [createdAt].
    destruct (Z.leb_spec
                (Z.abs (TimeCrate.createdAt (TimeCrate.crate s id) * 1000))
                8640000000000000); [eexists; reflexivity | lia].
  - apply Forall_forall. intros id Hid.
    apply list_elem_of_In, Hin in Hid.
    unfold TimeCrate.ownerOf, TimeCrate._exists in Hid.
    unfold TimeCrate.minted. intros E. rewrite E in Hid. discriminate.
Qed.

Lemma loadCrates_lists_owned_witness :
  let s := TimeCrate.run TimeCrate.demo_history (TimeCrate.deployed 1) in
  let tokenIds := TimeCrate.tokens_of s 6 (TimeCrate.totalSupply s) in
  exists crates,
    loadCrates 250 250000 (Some 6) s = Crates crates
    /\ Permutation crates (map (row_of 250 250000 s) tokenIds)
    /\ StronglySorted newest_first crates.
Proof.
  apply (loadCrates_lists_owned 1 TimeCrate.demo_history 6 250 250000).
  - lia.
  - intros H. vm_compute in H. discriminate.
  - lia.
  - replace (TimeCrate.tokens_of _ 6 _) with [0] by (vm_compute; reflexivity).
    constructor; [|constructor]. vm_compute. split; discriminate.
Defined.

End MyCrates.
